(** * Aix-DB: the deep-research agent's delivery pipeline and SQL tool layer

    A shallow embedding of
      - [src/agent/deepagent/tools/native_sql_tools.py] (the four SQL tools
        and their calls into the tool-call manager), and
      - [src/agent/deepagent/deep_research_agent.py] (task registry,
        streaming delivery loop, rendering, error classification),
    followed by the properties of the specification that concern them,
    and of
      - [src/agent/excel/excel_mapping_node.py] (column types, table and
        catalog names, reading the uploaded files), and
      - [src/agent/excel/excel_excute_sql.py] (running the generated
        query in DuckDB),
    with further properties of all four.

    Conventions.  A Python [str] is a [string]; one [ascii] stands for one
    character, and the case mappings are the ASCII ones.  The fixed banners
    of the source are kept verbatim as literals.  Awaited calls are the only
    points where the environment acts: each awaited write, flush or stream
    step consumes one scripted event that says how the call ends and
    whether a cancel request for the task arrived while it was pending. *)

From Stdlib Require Import Ascii String ZArith Lia Sorted.
From stdpp Require Import base option list gmap strings pretty.

Open Scope string_scope.
Open Scope list_scope.

(** ** Python string operations *)

Module PyStr.

Definition nl : string := String "010"%char EmptyString.

(** [str.isspace] on one character. *)
Definition is_space (c : ascii) : bool :=
  let n := nat_of_ascii c in
  (Nat.leb 9 n && Nat.leb n 13) || (Nat.leb 28 n && Nat.leb n 32).

Definition lower_char (c : ascii) : ascii :=
  let n := nat_of_ascii c in
  if Nat.leb 65 n && Nat.leb n 90 then ascii_of_nat (n + 32) else c.

Definition upper_char (c : ascii) : ascii :=
  let n := nat_of_ascii c in
  if Nat.leb 97 n && Nat.leb n 122 then ascii_of_nat (n - 32) else c.

Fixpoint map_chars (f : ascii -> ascii) (s : string) : string :=
  match s with
  | EmptyString => EmptyString
  | String c r => String (f c) (map_chars f r)
  end.

(** [s.lower()], [s.upper()] *)
Definition lower : string -> string := map_chars lower_char.
Definition upper : string -> string := map_chars upper_char.

Fixpoint lstrip (s : string) : string :=
  match s with
  | String c r => if is_space c then lstrip r else s
  | EmptyString => EmptyString
  end.

(** [rstrip] keeps a character when it is not a space or when something
    is kept to its right. *)
Fixpoint rstrip (s : string) : string :=
  match s with
  | EmptyString => EmptyString
  | String c r =>
      match rstrip r with
      | EmptyString => if is_space c then EmptyString else String c EmptyString
      | r' => String c r'
      end
  end.

(** [s.strip()] *)
Definition strip (s : string) : string := rstrip (lstrip s).

(** [s.startswith(p)] *)
Definition startswith (s p : string) : bool := String.prefix p s.

(** [needle in hay] *)
Fixpoint contains (needle hay : string) : bool :=
  String.prefix needle hay ||
  match hay with
  | EmptyString => false
  | String _ r => contains needle r
  end.

(** [s[:n]] *)
Fixpoint take (n : nat) (s : string) : string :=
  match n, s with
  | S k, String c r => String c (take k r)
  | _, _ => EmptyString
  end.

(** truth value of a string: non-empty *)
Definition truthy (s : string) : bool :=
  match s with EmptyString => false | _ => true end.

(** [s.split(c)] for a one-character separator: the pieces, at least one. *)
Fixpoint split_on (sep : ascii) (s : string) : list string :=
  match s with
  | EmptyString => [EmptyString]
  | String c r =>
      if Ascii.eqb c sep then EmptyString :: split_on sep r
      else match split_on sep r with
           | p :: ps => String c p :: ps
           | [] => [String c EmptyString]
           end
  end.

(** [sep.join(parts)] *)
Definition join (sep : string) (parts : list string) : string :=
  String.concat sep parts.

End PyStr.

(** ** The tool-call manager (call ledger and governor) *)

Module ToolCallManager.

(** Modelled from the spec: the module [tool_call_manager]
    ([get_tool_call_manager], [check_before_call], [record_call]) is
    imported by the tool layer but is not among the sources.  The data
    model follows section 3 (Call Record, Call Decision) and the policy
    follows section 4.2 of the specification. *)
Record CallRecord := {
  tool_name : string;
  query_fingerprint : option string;
  success : bool;
  timestamp : nat
}.

(** Modelled from the spec: thresholds are configuration. *)
Record Config := {
  repeat_threshold : nat;   (* K of the loop guard *)
  flood_window : nat;       (* length of the rolling window *)
  flood_ceiling : nat       (* most calls tolerated inside the window *)
}.

Record t := {
  config : Config;
  sessions : gmap string (list CallRecord)
}.

(** Modelled from the spec: the pieces of [s] between runs of
    whitespace. *)
Fixpoint words_aux (cur : string) (s : string) : list string :=
  match s with
  | EmptyString => if PyStr.truthy cur then [cur] else []
  | String c r =>
      if PyStr.is_space c
      then (if PyStr.truthy cur then [cur] else []) ++ words_aux EmptyString r
      else words_aux (cur +:+ String c EmptyString) r
  end.

(** Modelled from the spec: "fingerprinting normalizes whitespace/case". *)
Definition fingerprint (q : string) : string :=
  PyStr.join " " (words_aux EmptyString (PyStr.lower q)).

(** Modelled from the spec: the ledger of a session, empty before its
    first use. *)
Definition ledger (m : t) (sid : string) : list CallRecord :=
  default [] (sessions m !! sid).

Definition same_call (tool : string) (fp : option string) (r : CallRecord) : bool :=
  bool_decide (tool_name r = tool) && bool_decide (query_fingerprint r = fp).

(** Number of records at the end of the history (newest first in
    [rev_hist]) that repeat the same tool and fingerprint. *)
Fixpoint run_length (tool : string) (fp : option string) (rev_hist : list CallRecord) : nat :=
  match rev_hist with
  | r :: rest => if same_call tool fp r then S (run_length tool fp rest) else 0
  | [] => 0
  end.

Definition in_window (cfg : Config) (now : nat) (r : CallRecord) : bool :=
  Nat.ltb now (timestamp r + flood_window cfg).

Definition loop_reason (tool : string) : string :=
  "Repeated call rejected: the same request to " +:+ tool +:+
  " was already issued; reuse the earlier result instead of repeating the query.".

Definition flood_reason : string :=
  "Too many tool calls in this session; stop calling tools and answer from the results at hand.".

(** Modelled from the spec: [check(session_id, tool_name, query?)].
    The session is created on its first check.  Rule 1 rejects the call
    that would make the same (tool, fingerprint) occur more than K times
    in a row; rule 2 rejects when the calls inside the rolling window
    exceed the ceiling; otherwise the call is allowed, with an empty
    reason. *)
Definition check_before_call (m : t) (now : nat) (sid tool : string)
    (query : option string) : t * (bool * string) :=
  let hist := ledger m sid in
  let m' := {| config := config m; sessions := <[sid := hist]> (sessions m) |} in
  let fp := fingerprint <$> query in
  if Nat.ltb (repeat_threshold (config m)) (S (run_length tool fp (rev hist)))
  then (m', (false, loop_reason tool))
  else if Nat.ltb (flood_ceiling (config m))
                  (length (filter (fun r => in_window (config m) now r = true) hist))
  then (m', (false, flood_reason))
  else (m', (true, EmptyString)).

(** Modelled from the spec: [record(session_id, tool_name, success,
    query?)] appends one Call Record. *)
Definition record_call (m : t) (now : nat) (sid tool : string) (ok : bool)
    (query : option string) : t :=
  let r := {| tool_name := tool; query_fingerprint := fingerprint <$> query;
              success := ok; timestamp := now |} in
  {| config := config m; sessions := <[sid := ledger m sid ++ [r]]> (sessions m) |}.

End ToolCallManager.

(** ** [native_sql_tools.py]: the SQL tools of natively driven data sources *)

Module NativeSqlTools.

Import PyStr.

Record DatasourceInfo := {
  datasource_id : option Z;
  datasource_type : option string;
  datasource_config : option string;
  session_id : option string
}.

(** truth value of an optional integer / string, as [not x] reads it *)
Definition truthy_int (o : option Z) : bool :=
  match o with Some z => negb (Z.eqb z 0) | None => false end.
Definition truthy_str (o : option string) : bool :=
  match o with Some s => truthy s | None => false end.

(** How a call into a collaborator ends: with a value or with an
    exception, of which the tools only read [str(e)]. *)
Inductive Outcome (A : Type) :=
| Returns (a : A)
| Raises (msg : string).
Arguments Returns {A} a.
Arguments Raises {A} msg.

Record ColumnMeta := { col_type : string; col_comment : string }.
Record TableMeta := {
  columns : list (string * ColumnMeta);
  table_comment : string
}.
(** [table_info]: an ordered dictionary from table name to its columns *)
Definition TableInfo := list (string * TableMeta).
(** one result row: column name to rendered value *)
Definition Row := list (string * string).

(** The module-level state the tools work on: the current data source,
    the process-wide tool-call manager, and the statements handed to
    [DatasourceConnectionUtil.execute_query] so far. *)
Record World := {
  _current_datasource : DatasourceInfo;
  manager : ToolCallManager.t;
  executed : list string
}.

Definition set_native_datasource_info (w : World) (id : Z) (ty cfg : string)
    (sid : option string) : World :=
  {| _current_datasource :=
       {| datasource_id := Some id; datasource_type := Some ty;
          datasource_config := Some cfg;
          session_id := Some (if truthy_str sid then default EmptyString sid
                              else "datasource_" +:+ pretty id) |};
     manager := manager w; executed := executed w |}.

Definition _get_session_id (w : World) : string :=
  let d := _current_datasource w in
  if truthy_str (session_id d) then default EmptyString (session_id d)
  else if truthy_int (datasource_id d)
       then "datasource_" +:+ pretty (default 0%Z (datasource_id d))
       else "default".

Definition _check_tool_call (w : World) (now : nat) (tool : string)
    (query : option string) : World * (bool * string) :=
  let '(m, d) := ToolCallManager.check_before_call (manager w) now (_get_session_id w) tool query in
  ({| _current_datasource := _current_datasource w; manager := m; executed := executed w |}, d).

Definition _record_tool_call (w : World) (now : nat) (tool : string) (ok : bool)
    (query : option string) : World :=
  {| _current_datasource := _current_datasource w;
     manager := ToolCallManager.record_call (manager w) now (_get_session_id w) tool ok query;
     executed := executed w |}.

Definition forbidden_keywords : list string :=
  ["INSERT"; "UPDATE"; "DELETE"; "DROP"; "ALTER"; "TRUNCATE"; "CREATE"].

(** The first forbidden keyword, in list order, that occurs in the text. *)
Definition first_forbidden (query_upper : string) : option string :=
  List.find (fun keyword => contains keyword query_upper) forbidden_keywords.

Definition count_char (c : ascii) (s : string) : nat :=
  length (filter (fun x => x = c) (list_ascii_of_string s)).

Section Collaborators.

(** [_get_table_info_from_metadata()]: the metadata read for a data
    source, or the exception of the connection pool. *)
Variable table_info_from_metadata : Z -> Outcome TableInfo.

(** [DatasourceConfigUtil.decrypt_config] followed by
    [DatasourceConnectionUtil.execute_query], for a data-source type,
    its stored configuration and a statement. *)
Variable execute_query : string -> string -> string -> Outcome (list Row).

(** The table layout of a non-empty result (lines 308-344). *)
Variable format_rows : list Row -> string.

(** [_handle_starrocks_error(error_msg, query)] *)
Variable _handle_starrocks_error : string -> string -> option string.

Definition sql_db_list_tables (w : World) (now : nat) : World * string :=
  if negb (truthy_int (datasource_id (_current_datasource w)))
  then (w, "错误: 未设置数据源信息")
  else
    let '(w1, (allowed, reason)) := _check_tool_call w now "sql_db_list_tables" None in
    if negb allowed then (w1, reason)
    else
      match table_info_from_metadata (default 0%Z (datasource_id (_current_datasource w))) with
      | Returns table_info =>
          match table_info with
          | [] => (_record_tool_call w1 now "sql_db_list_tables" true None, "数据库中没有表")
          | _ =>
              let w2 := _record_tool_call w1 now "sql_db_list_tables" true None in
              let line (e : string * TableMeta) :=
                if truthy (table_comment e.2)
                then "- " +:+ e.1 +:+ ": " +:+ table_comment e.2
                else "- " +:+ e.1 in
              (w2, join nl (["数据库中有以下表：" +:+ nl] ++ map line table_info ++
                            [nl +:+ "✅ 表列表已获取完成。如需查看表结构，请使用 sql_db_schema 工具。"]))
          end
      | Raises e =>
          (_record_tool_call w1 now "sql_db_list_tables" false None,
           "列出表失败: " +:+ take 100 e)
      end.

Definition column_line (c : string * ColumnMeta) : string :=
  nl +:+ "  - " +:+ c.1 +:+ " (" +:+ col_type c.2 +:+ ")" +:+
  (if truthy (col_comment c.2) then " - " +:+ col_comment c.2 else EmptyString).

Definition schema_part (table_info : TableInfo) (table_name : string) : string :=
  match List.find (fun e => String.eqb e.1 table_name) table_info with
  | None => "表 '" +:+ table_name +:+ "' 不存在"
  | Some (_, info) =>
      nl +:+ "表 '" +:+ table_name +:+ "':" +:+
      (if truthy (table_comment info) then nl +:+ "注释: " +:+ table_comment info
       else EmptyString) +:+
      nl +:+ "列:" +:+ String.concat EmptyString (map column_line (columns info))
  end.

Definition sql_db_schema (w : World) (now : nat) (table_names : string) : World * string :=
  if negb (truthy_int (datasource_id (_current_datasource w)))
  then (w, "错误: 未设置数据源信息")
  else
    let '(w1, (allowed, reason)) := _check_tool_call w now "sql_db_schema" None in
    if negb allowed then (w1, reason)
    else
      match table_info_from_metadata (default 0%Z (datasource_id (_current_datasource w))) with
      | Returns table_info =>
          let table_list := map strip (split_on "," table_names) in
          let schema_parts := map (schema_part table_info) table_list in
          let w2 := _record_tool_call w1 now "sql_db_schema" true None in
          let result := match schema_parts with
                        | [] => "未找到表信息"
                        | _ => join nl schema_parts
                        end in
          (w2, result +:+ nl +:+ nl +:+
               "✅ 表架构已获取完成。请基于此信息编写 SQL 查询，无需重复获取架构。")
      | Raises e =>
          (_record_tool_call w1 now "sql_db_schema" false None,
           "获取表架构失败: " +:+ take 100 e)
      end.

(** The statement handed to the database is logged in [executed]. *)
Definition run_query (w : World) (ty cfg query : string) : World * Outcome (list Row) :=
  ({| _current_datasource := _current_datasource w; manager := manager w;
      executed := executed w ++ [query] |},
   execute_query ty cfg query).

Definition sql_db_query (w : World) (now : nat) (query : string) : World * string :=
  let d := _current_datasource w in
  if negb (truthy_int (datasource_id d)) || negb (truthy_str (datasource_type d))
     || negb (truthy_str (datasource_config d))
  then (w, "错误: 未设置数据源信息")
  else
    let ty := default EmptyString (datasource_type d) in
    let cfg := default EmptyString (datasource_config d) in
    let query_upper := upper (strip query) in
    match first_forbidden query_upper with
    | Some keyword => (w, "错误: 不允许执行 " +:+ keyword +:+ " 操作，只允许 SELECT 查询")
    | None =>
        if negb (startswith query_upper "SELECT")
        then (w, "错误: 只允许执行 SELECT 查询")
        else
          let '(w1, (allowed, reason)) := _check_tool_call w now "sql_db_query" (Some query) in
          if negb allowed then (w1, reason)
          else
            match run_query w1 ty cfg query with
            | (w2, Returns result_data) =>
                let w3 := _record_tool_call w2 now "sql_db_query" true (Some query) in
                match result_data with
                | [] => (w3, "✅ 查询成功执行，但没有返回数据。")
                | _ => (w3, format_rows result_data)
                end
            | (w2, Raises e) =>
                let w3 := _record_tool_call w2 now "sql_db_query" false (Some query) in
                let concise :=
                  if String.eqb ty "starrocks" || String.eqb ty "doris"
                  then _handle_starrocks_error e query else None in
                if truthy_str concise then (w3, default EmptyString concise)
                else
                  let error_msg :=
                    if Nat.ltb 200 (String.length e) then take 200 e +:+ "..." else e in
                  (w3, "SQL 执行失败: " +:+ error_msg +:+ nl +:+ nl +:+
                       "请检查 SQL 语法和表结构是否正确。" +:+
                       "如果之前已获取表架构，请直接使用已有信息，无需重复查询。")
            end
    end.

Definition sql_db_query_checker (w : World) (now : nat) (query : string) : World * string :=
  let '(w1, (allowed, reason)) := _check_tool_call w now "sql_db_query_checker" None in
  if negb allowed then (w1, reason)
  else
    let query_upper := upper (strip query) in
    if negb (truthy query_upper)
    then (_record_tool_call w1 now "sql_db_query_checker" false None, "错误: SQL 查询为空")
    else
      match first_forbidden query_upper with
      | Some keyword =>
          (_record_tool_call w1 now "sql_db_query_checker" false None,
           "错误: 不允许执行 " +:+ keyword +:+ " 操作，只允许 SELECT 查询")
      | None =>
          if negb (startswith query_upper "SELECT")
          then (_record_tool_call w1 now "sql_db_query_checker" false None,
                "错误: 只允许执行 SELECT 查询")
          else
            let issues :=
              (if contains "FROM" query_upper then [] else ["缺少 FROM 子句"]) ++
              (if Nat.eqb (count_char "(" query) (count_char ")" query) then []
               else ["括号不匹配"]) ++
              (if Nat.even (count_char "'" query) then [] else ["单引号不匹配"]) in
            let w2 := _record_tool_call w1 now "sql_db_query_checker" true None in
            match issues with
            | [] => (w2, "✅ SQL 查询语法检查通过，可以执行。")
            | _ => (w2, "SQL 语法警告: " +:+ join ", " issues)
            end
      end.

(** The ledger of the current session. *)
Definition current_ledger (w : World) : list ToolCallManager.CallRecord :=
  ToolCallManager.ledger (manager w) (_get_session_id w).

Inductive ToolCall :=
| CallListTables
| CallSchema (table_names : string)
| CallQuery (query : string)
| CallQueryChecker (query : string).

Definition invoke (w : World) (now : nat) (c : ToolCall) : World * string :=
  match c with
  | CallListTables => sql_db_list_tables w now
  | CallSchema t => sql_db_schema w now t
  | CallQuery q => sql_db_query w now q
  | CallQueryChecker q => sql_db_query_checker w now q
  end.

End Collaborators.

End NativeSqlTools.

(** ** [deep_research_agent.py]: task registry and streaming delivery *)

Module DeepAgent.

Import PyStr.

(** *** Exceptions, frames, messages *)

(** What an awaited call may raise.  [asyncio.CancelledError] is not an
    [Exception], so [except Exception] lets it through; of any other
    exception the code reads [type(e).__name__] and [str(e)]. *)
Inductive Raised :=
| CancelledError
| Exception (type_name : string) (msg : string).

(** Modelled from the spec: [DataTypeEnum] ([constants.code_enum]) is not
    among the sources; the three payload kinds of section 6 stand for
    [ANSWER.value[0]], [STEP_PROGRESS.value[0]] and [STREAM_END.value[0]]. *)
Inductive DataType := ANSWER | STEP_PROGRESS | STREAM_END.

(** The JSON document of one frame; on the wire it is
    ["data:" + json.dumps(res) + "\n\n"]. *)
Record Frame := {
  messageType : string;
  content : string;
  dataType : DataType
}.

Definition _create_response (content message_type : string) (data_type : DataType) : Frame :=
  {| messageType := message_type; content := content; dataType := data_type |}.

(** One element of a multi-part agent content: a text part, or anything
    else (which the join skips). *)
Inductive Part :=
| TextPart (text : string)
| OtherPart.

Inductive AIContent :=
| ContentStr (s : string)
| ContentList (parts : list Part).

Inductive TableNames :=
| NamesStr (s : string)
| NamesList (l : list string).

(** A tool call of an agent message: [tc.get("name", "unknown")] and the
    entries of [args] that the templates read. *)
Record ToolCallReq := {
  tc_name : string;
  arg_query : option string;
  arg_table_names : option TableNames
}.

Inductive Message :=
| HumanMessage (content : string)
| AIMessage (content : AIContent) (tool_calls : list ToolCallReq)
| ToolMessage (name : string) (content : string)
| OtherMessage.

(** *** The world of one run *)

Inductive IoResult :=
| IoOk
| IoRaise (e : Raised).

(** One awaited call on the response object: how it ends, and whether
    [cancel_task] ran for this task while it was pending. *)
Record ChanEvent := {
  io_result : IoResult;
  cancel_arrives : bool
}.

(** What the response object has seen. *)
Inductive ChanEntry :=
| Wrote (f : Frame)
| WriteFailed (f : Frame) (e : Raised)
| Flushed
| FlushFailed (e : Raised).

(** The arguments of one [add_user_record] call that the specification
    names: conversation id, question, rendered blocks, data source. *)
Record UserRecord := {
  rec_uuid : string;
  rec_session_id : option string;
  rec_query : string;
  rec_answer : list string;
  rec_datasource_id : option Z
}.

Record World := {
  running_tasks : gmap string bool;   (* task_id to context["cancelled"] *)
  script : list ChanEvent;            (* how the coming writes and flushes end *)
  has_flush : bool;                   (* hasattr(response, "flush") *)
  channel : list ChanEntry;           (* history of the response object *)
  t02_answer_data : list string;
  user_records : list UserRecord
}.

Definition set_running_tasks (f : gmap string bool -> gmap string bool) (w : World) : World :=
  {| running_tasks := f (running_tasks w); script := script w; has_flush := has_flush w;
     channel := channel w; t02_answer_data := t02_answer_data w;
     user_records := user_records w |}.

Definition set_script (s : list ChanEvent) (w : World) : World :=
  {| running_tasks := running_tasks w; script := s; has_flush := has_flush w;
     channel := channel w; t02_answer_data := t02_answer_data w;
     user_records := user_records w |}.

Definition log_channel (e : ChanEntry) (w : World) : World :=
  {| running_tasks := running_tasks w; script := script w; has_flush := has_flush w;
     channel := channel w ++ [e]; t02_answer_data := t02_answer_data w;
     user_records := user_records w |}.

Definition set_answer_data (l : list string) (w : World) : World :=
  {| running_tasks := running_tasks w; script := script w; has_flush := has_flush w;
     channel := channel w; t02_answer_data := l;
     user_records := user_records w |}.

Definition log_user_record (r : UserRecord) (w : World) : World :=
  {| running_tasks := running_tasks w; script := script w; has_flush := has_flush w;
     channel := channel w; t02_answer_data := t02_answer_data w;
     user_records := user_records w ++ [r] |}.

(** The frames that reached the client. *)
Definition frames_of (l : list ChanEntry) : list Frame :=
  omap (fun e => match e with Wrote f => Some f | _ => None end) l.
Definition frames (w : World) : list Frame := frames_of (channel w).

(** *** Task registry *)

Definition _is_task_cancelled (task_id : string) (w : World) : bool :=
  match running_tasks w !! task_id with
  | Some cancelled => cancelled
  | None => false
  end.

Definition cancel_task (task_id : string) (w : World) : World * bool :=
  match running_tasks w !! task_id with
  | Some _ => (set_running_tasks (insert task_id true) w, true)
  | None => (w, false)
  end.

Definition get_running_tasks (w : World) : list string :=
  (map_to_list (running_tasks w)).*1.

(** [running_tasks[task_id] = {"cancelled": False}] *)
Definition register_task (task_id : string) (w : World) : World :=
  set_running_tasks (insert task_id false) w.

(** [if task_id in self.running_tasks: del self.running_tasks[task_id]] *)
Definition retire_task (task_id : string) (w : World) : World :=
  match running_tasks w !! task_id with
  | Some _ => set_running_tasks (delete task_id) w
  | None => w
  end.

(** *** Computations: state and exceptions *)

Inductive Result (A : Type) :=
| Ret (a : A)
| Raise (e : Raised).
Arguments Ret {A} a.
Arguments Raise {A} e.

Definition M (A : Type) : Type := World -> World * Result A.

Definition ret {A} (a : A) : M A := fun w => (w, Ret a).
Definition raise {A} (e : Raised) : M A := fun w => (w, Raise e).
Definition bind {A B} (c : M A) (k : A -> M B) : M B :=
  fun w => match c w with
           | (w1, Ret a) => k a w1
           | (w1, Raise e) => (w1, Raise e)
           end.
Definition get {A} (f : World -> A) : M A := fun w => (w, Ret (f w)).
Definition modify (f : World -> World) : M unit := fun w => (f w, Ret tt).

Notation "'let!' x := c 'in' k" := (bind c (fun x => k))
  (at level 10, x name, c at level 100, k at level 200, only parsing).
Notation "'do!' c 'in' k" := (bind c (fun _ => k))
  (at level 10, c at level 100, k at level 200, only parsing).

(** [try: c  except Exception as e: h e] *)
Definition try_except {A} (c : M A) (h : string -> string -> M A) : M A :=
  fun w => match c w with
           | (w1, Raise (Exception ty msg)) => h ty msg w1
           | r => r
           end.

(** [try: c  except asyncio.CancelledError: hc  except Exception as e: h e] *)
Definition try_except2 {A} (c : M A) (hc : M A) (h : string -> string -> M A) : M A :=
  fun w => match c w with
           | (w1, Raise CancelledError) => hc w1
           | (w1, Raise (Exception ty msg)) => h ty msg w1
           | r => r
           end.

(** [try: c  finally: f] *)
Definition try_finally {A} (c : M A) (f : M unit) : M A :=
  fun w => match c w with
           | (w1, r) => match f w1 with
                        | (w2, Ret _) => (w2, r)
                        | (w2, Raise e) => (w2, Raise e)
                        end
           end.

(** *** The response object *)

Definition quiet : ChanEvent := {| io_result := IoOk; cancel_arrives := false |}.

(** Take the next scripted event; the cancel request, if one arrives, is
    served while the call is pending. *)
Definition await_channel (task_id : string) : M IoResult :=
  fun w =>
    let '(ev, w1) := match script w with
                     | [] => (quiet, w)
                     | ev :: rest => (ev, set_script rest w)
                     end in
    let w2 := if cancel_arrives ev then (cancel_task task_id w1).1 else w1 in
    (w2, Ret (io_result ev)).

(** [await response.write(frame)] *)
Definition response_write (task_id : string) (f : Frame) : M unit :=
  let! r := await_channel task_id in
  match r with
  | IoOk => modify (log_channel (Wrote f))
  | IoRaise e => do! modify (log_channel (WriteFailed f e)) in raise e
  end.

(** [await response.flush()] *)
Definition response_flush (task_id : string) : M unit :=
  let! r := await_channel task_id in
  match r with
  | IoOk => modify (log_channel Flushed)
  | IoRaise e => do! modify (log_channel (FlushFailed e)) in raise e
  end.

(** *** Error classification *)

Definition connection_error_types : list string :=
  ["ConnectionClosed"; "ConnectionResetError"; "BrokenPipeError"; "ConnectionError"; "OSError"].

Definition connection_error_keywords : list string :=
  ["connection closed"; "connection reset"; "broken pipe"; "client disconnected";
   "connection aborted"; "transport closed"].

Definition _is_connection_error (error_type msg : string) : bool :=
  let error_msg := lower msg in
  if existsb (String.eqb error_type) connection_error_types then true
  else existsb (fun keyword => contains keyword error_msg) connection_error_keywords.

Definition is_connection_failure (e : Raised) : bool :=
  match e with
  | Exception ty msg => _is_connection_error ty msg
  | CancelledError => false
  end.

Definition is_timeout (error_type msg : string) : bool :=
  let error_msg := lower msg in
  contains "timeout" error_msg || contains "timed out" error_msg
  || existsb (String.eqb error_type) ["TimeoutError"; "asyncio.TimeoutError"].

(** *** Writing *)

Definition _safe_write (task_id : string) (content message_type : string)
    (data_type : DataType) : M bool :=
  try_except
    (do! response_write task_id (_create_response content message_type data_type) in
     let! flush := get has_flush in
     do! (if flush : bool then response_flush task_id else ret tt) in
     ret true)
    (fun ty msg => if _is_connection_error ty msg then ret false
                   else raise (Exception ty msg)).

Definition cancel_notice (is_user_cancelled : bool) : string :=
  if is_user_cancelled then nl +:+ "> ⚠️ 任务已被用户取消"
  else nl +:+ "> ⚠️ 连接已断开，任务已中断".

Definition _handle_task_cancellation (task_id : string) (is_user_cancelled : bool) : M unit :=
  try_except
    (do! _safe_write task_id (cancel_notice is_user_cancelled) "info" ANSWER in
     do! _safe_write task_id EmptyString "end" STREAM_END in
     ret tt)
    (fun _ _ => ret tt).

(** *** Rendering *)

Definition _format_user_message (content : string) : string :=
  if negb (truthy content) || negb (truthy (strip content)) then content
  else "> 💬 **Question**" +:+ nl +:+ "> " +:+ nl +:+ "> " +:+ strip content +:+ nl +:+ nl.

Definition _format_agent_content (content : string) : string :=
  if negb (truthy content) || negb (truthy (strip content)) then content
  else "🤖 " +:+ strip content +:+ nl +:+ nl.

Definition _format_tool_call (name : string) (args : ToolCallReq) : option string :=
  if String.eqb name "sql_db_query" then
    let formatted_query := strip (default EmptyString (arg_query args)) in
    Some ("⚡ **Executing SQL**" +:+ nl +:+ "```sql" +:+ nl +:+ formatted_query +:+ nl +:+
          "```" +:+ nl +:+ nl)
  else if String.eqb name "sql_db_schema" then
    let table_names :=
      match arg_table_names args with
      | Some (NamesList l) => join ", " l
      | Some (NamesStr s) => s
      | None => EmptyString
      end in
    if truthy table_names
    then Some ("🔍 **Checking Schema:** `" +:+ table_names +:+ "`" +:+ nl +:+ nl)
    else Some ("🔍 **Checking Schema...**" +:+ nl +:+ nl)
  else if String.eqb name "sql_db_list_tables" then
    Some ("📋 **Listing Tables...**" +:+ nl +:+ nl)
  else if String.eqb name "sql_db_query_checker" then
    Some ("✅ **Validating Query...**" +:+ nl +:+ nl)
  else None.

Definition success_banner : string := "✓ Query executed successfully" +:+ nl +:+ nl.

Definition _format_tool_result (name content : string) : option string :=
  if contains "sql" (lower name) then
    if negb (contains "error" (lower content)) then Some success_banner
    else
      let error_content := strip (take 300 content) in
      Some ("✗ **Query failed:** " +:+ error_content +:+ nl +:+ nl)
  else None.

(** [task_id and self._is_task_cancelled(task_id)] *)
Definition cancelled_now (task_id : string) : M bool :=
  get (fun w => truthy task_id && _is_task_cancelled task_id w).

Definition append_answer (s : string) : M unit :=
  modify (fun w => set_answer_data (t02_answer_data w ++ [s]) w).

Definition option_truthy (o : option string) : bool :=
  match o with Some s => truthy s | None => false end.

(** The loop over [msg.tool_calls]; [false] is the [return False] of
    [_print_message], [true] means the loop ran to its end. *)
Fixpoint print_tool_calls (task_id : string) (tcs : list ToolCallReq) : M bool :=
  match tcs with
  | [] => ret true
  | tc :: rest =>
      let! c := cancelled_now task_id in
      if c : bool then ret false
      else
        let name := tc_name tc in
        let! c2 := (if contains "upload" (lower name) && contains "html" (lower name)
                    then cancelled_now task_id else ret false) in
        if c2 : bool then ret false
        else
          let tool_msg := _format_tool_call name tc in
          if option_truthy tool_msg then
            let! ok := _safe_write task_id (default EmptyString tool_msg) "info" ANSWER in
            if ok : bool
            then do! append_answer (default EmptyString tool_msg) in
                 print_tool_calls task_id rest
            else ret false
          else print_tool_calls task_id rest
  end.

Definition text_of (content : AIContent) : string :=
  match content with
  | ContentStr s => s
  | ContentList parts =>
      join nl (omap (fun p => match p with TextPart t => Some t | OtherPart => None end) parts)
  end.

Definition print_body (task_id : string) (msg : Message) : M bool :=
  match msg with
  | HumanMessage content =>
      if truthy content && truthy (strip content) then
        let formatted_user_msg := _format_user_message content in
        do! append_answer formatted_user_msg in
        let! ok := _safe_write task_id formatted_user_msg "continue" ANSWER in
        if ok : bool then ret true else ret false
      else ret true
  | AIMessage content tool_calls =>
      let content := text_of content in
      let! go :=
        (if truthy content && truthy (strip content) then
           let! c := cancelled_now task_id in
           if c : bool then ret false
           else
             let formatted_content := _format_agent_content content in
             do! append_answer formatted_content in
             _safe_write task_id formatted_content "continue" ANSWER
         else ret true) in
      if go : bool then print_tool_calls task_id tool_calls else ret false
  | ToolMessage name content =>
      let! c := cancelled_now task_id in
      if c : bool then ret false
      else
        let content_str := content in
        let tool_result_msg := _format_tool_result name content_str in
        if option_truthy tool_result_msg then
          let msg_type := if contains "error" (lower content_str) then "error" else "info" in
          let! ok := _safe_write task_id (default EmptyString tool_result_msg) msg_type ANSWER in
          if ok : bool
          then do! append_answer (default EmptyString tool_result_msg) in ret true
          else ret false
        else ret true
  | OtherMessage => ret true
  end.

Definition _print_message (task_id : string) (msg : Message) : M bool :=
  let! c := cancelled_now task_id in
  if c : bool then ret false
  else
    try_except (print_body task_id msg)
      (fun ty m => if _is_connection_error ty m then ret false
                   else raise (Exception ty m)).

(** *** The streaming loop *)

(** One step of [agent.astream]: a chunk, with or without a
    ["messages"] entry; a cancel request may arrive while it is awaited. *)
Record StreamEv := {
  chunk_cancel : bool;
  chunk_messages : option (list Message)
}.

(** How the stream ends once its chunks are consumed. *)
Inductive StreamEnd :=
| Exhausted (cancel : bool)
| Fails (cancel : bool) (e : Raised).

Record AgentStream := {
  chunks : list StreamEv;
  ending : StreamEnd
}.

(** The locals of [_stream_agent_response], and the calls of
    [_print_message] its loop has made, each with the transcript index
    of the message. *)
Record LoopState := {
  printed_count : nat;
  connection_closed : bool;
  print_log : list (nat * Message)
}.

Definition initial_state : LoopState :=
  {| printed_count := 0; connection_closed := false; print_log := [] |}.

Inductive BatchExit := BatchDone | BatchClosed | BatchReturn.
Inductive LoopExit := LoopExhausted | LoopBroke | LoopReturned.

Definition arrive (task_id : string) (cancel : bool) (w : World) : World :=
  if cancel then (cancel_task task_id w).1 else w.

(** [for msg in messages[printed_count:]] *)
Fixpoint render_batch (task_id : string) (idx : nat) (msgs : list Message)
    (log : list (nat * Message)) (w : World)
    : World * list (nat * Message) * Result BatchExit :=
  match msgs with
  | [] => (w, log, Ret BatchDone)
  | msg :: rest =>
      if _is_task_cancelled task_id w then
        match _handle_task_cancellation task_id true w with
        | (w1, Ret _) => (w1, log, Ret BatchReturn)
        | (w1, Raise e) => (w1, log, Raise e)
        end
      else
        match _print_message task_id msg w with
        | (w1, Ret true) => render_batch task_id (S idx) rest (log ++ [(idx, msg)]) w1
        | (w1, Ret false) => (w1, log ++ [(idx, msg)], Ret BatchClosed)
        | (w1, Raise e) => (w1, log ++ [(idx, msg)], Raise e)
        end
  end.

(** The body of [async for chunk in agent.astream(...)] for one chunk
    that has arrived: [None] means the loop goes on. *)
Definition stream_body (task_id : string) (st : LoopState) (messages : option (list Message))
    (w : World) : World * LoopState * Result (option LoopExit) :=
  if _is_task_cancelled task_id w then
    match _handle_task_cancellation task_id true w with
    | (w1, Ret _) => (w1, st, Ret (Some LoopReturned))
    | (w1, Raise e) => (w1, st, Raise e)
    end
  else
    match messages with
    | None => (w, st, Ret None)
    | Some messages =>
        if Nat.ltb (printed_count st) (length messages) then
          match render_batch task_id (printed_count st) (drop (printed_count st) messages)
                             (print_log st) w with
          | (w1, log, Raise e) =>
              (w1, {| printed_count := printed_count st;
                      connection_closed := connection_closed st; print_log := log |}, Raise e)
          | (w1, log, Ret BatchReturn) =>
              (w1, {| printed_count := printed_count st;
                      connection_closed := connection_closed st; print_log := log |},
               Ret (Some LoopReturned))
          | (w1, log, Ret BatchClosed) =>
              (w1, {| printed_count := length messages;
                      connection_closed := true; print_log := log |},
               Ret (Some LoopBroke))
          | (w1, log, Ret BatchDone) =>
              let st1 := {| printed_count := length messages;
                            connection_closed := connection_closed st; print_log := log |} in
              if has_flush w1 then
                match response_flush task_id w1 with
                | (w2, Ret _) => (w2, st1, Ret None)
                | (w2, Raise (Exception ty m)) =>
                    if _is_connection_error ty m
                    then (w2, {| printed_count := length messages;
                                 connection_closed := true; print_log := log |},
                          Ret (Some LoopBroke))
                    else (w2, st1, Raise (Exception ty m))
                | (w2, Raise CancelledError) => (w2, st1, Raise CancelledError)
                end
              else (w1, st1, Ret None)
          end
        else (w, st, Ret None)
    end.

Fixpoint stream_loop (task_id : string) (st : LoopState) (evs : list StreamEv)
    (fin : StreamEnd) (w : World) : World * LoopState * Result LoopExit :=
  match evs with
  | [] =>
      match fin with
      | Exhausted cancel => (arrive task_id cancel w, st, Ret LoopExhausted)
      | Fails cancel e => (arrive task_id cancel w, st, Raise e)
      end
  | ev :: rest =>
      match stream_body task_id st (chunk_messages ev) (arrive task_id (chunk_cancel ev) w) with
      | (w1, st1, Ret None) => stream_loop task_id st1 rest fin w1
      | (w1, st1, Ret (Some exit)) => (w1, st1, Ret exit)
      | (w1, st1, Raise e) => (w1, st1, Raise e)
      end
  end.

(** *** [_stream_agent_response] and [run_agent] *)

Definition timeout_msg : string :=
  nl +:+ "> ⚠️ **LLM 调用超时**" +:+ nl +:+ nl +:+
  "请求处理时间过长，可能的原因：" +:+ nl +:+
  "- 数据量较大，查询执行时间较长" +:+ nl +:+
  "- 网络连接不稳定" +:+ nl +:+
  "- 模型响应较慢" +:+ nl +:+ nl +:+
  "建议：" +:+ nl +:+
  "- 尝试简化查询条件" +:+ nl +:+
  "- 检查网络连接" +:+ nl +:+
  "- 稍后重试".

Definition failure_msg (error_type msg : string) : string :=
  nl +:+ "> ❌ **处理异常**" +:+ nl +:+ nl +:+
  "错误类型: " +:+ error_type +:+ nl +:+
  "错误信息: " +:+ take 200 msg +:+ nl +:+ nl +:+
  "请稍后重试，如问题持续存在请联系管理员。".

(** The text shown for a runtime failure of the stream. *)
Definition stream_error_text (error_type msg : string) : string :=
  if is_timeout error_type msg then timeout_msg else failure_msg error_type msg.

(** Both branches of the handler write the text as an [error] frame and
    then the [end] frame, inside one [try] whose [except] only logs. *)
Definition report_stream_failure (task_id error_type msg : string) : M unit :=
  try_except
    (do! _safe_write task_id (stream_error_text error_type msg) "error" ANSWER in
     do! _safe_write task_id EmptyString "end" STREAM_END in
     ret tt)
    (fun _ _ => ret tt).

(** What does not change during a run. *)
Record Request := {
  task_id : string;
  query : string;
  session_id : option string;
  uuid_str : string;
  datasource_id : option Z
}.

(** Modelled from the spec: [add_user_record] ([services.user_service])
    is not among the sources; it stores the record of the exchange. *)
Definition add_user_record (rq : Request) (w : World) : World :=
  log_user_record
    {| rec_uuid := uuid_str rq; rec_session_id := session_id rq; rec_query := query rq;
       rec_answer := t02_answer_data w; rec_datasource_id := datasource_id rq |} w.

(** The [finally] block of [_stream_agent_response]. *)
Definition save_record (rq : Request) (w : World) : World :=
  if _is_task_cancelled (task_id rq) w then w else add_user_record rq w.

Definition close_connection (st : LoopState) : LoopState :=
  {| printed_count := printed_count st; connection_closed := true;
     print_log := print_log st |}.

Definition _stream_agent_response (rq : Request) (stream : AgentStream) (w : World)
    : World * LoopState * Result unit :=
  let tid := task_id rq in
  let '(w2, st2, r2) :=
    match stream_loop tid initial_state (chunks stream) (ending stream) w with
    | (w1, st, Ret _) => (w1, st, Ret tt)
    | (w1, st, Raise CancelledError) =>
        let is_user_cancelled := _is_task_cancelled tid w1 in
        match try_except (_handle_task_cancellation tid is_user_cancelled)
                         (fun _ _ => ret tt) w1 with
        | (w2, Ret _) => (w2, st, Raise CancelledError)
        | (w2, Raise e) => (w2, st, Raise e)
        end
    | (w1, st, Raise (Exception ty msg)) =>
        if _is_connection_error ty msg then (w1, close_connection st, Ret tt)
        else
          match report_stream_failure tid ty msg w1 with
          | (w2, r) => (w2, st, r)
          end
    end in
  (save_record rq w2, st2, r2).

(** [_create_sql_deep_agent]: it raises, or yields the agent, of which
    the run only uses the stream. *)
Inductive Setup :=
| SetupFails (error_type msg : string)
| SetupOk (stream : AgentStream).

Definition setup_error_text (msg : string) : string :=
  "❌ **错误**: 智能体运行异常" +:+ nl +:+ nl +:+ "```" +:+ nl +:+ msg +:+ nl +:+ "```" +:+ nl.

Definition missing_datasource_text : string :=
  "❌ **错误**: 必须提供数据源ID (datasource_id)".

Definition truthy_id (o : option Z) : bool :=
  match o with Some z => negb (Z.eqb z 0) | None => false end.

(** [run_agent], from the point where [decode_jwt_token] has returned the
    user whose id is the task id.  With tracing enabled the source makes
    the same call of [_stream_agent_response] inside the trace context. *)
Definition run_agent (rq : Request) (setup : Setup) (w : World) : World * Result unit :=
  let tid := task_id rq in
  if negb (truthy_id (datasource_id rq)) then
    response_write tid (_create_response missing_datasource_text "error" ANSWER) w
  else
    try_finally
      (try_except2
         (do! modify (fun w => set_answer_data [] w) in
          match setup with
          | SetupFails ty msg => raise (Exception ty msg)
          | SetupOk stream =>
              fun w => let '(w1, _, r) := _stream_agent_response rq stream w in (w1, r)
          end)
         (let! is_user_cancelled := get (_is_task_cancelled tid) in
          try_except (_handle_task_cancellation tid is_user_cancelled)
                     (fun _ _ => ret tt))
         (fun ty msg =>
            if _is_connection_error ty msg then ret tt
            else try_except
                   (do! _safe_write tid (setup_error_text msg) "error" ANSWER in ret tt)
                   (fun _ _ => ret tt)))
      (modify (retire_task tid))
      (register_task tid w).

End DeepAgent.

(** ** Notions used in the statements *)

Module Statements.

Import PyStr NativeSqlTools.

(** The condition under which [sql_db_query] must not reach the
    database: the stripped, uppercased text does not start with SELECT,
    or one of the forbidden keywords occurs somewhere in it. *)
Definition not_a_clean_select (query : string) : bool :=
  let query_upper := upper (strip query) in
  negb (startswith query_upper "SELECT")
  || existsb (fun keyword => contains keyword query_upper) forbidden_keywords.

Definition is_error_text (s : string) : bool := startswith s "错误: ".

(** [sql_db_query] finds all three pieces of data-source information. *)
Definition configured (w : World) : bool :=
  truthy_int (datasource_id (_current_datasource w))
  && truthy_str (datasource_type (_current_datasource w))
  && truthy_str (datasource_config (_current_datasource w)).

Definition tool_of (c : ToolCall) : string :=
  match c with
  | CallListTables => "sql_db_list_tables"
  | CallSchema _ => "sql_db_schema"
  | CallQuery _ => "sql_db_query"
  | CallQueryChecker _ => "sql_db_query_checker"
  end.

(** The query text a tool hands to the governor: only [sql_db_query]
    passes one. *)
Definition query_of (c : ToolCall) : option string :=
  match c with
  | CallQuery q => Some q
  | _ => None
  end.

(** The record an executed query leaves in the ledger. *)
Definition query_record (now : nat) (q : string) (ok : bool) : ToolCallManager.CallRecord :=
  {| ToolCallManager.tool_name := "sql_db_query";
     ToolCallManager.query_fingerprint := Some (ToolCallManager.fingerprint q);
     ToolCallManager.success := ok; ToolCallManager.timestamp := now |}.

(** The invocation gets as far as asking the governor. *)
Definition reaches_governor (w : World) (c : ToolCall) : bool :=
  match c with
  | CallListTables | CallSchema _ => truthy_int (datasource_id (_current_datasource w))
  | CallQuery q => configured w && negb (not_a_clean_select q)
  | CallQueryChecker _ => true
  end.

(** The decision the governor takes for the invocation. *)
Definition governor_allows (w : World) (now : nat) (c : ToolCall) : bool :=
  (ToolCallManager.check_before_call (manager w) now (_get_session_id w)
     (tool_of c) (query_of c)).2.1.

(** Consecutive [sql_db_query] invocations, each at its own time. *)
Fixpoint issue_queries (exec : string -> string -> string -> Outcome (list Row))
    (fmt : list Row -> string) (hse : string -> string -> option string)
    (w : World) (calls : list (nat * string)) : World * list string :=
  match calls with
  | [] => (w, [])
  | (now, q) :: rest =>
      let '(w1, r) := sql_db_query exec fmt hse w now q in
      let '(w2, rs) := issue_queries exec fmt hse w1 rest in
      (w2, r :: rs)
  end.

(** Collaborators and a world for concrete runs: a data source whose
    queries return no rows, and a manager with repeat threshold 2. *)
Definition demo_metadata : Z -> Outcome TableInfo := fun _ => Returns [].
Definition demo_execute : string -> string -> string -> Outcome (list Row) :=
  fun _ _ _ => Returns [].
Definition demo_format : list Row -> string := fun _ => "rows".
Definition demo_starrocks : string -> string -> option string := fun _ _ => None.

Definition demo_world : World :=
  {| _current_datasource :=
       {| datasource_id := Some 7%Z; datasource_type := Some "doris";
          datasource_config := Some "cfg"; session_id := Some "datasource_7" |};
     manager := {| ToolCallManager.config :=
                     {| ToolCallManager.repeat_threshold := 2;
                        ToolCallManager.flood_window := 60;
                        ToolCallManager.flood_ceiling := 100 |};
                   ToolCallManager.sessions := ∅ |};
     executed := [] |}.

Definition demo_invoke : World -> nat -> ToolCall -> World * string :=
  invoke demo_metadata demo_execute demo_format demo_starrocks.

End Statements.

Module Delivery.

Import PyStr DeepAgent.

(** The channel accepts every awaited write and flush still to come. *)
Definition channel_accepts (w : World) : Prop :=
  Forall (fun ev => io_result ev = IoOk) (script w).

(** What a channel entry failed with, if it failed. *)
Definition entry_failure (x : ChanEntry) : option Raised :=
  match x with
  | WriteFailed _ e | FlushFailed e => Some e
  | Wrote _ | Flushed => None
  end.

(** The entry is a write or flush that failed with a connection error. *)
Definition transport_failure (x : ChanEntry) : bool :=
  match entry_failure x with
  | Some e => is_connection_failure e
  | None => false
  end.

(** The message types that rendering a transcript message uses. *)
Definition render_type (f : Frame) : bool :=
  String.eqb (messageType f) "continue" || String.eqb (messageType f) "info"
  || String.eqb (messageType f) "error".

Definition end_frame : Frame := _create_response EmptyString "end" STREAM_END.
Definition notice_frame (is_user_cancelled : bool) : Frame :=
  _create_response (cancel_notice is_user_cancelled) "info" ANSWER.
Definition error_frame (error_type msg : string) : Frame :=
  _create_response (stream_error_text error_type msg) "error" ANSWER.

(** The transcript snapshots a stream delivers, in order. *)
Definition snapshots (evs : list StreamEv) : list (list Message) :=
  omap chunk_messages evs.

(** The last, hence longest, snapshot of a growing transcript. *)
Definition final_transcript (evs : list StreamEv) : list Message :=
  default [] (last (snapshots evs)).

(** The record [add_user_record] stores for a request in a world. *)
Definition exchange_record (rq : Request) (w : World) : UserRecord :=
  {| rec_uuid := uuid_str rq; rec_session_id := session_id rq; rec_query := query rq;
     rec_answer := t02_answer_data w; rec_datasource_id := datasource_id rq |}.

(** The world in which [_stream_agent_response] starts inside
    [run_agent]. *)
Definition started (rq : Request) (w : World) : World :=
  set_answer_data [] (register_task (task_id rq) w).

(** [w'] continues [w]: the channel history grew by [L], nothing else the
    statements look at was disturbed. *)
Definition extends (tid : string) (w w' : World) (L : list ChanEntry) : Prop :=
  channel w' = channel w ++ L
  /\ user_records w' = user_records w
  /\ has_flush w' = has_flush w
  /\ (_is_task_cancelled tid w = true -> _is_task_cancelled tid w' = true)
  /\ (exists k, script w' = drop k (script w))
  /\ (channel_accepts w -> Forall (fun x => entry_failure x = None) L).

(** No entry of the history is a transport failure. *)
Definition clean (L : list ChanEntry) : Prop :=
  Forall (fun y => transport_failure y = false) L.

(** Every frame written in the history satisfies [P]. *)
Definition writes_only (P : Frame -> Prop) (L : list ChanEntry) : Prop :=
  Forall (fun x => match x with Wrote g => P g | _ => True end) L.

(** How a rendering step may end: without any transport failure, or with
    [False] right after the first one. *)
Definition shape {A} (stop : A) (r : Result A) (L : list ChanEntry) : Prop :=
  clean L \/ (r = Ret stop /\ exists L0 x, L = L0 ++ [x] /\ clean L0 /\ transport_failure x = true).

(** A rendering computation: it only extends the world, writes frames of
    the rendering types only, stops with [False] at the first transport
    failure, and returns a flag whenever the channel accepts its writes. *)
Definition renders (tid : string) (c : M bool) : Prop :=
  forall w, exists w' r L,
    c w = (w', r)
    /\ extends tid w w' L
    /\ writes_only (fun g => render_type g = true) L
    /\ shape false r L
    /\ (channel_accepts w -> exists b, r = Ret b).

(** The frames the loop writes when it serves a cancel request. *)
Definition batch_tail (r : Result BatchExit) : list Frame :=
  match r with
  | Ret BatchReturn => [notice_frame true; end_frame]
  | _ => []
  end.

Definition body_tail (r : Result (option LoopExit)) : list Frame :=
  match r with
  | Ret (Some LoopReturned) => [notice_frame true; end_frame]
  | _ => []
  end.

Definition loop_tail (r : Result LoopExit) : list Frame :=
  match r with
  | Ret LoopReturned => [notice_frame true; end_frame]
  | _ => []
  end.

(** The log is the numbered transcript read so far. *)
Definition log_of (S : list Message) (st : LoopState) : Prop :=
  printed_count st = length S /\ print_log st = zip (seq 0 (length S)) S.

(** What the handlers of [_stream_agent_response] write after the loop. *)
Definition handler_frames (tid : string) (r : Result LoopExit) (w : World) : list Frame :=
  match r with
  | Ret _ => []
  | Raise CancelledError => [notice_frame (_is_task_cancelled tid w); end_frame]
  | Raise (Exception ty msg) =>
      if _is_connection_error ty msg then [] else [error_frame ty msg; end_frame]
  end.

(** The frames that close the stream, by the way the loop ended, in the
    world the loop left. *)
Definition terminal_frames (tid : string) (r : Result LoopExit) (w : World) : list Frame :=
  loop_tail r ++ handler_frames tid r w.

(** A quiet world with an empty registry, a request and a transcript for
    concrete runs. *)
Definition demo_world : World :=
  {| running_tasks := ∅; script := []; has_flush := false; channel := [];
     t02_answer_data := []; user_records := [] |}.

Definition demo_request : Request :=
  {| task_id := "u1"; query := "list customers"; session_id := Some "s1";
     uuid_str := "q-1"; datasource_id := Some 7%Z |}.

Definition demo_human : Message := HumanMessage "list customers".
Definition demo_agent : Message :=
  AIMessage (ContentStr "checking schema")
    [{| tc_name := "sql_db_schema"; arg_query := None;
        arg_table_names := Some (NamesStr "customers") |}].
Definition demo_tool : Message := ToolMessage "sql_db_schema" "table customers: id,name".
Definition demo_done : Message := AIMessage (ContentStr "done") [].

Definition chunk (messages : list Message) : StreamEv :=
  {| chunk_cancel := false; chunk_messages := Some messages |}.

Definition demo_stream : AgentStream :=
  {| chunks := [chunk [demo_human]; chunk [demo_human; demo_agent];
                chunk [demo_human; demo_agent; demo_tool];
                chunk [demo_human; demo_agent; demo_tool; demo_done]];
     ending := Exhausted false |}.

(** The run has registered the demonstration task. *)
Definition demo_started : World := started demo_request demo_world.


Definition broken_pipe : Raised := Exception "BrokenPipeError" "[Errno 32] Broken pipe".
Definition dead_event : ChanEvent := {| io_result := IoRaise broken_pipe; cancel_arrives := false |}.

(** The client is gone: the next two awaited calls on the response fail. *)
Definition dead_world : World := set_script [dead_event; dead_event] demo_started.


End Delivery.

(** ** Further notions about delivery *)

Module Further.

Import PyStr DeepAgent Delivery.

(** The tool names for which [_format_tool_call] has a template. *)
Definition known_tools : list string :=
  ["sql_db_query"; "sql_db_schema"; "sql_db_list_tables"; "sql_db_query_checker"].

(** A message that has nothing to show: blank text, tool calls without a
    template, a result of a tool without "sql" in its name, or a message
    of a kind that [_print_message] does not handle. *)
Definition nothing_to_show (msg : Message) : Prop :=
  match msg with
  | HumanMessage content => strip content = EmptyString
  | AIMessage content tool_calls =>
      strip (text_of content) = EmptyString
      /\ Forall (fun tc => tc_name tc ∉ known_tools) tool_calls
  | ToolMessage name _ => contains "sql" (lower name) = false
  | OtherMessage => True
  end.

(** On a channel that accepts its writes, the computation returns a flag
    and appends to the answer data exactly the texts of the frames it
    wrote, in the same order. *)
Definition records_what_it_shows (tid : string) (c : M bool) : Prop :=
  forall w, channel_accepts w ->
    exists w' b L,
      c w = (w', Ret b)
      /\ extends tid w w' L
      /\ t02_answer_data w' = t02_answer_data w ++ map content (frames_of L).

(** The registry entries of the other tasks are the same in both worlds. *)
Definition others_kept (tid : string) (w w' : World) : Prop :=
  forall k, k <> tid -> running_tasks w' !! k = running_tasks w !! k.

(** A computation leaves the registry entries of the other tasks alone,
    whatever its outcome. *)
Definition isolated {A} (tid : string) (c : M A) : Prop :=
  forall w, others_kept tid w (c w).1.

End Further.

(** ** Python dictionaries with string keys, in insertion order *)

Module PyDict.

(** [d[k] = v]: an existing key keeps its place and gets the new value. *)
Fixpoint dict_set {V} (k : string) (v : V) (d : list (string * V)) : list (string * V) :=
  match d with
  | [] => [(k, v)]
  | (k', v') :: rest =>
      if String.eqb k' k then (k, v) :: rest else (k', v') :: dict_set k v rest
  end.

(** [d.get(k)] *)
Definition dict_get {V} (k : string) (d : list (string * V)) : option V :=
  match List.find (fun e => String.eqb e.1 k) d with
  | Some e => Some e.2
  | None => None
  end.

(** [k in d] *)
Definition key_in {V} (k : string) (d : list (string * V)) : bool :=
  existsb (fun e => String.eqb e.1 k) d.

(** [d.update(other)] *)
Definition dict_update {V} (d other : list (string * V)) : list (string * V) :=
  fold_left (fun acc e => dict_set e.1 e.2 acc) other d.

End PyDict.

(** ** [_get_table_info_from_metadata]: the tables shown to the agent *)

Module TableMetadata.

Import PyStr PyDict NativeSqlTools.

(** The columns of [DatasourceTable] and [DatasourceField] that the
    function reads. *)
Record DatasourceTable := {
  t_id : Z;
  t_ds_id : Z;
  t_checked : bool;
  t_table_name : string;
  t_custom_comment : option string;
  t_table_comment : option string
}.

Record DatasourceField := {
  f_ds_id : Z;
  f_table_id : Z;
  f_checked : bool;
  f_field_name : string;
  f_field_type : option string;
  f_custom_comment : option string;
  f_field_comment : option string
}.

(** What the metadata database does when the function runs:
    [get_db_pool()] raises, something inside the [try] block raises
    before any table is built, or the two queries are answered from
    these rows. *)
Inductive MetaStore :=
| PoolUnavailable (msg : string)
| SessionFails
| Serving (tables : list DatasourceTable) (fields : list DatasourceField).

(** [a or b] for an optional string [a] *)
Definition or_str (a : option string) (b : string) : string :=
  if truthy_str a then default EmptyString a else b.

(** [if k not in d: d[k] = []] followed by [d[k].append(f)] *)
Fixpoint group_append (k : Z) (f : DatasourceField) (d : list (Z * list DatasourceField))
    : list (Z * list DatasourceField) :=
  match d with
  | [] => [(k, [f])]
  | (k', l) :: rest =>
      if Z.eqb k' k then (k', l ++ [f]) :: rest else (k', l) :: group_append k f rest
  end.

Definition fields_by_table (fields : list DatasourceField) : list (Z * list DatasourceField) :=
  fold_left (fun d field => group_append (f_table_id field) field d) fields [].

(** [fields_by_table.get(table.id, [])] *)
Definition group_get (d : list (Z * list DatasourceField)) (k : Z) : list DatasourceField :=
  match List.find (fun e => Z.eqb e.1 k) d with
  | Some e => e.2
  | None => []
  end.

Definition column_of (field : DatasourceField) : string * ColumnMeta :=
  (f_field_name field,
   {| col_type := or_str (f_field_type field) EmptyString;
      col_comment := or_str (f_custom_comment field)
                       (or_str (f_field_comment field) EmptyString) |}).

Definition columns_of (table_fields : list DatasourceField) : list (string * ColumnMeta) :=
  fold_left (fun columns field => dict_set (column_of field).1 (column_of field).2 columns)
    table_fields [].

(** One round of [for table in tables]. *)
Definition add_table (groups : list (Z * list DatasourceField)) (table_info : TableInfo)
    (table : DatasourceTable) : TableInfo :=
  match group_get groups (t_id table) with
  | [] => table_info
  | table_fields =>
      dict_set (t_table_name table)
        {| columns := columns_of table_fields;
           table_comment := or_str (t_custom_comment table)
                              (or_str (t_table_comment table) EmptyString) |}
        table_info
  end.

(** The two queries. *)
Definition checked_tables (datasource_id : Z) (all_tables : list DatasourceTable)
    : list DatasourceTable :=
  List.filter (fun t => Z.eqb (t_ds_id t) datasource_id && t_checked t) all_tables.

Definition checked_fields (datasource_id : Z) (table_ids : list Z)
    (all_fields : list DatasourceField) : list DatasourceField :=
  List.filter (fun f => Z.eqb (f_ds_id f) datasource_id
                        && existsb (Z.eqb (f_table_id f)) table_ids && f_checked f)
    all_fields.

(** [_get_table_info_from_metadata()] for the data source id that
    [_get_datasource_info()] returns (0 when there is none). *)
Definition _get_table_info_from_metadata (store : MetaStore) (datasource_id : Z)
    : Outcome TableInfo :=
  if Z.eqb datasource_id 0 then Returns []
  else
    match store with
    | PoolUnavailable msg => Raises msg
    | SessionFails => Returns []
    | Serving all_tables all_fields =>
        let tables := checked_tables datasource_id all_tables in
        let table_ids := map t_id tables in
        let fields := checked_fields datasource_id table_ids all_fields in
        Returns (fold_left (add_table (fields_by_table fields)) tables [])
    end.

(** A checked field of the data source that belongs to the table. *)
Definition field_shown (datasource_id : Z) (table : DatasourceTable)
    (field : DatasourceField) : Prop :=
  f_ds_id field = datasource_id /\ f_table_id field = t_id table /\ f_checked field = true.

(** A checked table of the data source with that name and at least one
    checked field. *)
Definition table_shown (datasource_id : Z) (all_tables : list DatasourceTable)
    (all_fields : list DatasourceField) (name : string) (table : DatasourceTable) : Prop :=
  table ∈ all_tables /\ t_ds_id table = datasource_id /\ t_checked table = true
  /\ t_table_name table = name
  /\ exists field, field ∈ all_fields /\ field_shown datasource_id table field.

(** A small metadata database: data source 7 has a checked table with a
    checked and an unchecked field, an unchecked table, and a checked
    table without checked fields; data source 8 has one table. *)
Definition demo_tables : list DatasourceTable :=
  [ {| t_id := 1; t_ds_id := 7; t_checked := true; t_table_name := "orders";
       t_custom_comment := None; t_table_comment := Some "customer orders" |};
    {| t_id := 2; t_ds_id := 7; t_checked := false; t_table_name := "salaries";
       t_custom_comment := None; t_table_comment := None |};
    {| t_id := 3; t_ds_id := 7; t_checked := true; t_table_name := "audit_log";
       t_custom_comment := None; t_table_comment := None |};
    {| t_id := 4; t_ds_id := 8; t_checked := true; t_table_name := "users";
       t_custom_comment := None; t_table_comment := None |} ].

Definition demo_fields : list DatasourceField :=
  [ {| f_ds_id := 7; f_table_id := 1; f_checked := true; f_field_name := "id";
       f_field_type := Some "bigint"; f_custom_comment := None; f_field_comment := None |};
    {| f_ds_id := 7; f_table_id := 1; f_checked := false; f_field_name := "card_number";
       f_field_type := Some "varchar"; f_custom_comment := None; f_field_comment := None |};
    {| f_ds_id := 7; f_table_id := 2; f_checked := true; f_field_name := "amount";
       f_field_type := Some "decimal"; f_custom_comment := None; f_field_comment := None |};
    {| f_ds_id := 7; f_table_id := 3; f_checked := false; f_field_name := "entry";
       f_field_type := None; f_custom_comment := None; f_field_comment := None |};
    {| f_ds_id := 8; f_table_id := 4; f_checked := true; f_field_name := "name";
       f_field_type := Some "varchar"; f_custom_comment := None; f_field_comment := None |} ].

End TableMetadata.

(** ** The result table of [sql_db_query] (lines 308-344) *)

Module ResultTable.

Import PyStr NativeSqlTools.

(** [row.get(col)] with the empty string as default, the value already
    rendered by [str] *)
Definition row_get (row : Row) (col : string) : string :=
  match List.find (fun e => String.eqb e.1 col) row with
  | Some e => e.2
  | None => EmptyString
  end.

(** [c * n] for a one-character string *)
Definition times (c : ascii) (n : nat) : string := string_of_list_ascii (repeat c n).

(** [s.ljust(width)] *)
Definition ljust (width : nat) (s : string) : string :=
  s +:+ times " " (width - String.length s).

(** the first 50 characters of the value *)
Definition cell (row : Row) (col : string) : string := take 50 (row_get row col).

(** [max] of a sequence of lengths *)
Definition max_of (l : list nat) : nat := fold_right Nat.max 0 l.

(** [col_widths[col]] *)
Definition col_width (result_rows : list Row) (col : string) : nat :=
  Nat.min (Nat.max (String.length col)
             (max_of (map (fun row => String.length (cell row col)) result_rows)))
          50.

Definition header_line (result_rows : list Row) (columns : list string) : string :=
  join " | " (map (fun col => ljust (col_width result_rows col) col) columns).

Definition separator (header : string) : string :=
  times "-" (Nat.min (String.length header) 200).

Definition row_line (result_rows : list Row) (columns : list string) (row : Row) : string :=
  join " | " (map (fun col => ljust (col_width result_rows col) (cell row col)) columns).

Definition closing_line : string :=
  "✅ 查询已完成。请基于以上结果进行分析，无需重复执行相同查询。".

(** The text returned for a result that is not empty. *)
Definition format_rows (result_data : list Row) : string :=
  let max_rows := 50 in
  let result_rows := firstn max_rows result_data in
  let result_str :=
    if Nat.ltb max_rows (length result_data)
    then "✅ 查询成功，返回 " +:+ pretty (length result_data) +:+ " 行数据（显示前 " +:+
         pretty max_rows +:+ " 行）:" +:+ nl +:+ nl
    else "✅ 查询成功，返回 " +:+ pretty (length result_data) +:+ " 行数据:" +:+ nl +:+ nl in
  let table :=
    match result_rows with
    | [] => EmptyString
    | first :: _ =>
        let columns := map fst first in
        let header := header_line result_rows columns in
        header +:+ nl +:+ separator header +:+ nl +:+
        String.concat EmptyString
          (map (fun row => row_line result_rows columns row +:+ nl) result_rows)
    end in
  result_str +:+ table +:+ nl +:+ closing_line.



End ResultTable.

(** ** The Excel agent: column types and names ([excel_mapping_node.py]) *)

Module ExcelNames.

Import PyStr.

Definition dtype_mapping : list (string * string) :=
  [("object", "VARCHAR(255)"); ("int64", "BIGINT"); ("int32", "INTEGER");
   ("float64", "FLOAT"); ("float32", "FLOAT"); ("bool", "BOOLEAN");
   ("datetime64[ns]", "DATETIME"); ("timedelta64[ns]", "VARCHAR(50)")].

(** [dtype_mapping.get(dtype, fallback)] *)
Definition mapping_get (dtype fallback : string) : string :=
  match List.find (fun e => String.eqb e.1 dtype) dtype_mapping with
  | Some e => e.2
  | None => fallback
  end.

Definition map_pandas_dtype_to_sql (dtype : string) : string :=
  if startswith dtype "object" then "VARCHAR(255)"
  else if startswith dtype "int" then mapping_get dtype "BIGINT"
  else if startswith dtype "float" then mapping_get dtype "FLOAT"
  else if startswith dtype "datetime" then "DATETIME"
  else "VARCHAR(255)".

(** The SQL types [map_pandas_dtype_to_sql] can answer with. *)
Definition sql_types : list string :=
  ["VARCHAR(255)"; "BIGINT"; "INTEGER"; "FLOAT"; "DATETIME"].

Definition in_range (lo hi : nat) (c : ascii) : bool :=
  Nat.leb lo (nat_of_ascii c) && Nat.leb (nat_of_ascii c) hi.

Definition ascii_digit (c : ascii) : bool := in_range 48 57 c.

Definition ascii_word (c : ascii) : bool :=
  ascii_digit c || in_range 65 90 c || in_range 97 122 c || Ascii.eqb c "_".

(** [s.replace(old, new)] for one-character strings *)
Definition replace_char (old new : ascii) (s : string) : string :=
  map_chars (fun c => if Ascii.eqb c old then new else c) s.

(** [s.lstrip('_')], [s.rstrip('_')], [s.strip('_')] *)
Fixpoint lstrip_underscore (s : string) : string :=
  match s with
  | String c r => if Ascii.eqb c "_" then lstrip_underscore r else s
  | EmptyString => EmptyString
  end.

Fixpoint rstrip_underscore (s : string) : string :=
  match s with
  | EmptyString => EmptyString
  | String c r =>
      match rstrip_underscore r with
      | EmptyString => if Ascii.eqb c "_" then EmptyString else String c EmptyString
      | r' => String c r'
      end
  end.

Definition strip_underscore (s : string) : string :=
  rstrip_underscore (lstrip_underscore s).

(** Every character of the string satisfies the test. *)
Fixpoint all_chars (p : ascii -> bool) (s : string) : bool :=
  match s with
  | EmptyString => true
  | String c r => p c && all_chars p r
  end.

(** The character occurs in the string. *)
Fixpoint has_char (c : ascii) (s : string) : bool :=
  match s with
  | EmptyString => false
  | String d r => Ascii.eqb d c || has_char c r
  end.

Definition first_char (p : ascii -> bool) (s : string) : bool :=
  match s with
  | String c _ => p c
  | EmptyString => false
  end.

Fixpoint last_char (p : ascii -> bool) (s : string) : bool :=
  match s with
  | EmptyString => false
  | String c EmptyString => p c
  | String _ r => last_char p r
  end.

Section Characters.

(** For a character beyond ASCII: whether the class [\w一-龥] of
    the patterns contains it, and what [str.isdigit] says of it. *)
Variable word_beyond_ascii : ascii -> bool.
Variable digit_beyond_ascii : ascii -> bool.

(** [os.path.splitext(p)[0]] *)
Variable splitext_root : string -> string.

Definition is_word (c : ascii) : bool :=
  if Nat.ltb (nat_of_ascii c) 128 then ascii_word c else word_beyond_ascii c.

(** [c.isdigit()] *)
Definition isdigit (c : ascii) : bool :=
  if Nat.ltb (nat_of_ascii c) 128 then ascii_digit c else digit_beyond_ascii c.

(** [re.sub(r'[^\w一-龥]', '_', s)] *)
Definition replace_illegal (s : string) : string :=
  map_chars (fun c => if is_word c then c else "_"%char) s.

Definition sanitize_catalog_name (file_name : string) : string :=
  let name_without_ext := splitext_root file_name in
  let catalog_name := replace_illegal name_without_ext in
  let catalog_name := strip_underscore catalog_name in
  let catalog_name :=
    if truthy catalog_name && first_char isdigit catalog_name
    then "catalog_" +:+ catalog_name else catalog_name in
  if truthy catalog_name then catalog_name else "unknown_catalog".

Definition sanitize_table_or_column_name (origin_name : string) (is_column_name : bool)
    : string :=
  let legal_name := replace_illegal origin_name in
  let legal_name := strip_underscore legal_name in
  let legal_name :=
    if truthy legal_name && first_char isdigit legal_name
    then (if is_column_name then "column" else "table") +:+ "_" +:+ legal_name
    else legal_name in
  if truthy legal_name then legal_name else "unknown_sheet".

(** A name that can be written in [catalog.table] without quoting: not
    empty, made of word characters, with no digit in front and no
    underscore at either end. *)
Definition identifier (name : string) : Prop :=
  name <> EmptyString
  /\ all_chars is_word name = true
  /\ first_char isdigit name = false
  /\ first_char (Ascii.eqb "_") name = false
  /\ last_char (Ascii.eqb "_") name = false.

End Characters.

(** The table name under which [setup_multi_catalog_duckdb]
    ([excel_excute_sql.py]) registers a sheet:
    [sheet_name.replace(" ", "_").replace("-", "_")]. *)
Definition registered_table_name (sheet_name : string) : string :=
  replace_char "-" "_" (replace_char " " "_" sheet_name).

End ExcelNames.

(** ** The Excel agent: reading the files ([excel_mapping_node.py]) *)

Module ExcelMapping.

Import PyStr PyDict NativeSqlTools ExcelNames.

Definition SUPPORTED_EXTENSIONS : list string := ["xlsx"; "xls"; "csv"].

(** One record of [df.head(5).to_dict('records')], its values rendered. *)
Definition Record_ := list (string * string).

(** [columns_info]: column name to its ["comment"] and ["type"]. *)
Definition ColumnsInfo := list (string * (string * string)).

Record SheetInfo := {
  sheet_name : string;
  table_name : string;
  catalog_name : string;
  row_count : nat;
  column_count : nat;
  columns_info : ColumnsInfo;
  sample_data : list Record_
}.

Record FileInfo := {
  file_name : string;
  file_path : string;
  file_catalog_name : string;
  sheet_count : nat;
  upload_time : string
}.

(** An entry of [db_info]; its ["foreign_keys"] are always empty. *)
Record TableSchema := {
  schema_table_name : string;
  schema_columns : ColumnsInfo;
  schema_table_comment : string;
  schema_catalog_name : string
}.

(** An entry of [file_list], read with [.get("source_file_key")]. *)
Record FileEntry := { source_file_key : option string }.

Record ExecutionResult := {
  success : bool;
  result_columns : list string;
  data : list (list (string * string));
  error : option string
}.

(** The keys of [ExcelAgentState] that the three nodes use; a key that
    is absent reads as [None] or as the empty dictionary. *)
Record ExcelAgentState := {
  file_list : option (list FileEntry);
  user_query : string;
  file_metadata : list (string * FileInfo);
  sheet_metadata : list (string * SheetInfo);
  catalog_info : list (string * string);
  db_info : list TableSchema;
  generated_sql : option string;
  chart_type : option string;
  execution_result : option ExecutionResult
}.

(** The four dictionaries and lists that [read_excel_columns] builds. *)
Record Gathered := {
  got_file_metadata : list (string * FileInfo);
  got_sheet_metadata : list (string * SheetInfo);
  got_catalog_info : list (string * string);
  got_db_info : list TableSchema
}.

(** [while catalog_name in catalog_info: catalog_name =
    f"{original_catalog_name}_{counter}"; counter += 1], for at most
    [fuel] rounds; [None] when the rounds are used up. *)
Fixpoint unique_catalog_name (fuel : nat) (original_catalog_name : string) (counter : nat)
    (catalog_name : string) (catalog_info : list (string * string)) : option string :=
  if key_in catalog_name catalog_info then
    match fuel with
    | 0 => None
    | S fuel' =>
        unique_catalog_name fuel' original_catalog_name (S counter)
          (original_catalog_name +:+ "_" +:+ pretty counter) catalog_info
    end
  else Some catalog_name.

(** The names the loop tries, in order. *)
Definition candidate (original_catalog_name : string) (counter : nat) : string :=
  original_catalog_name +:+ "_" +:+ pretty counter.

(** [if table_name in sheet_metadata: all_db_info.append({...})] *)
Definition append_schema (sheet_metadata : list (string * SheetInfo))
    (catalog_name table_name table_comment : string) (all_db_info : list TableSchema)
    : list TableSchema :=
  match dict_get table_name sheet_metadata with
  | Some sheet_info =>
      all_db_info ++
      [{| schema_table_name := catalog_name +:+ "." +:+ table_name;
          schema_columns := columns_info sheet_info;
          schema_table_comment := table_comment;
          schema_catalog_name := catalog_name |}]
  | None => all_db_info
  end.

(** A key of [sheet_metadata] is the qualified name of its table. *)
Definition qualified (e : string * SheetInfo) : Prop :=
  e.1 = catalog_name e.2 +:+ "." +:+ table_name e.2.

(** [path_parts[-1].lower()] if [len(path_parts) > 1], else empty, for
    [path_parts = source_file_key.split(".")] *)
Definition extension_of (source_file_key : string) : string :=
  let path_parts := split_on "." source_file_key in
  if Nat.ltb 1 (length path_parts)
  then lower (List.last path_parts EmptyString) else EmptyString.

(** [extension in SUPPORTED_EXTENSIONS] *)
Definition supported (extension : string) : bool :=
  existsb (String.eqb extension) SUPPORTED_EXTENSIONS.

(** What holds of the gathered data after every round of the loop over
    the files. *)
Definition well_gathered (got : Gathered) : Prop :=
  got_db_info got = []
  /\ Forall qualified (got_sheet_metadata got)
  /\ NoDup (file_catalog_name <$> (got_file_metadata got).*2)
  /\ (forall key info, (key, info) ∈ got_file_metadata got ->
        dict_get (file_catalog_name info) (got_catalog_info got) = Some key
        /\ supported (extension_of key) = true).

Section Environment.

(** The world outside: object storage, pandas, the module's DuckDB
    connection and the clock.  Every call may change it, and may raise. *)
Variable Env : Type.
Variable DataFrame : Type.

Variable word_beyond_ascii : ascii -> bool.
Variable digit_beyond_ascii : ascii -> bool.
(** [os.path.splitext(p)[0]], [os.path.basename(p)] *)
Variable splitext_root : string -> string.
Variable basename : string -> string.

(** [minio_utils.get_file_url_by_key(object_key=key)] *)
Variable get_file_url_by_key : Env -> string -> Env * Outcome string.
(** [pd.ExcelFile(file_url).sheet_names] *)
Variable excel_file_sheet_names : Env -> string -> Env * Outcome (list string).
(** [pd.read_csv(file_url, nrows=5)], whose result is not used *)
Variable read_csv_head : Env -> string -> Env * Outcome unit.
(** [pd.read_excel(file_path, sheet_name=sheet_name)] *)
Variable read_excel : Env -> string -> string -> Env * Outcome DataFrame.
(** [conn.execute(sql)] with the frame [df] in scope, [conn.close()] *)
Variable conn_execute : Env -> string -> DataFrame -> Env * Outcome unit.
Variable conn_close : Env -> Env * Outcome unit.
(** [datetime.now().isoformat()] *)
Variable now_isoformat : Env -> Env * string.

(** [df.empty], [[str(col) for col in df.columns]], [df.columns = names],
    [len(df)], [str(df[col].dtype)], [df.head(5).to_dict('records')] *)
Variable df_empty : DataFrame -> bool.
Variable df_columns : DataFrame -> list string.
Variable df_rename : DataFrame -> list string -> DataFrame.
Variable df_len : DataFrame -> nat.
Variable df_dtype : DataFrame -> string -> Outcome string.
Variable df_sample : DataFrame -> list Record_.

Local Abbreviation sanitize_catalog_name :=
  (sanitize_catalog_name word_beyond_ascii digit_beyond_ascii splitext_root).
Local Abbreviation sanitize_table_or_column_name :=
  (sanitize_table_or_column_name word_beyond_ascii digit_beyond_ascii).

(** [for col in df.columns: columns_info[col] = {...}] *)
Fixpoint gather_columns (df : DataFrame) (cols : list string) (columns_info : ColumnsInfo)
    : Outcome ColumnsInfo :=
  match cols with
  | [] => Returns columns_info
  | col :: rest =>
      match df_dtype df col with
      | Raises msg => Raises msg
      | Returns dtype =>
          gather_columns df rest (dict_set col (col, map_pandas_dtype_to_sql dtype) columns_info)
      end
  end.

(** One round of [for sheet_name in sheet_names]; an exception ends the
    round and leaves [sheet_metadata] as it was. *)
Definition register_sheet (file_path catalog_name : string)
    (st : Env * list (string * SheetInfo)) (sheet_name : string)
    : Env * list (string * SheetInfo) :=
  let '(env, sheet_metadata) := st in
  let table_name := sanitize_table_or_column_name sheet_name false in
  match read_excel env file_path sheet_name with
  | (env1, Raises _) => (env1, sheet_metadata)
  | (env1, Returns df) =>
      if df_empty df then (env1, sheet_metadata)
      else
        let names := map (fun col => sanitize_table_or_column_name col false) (df_columns df) in
        let df := df_rename df names in
        match conn_execute env1
                ("CREATE TABLE " +:+ catalog_name +:+ "." +:+ table_name +:+
                 " AS SELECT * FROM df") df with
        | (env2, Raises _) => (env2, sheet_metadata)
        | (env2, Returns _) =>
            match gather_columns df names [] with
            | Raises _ => (env2, sheet_metadata)
            | Returns columns_info =>
                (env2,
                 dict_set (catalog_name +:+ "." +:+ table_name)
                   {| sheet_name := sheet_name; table_name := table_name;
                      catalog_name := catalog_name; row_count := df_len df;
                      column_count := length names; columns_info := columns_info;
                      sample_data := df_sample df |}
                   sheet_metadata)
            end
        end
  end.

Definition register_excel_to_duckdb (env : Env) (file_path catalog_name : string)
    (sheet_names : list string) : Env * Outcome (list (string * SheetInfo)) :=
  let '(env1, sheet_metadata) :=
    fold_left (register_sheet file_path catalog_name) sheet_names (env, []) in
  match conn_close env1 with
  | (env2, Returns _) => (env2, Returns sheet_metadata)
  | (env2, Raises msg) => (env2, Raises msg)
  end.

(** The end of a round of [for file_idx, file_info in enumerate(file_list)]
    that got through: the two dictionaries get their entries. *)
Definition save_file (key catalog_name : string) (info : FileInfo)
    (sheet_metadata : list (string * SheetInfo)) (all_db_info : list TableSchema)
    (got : Gathered) : Gathered :=
  {| got_file_metadata := dict_set key info (got_file_metadata got);
     got_sheet_metadata := sheet_metadata;
     got_catalog_info := dict_set catalog_name key (got_catalog_info got);
     got_db_info := all_db_info |}.

(** One round of the loop over the files; an exception ends the round
    ([continue]).  [None]: the search for a free catalog name used up
    its rounds. *)
Definition process_file (st : Env * Gathered) (file_info : FileEntry)
    : option (Env * Gathered) :=
  let '(env, got) := st in
  match source_file_key file_info with
  | None => Some (env, got)
  | Some key =>
      if negb (truthy key) then Some (env, got)
      else
        let file_name := basename key in
        match get_file_url_by_key env key with
        | (env1, Raises _) => Some (env1, got)
        | (env1, Returns file_url) =>
            let extension := extension_of key in
            if negb (supported extension)
            then Some (env1, got)
            else
              let original_catalog_name := sanitize_catalog_name file_name in
              match unique_catalog_name (length (got_catalog_info got))
                      original_catalog_name 1 original_catalog_name
                      (got_catalog_info got) with
              | None => None
              | Some catalog_name =>
                  let '(env2, now) := now_isoformat env1 in
                  let info sheets :=
                    {| file_name := file_name; file_path := file_url;
                       file_catalog_name := catalog_name; sheet_count := sheets;
                       upload_time := now |} in
                  if String.eqb extension "xlsx" || String.eqb extension "xls" then
                    match excel_file_sheet_names env2 file_url with
                    | (env3, Raises _) => Some (env3, got)
                    | (env3, Returns sheet_names) =>
                        match register_excel_to_duckdb env3 file_url catalog_name
                                sheet_names with
                        | (env4, Raises _) => Some (env4, got)
                        | (env4, Returns sheet_data) =>
                            let sheet_metadata :=
                              dict_update (got_sheet_metadata got) sheet_data in
                            let all_db_info :=
                              fold_left
                                (fun db sheet_name =>
                                   append_schema sheet_metadata catalog_name
                                     (sanitize_table_or_column_name sheet_name false)
                                     (file_name +:+ " - " +:+ sheet_name) db)
                                sheet_names (got_db_info got) in
                            Some (env4,
                                  save_file key catalog_name (info (length sheet_names))
                                    sheet_metadata all_db_info got)
                        end
                    end
                  else if String.eqb extension "csv" then
                    match read_csv_head env2 file_url with
                    | (env3, Raises _) => Some (env3, got)
                    | (env3, Returns _) =>
                        let table_name :=
                          sanitize_table_or_column_name (splitext_root file_name) false in
                        match register_excel_to_duckdb env3 file_url catalog_name
                                [table_name] with
                        | (env4, Raises _) => Some (env4, got)
                        | (env4, Returns sheet_data) =>
                            let sheet_metadata :=
                              dict_update (got_sheet_metadata got) sheet_data in
                            let all_db_info :=
                              append_schema sheet_metadata catalog_name table_name
                                file_name (got_db_info got) in
                            Some (env4,
                                  save_file key catalog_name (info 1)
                                    sheet_metadata all_db_info got)
                        end
                    end
                  else
                    Some (env2,
                          save_file key catalog_name (info 0)
                            (got_sheet_metadata got) (got_db_info got) got)
              end
        end
  end.

Fixpoint process_files (st : Env * Gathered) (files : list FileEntry)
    : option (Env * Gathered) :=
  match files with
  | [] => Some st
  | file_info :: rest =>
      match process_file st file_info with
      | Some st1 => process_files st1 rest
      | None => None
      end
  end.

Definition nothing_gathered : Gathered :=
  {| got_file_metadata := []; got_sheet_metadata := []; got_catalog_info := [];
     got_db_info := [] |}.

Definition empty_list_error : string := "读取文件列信息时发生错误: " +:+ "文件列表为空".

(** [read_excel_columns(state)]: the state it returns, or the message of
    the [ValueError] it raises. *)
Definition read_excel_columns (env : Env) (state : ExcelAgentState)
    : option (Env * Outcome ExcelAgentState) :=
  match file_list state with
  | None | Some [] => Some (env, Raises empty_list_error)
  | Some files =>
      match process_files (env, nothing_gathered) files with
      | None => None
      | Some (env1, got) =>
          Some (env1,
                Returns {| file_list := file_list state; user_query := user_query state;
                           file_metadata := got_file_metadata got;
                           sheet_metadata := got_sheet_metadata got;
                           catalog_info := got_catalog_info got;
                           db_info := got_db_info got;
                           generated_sql := generated_sql state;
                           chart_type := chart_type state;
                           execution_result := execution_result state |})
      end
  end.

End Environment.

(** An environment for concrete runs: storage serves every key, every
    workbook has the sheets [Sheet1] and [2024 Q1] with the columns [id]
    and [amount], and DuckDB accepts every statement.  Its state counts
    the calls. *)
Definition demo_basename (key : string) : string :=
  List.last (split_on "/" key) EmptyString.

Definition demo_splitext_root (p : string) : string :=
  hd EmptyString (split_on "." p).

Definition demo_read_excel_columns
    : nat -> ExcelAgentState -> option (nat * Outcome ExcelAgentState) :=
  read_excel_columns nat unit (fun _ => true) (fun _ => false)
    demo_splitext_root demo_basename
    (fun env key => (S env, Returns ("http://files/" +:+ key)))
    (fun env _ => (S env, Returns ["Sheet1"; "2024 Q1"]))
    (fun env _ => (S env, Returns tt))
    (fun env _ _ => (S env, Returns tt))
    (fun env _ _ => (S env, Returns tt))
    (fun env => (S env, Returns tt))
    (fun env => (S env, "2025-01-01T00:00:00"))
    (fun _ => false) (fun _ => ["id"; "amount"]) (fun df _ => df) (fun _ => 3)
    (fun _ _ => Returns "int64") (fun _ => []).

Definition demo_state : ExcelAgentState :=
  {| file_list := Some [ {| source_file_key := Some "a/sales.xlsx" |};
                         {| source_file_key := Some "b/sales.xlsx" |};
                         {| source_file_key := Some "notes.txt" |};
                         {| source_file_key := None |} ];
     user_query := "total amount per customer";
     file_metadata := []; sheet_metadata := []; catalog_info := []; db_info := [];
     generated_sql := None; chart_type := None; execution_result := None |}.

End ExcelMapping.

(** ** The Excel agent: running the query ([excel_excute_sql.py]) *)

Module ExcelExecution.

Import PyStr PyDict NativeSqlTools ExcelNames ExcelMapping.

(** What happens to DuckDB connections: one is opened, a statement is
    handed to it, it is closed. *)
Inductive DbEvent :=
| Connected
| Executed (sql : string)
| Closed.

Definition no_sql_error : string := "没有找到有效的SQL查询语句".
Definition generation_failed_error : string := "SQL生成失败，无法执行查询".
Definition no_metadata_error : string := "文件元数据为空，无法设置DuckDB环境".

(** [s.replace] of the backtick by nothing *)
Fixpoint remove_backticks (s : string) : string :=
  match s with
  | EmptyString => EmptyString
  | String c r => if Ascii.eqb c "`" then remove_backticks r else String c (remove_backticks r)
  end.

(** [dict(zip(columns, row))] *)
Definition zip_dict (columns : list string) (row : list string) : list (string * string) :=
  fold_left (fun d e => dict_set e.1 e.2 d) (combine columns row) [].

(** [file_key.split("/")[-1].split(".")[0]] with spaces and hyphens
    replaced: the table name of a CSV file. *)
Definition csv_table_name (file_key : string) : string :=
  registered_table_name
    (hd EmptyString (split_on "." (List.last (split_on "/" file_key) EmptyString))).

Definition failed (msg : string) : ExecutionResult :=
  {| success := false; result_columns := []; data := []; error := Some msg |}.

Definition with_result (state : ExcelAgentState) (res : ExecutionResult) : ExcelAgentState :=
  {| file_list := file_list state; user_query := user_query state;
     file_metadata := file_metadata state; sheet_metadata := sheet_metadata state;
     catalog_info := catalog_info state; db_info := db_info state;
     generated_sql := generated_sql state; chart_type := chart_type state;
     execution_result := Some res |}.

Section Environment.

Variable Env : Type.
Variable DataFrame : Type.

(** [duckdb.connect(database=":memory:")] *)
Variable duckdb_connect : Env -> Env * Outcome unit.
(** [con.execute(sql)] for a statement without result, with the frame
    [df] in scope if there is one *)
Variable con_execute : Env -> string -> option DataFrame -> Env * Outcome unit.
(** [con.execute(sql)] followed by reading [cursor.description] and
    [cursor.fetchall()]: the column names and the rows *)
Variable con_query : Env -> string -> Env * Outcome (list string * list (list string)).
Variable con_close : Env -> Env * Outcome unit.
(** [pd.ExcelFile(file_url).sheet_names], [pd.read_excel], [pd.read_csv] *)
Variable excel_file_sheet_names : Env -> string -> Env * Outcome (list string).
Variable read_excel : Env -> string -> string -> Env * Outcome DataFrame.
Variable read_csv : Env -> string -> Env * Outcome DataFrame.
(** [df.empty], [[str(col) for col in df.columns]], [df.columns = names] *)
Variable df_empty : DataFrame -> bool.
Variable df_columns : DataFrame -> list string.
Variable df_rename : DataFrame -> list string -> DataFrame.

Record World := {
  env : Env;
  trace : list DbEvent
}.

(** The calls into DuckDB, each leaving its event. *)
Definition connect (w : World) : World * Outcome unit :=
  match duckdb_connect (env w) with
  | (e, Returns u) => ({| env := e; trace := trace w ++ [Connected] |}, Returns u)
  | (e, Raises msg) => ({| env := e; trace := trace w |}, Raises msg)
  end.

Definition execute (w : World) (sql : string) (df : option DataFrame) : World * Outcome unit :=
  let '(e, r) := con_execute (env w) sql df in
  ({| env := e; trace := trace w ++ [Executed sql] |}, r).

Definition query (w : World) (sql : string)
    : World * Outcome (list string * list (list string)) :=
  let '(e, r) := con_query (env w) sql in
  ({| env := e; trace := trace w ++ [Executed sql] |}, r).

Definition close (w : World) : World * Outcome unit :=
  match con_close (env w) with
  | (e, Returns u) => ({| env := e; trace := trace w ++ [Closed] |}, Returns u)
  | (e, Raises msg) => ({| env := e; trace := trace w |}, Raises msg)
  end.

Definition outside {A} (call : Env -> Env * Outcome A) (w : World) : World * Outcome A :=
  let '(e, r) := call (env w) in ({| env := e; trace := trace w |}, r).

(** The frame registered as [catalog_name.table_name]; an exception or
    an empty frame leaves the round. *)
Definition register_frame (catalog_name table_name : string)
    (read : World * Outcome DataFrame) : World :=
  match read with
  | (w1, Raises _) => w1
  | (w1, Returns df) =>
      if df_empty df then w1
      else
        let df := df_rename df (map registered_table_name (df_columns df)) in
        (execute w1 ("CREATE TABLE " +:+ catalog_name +:+ "." +:+ table_name +:+
                     " AS SELECT * FROM df") (Some df)).1
  end.

(** One round of [for file_key, file_info in file_metadata.items()]. *)
Definition register_file (w : World) (entry : string * FileInfo) : World :=
  let '(file_key, file_info) := entry in
  let catalog_name := file_catalog_name file_info in
  let file_url := file_path file_info in
  let extension := lower (List.last (split_on "." file_key) EmptyString) in
  if String.eqb extension "xlsx" || String.eqb extension "xls" then
    match outside (fun e => excel_file_sheet_names e file_url) w with
    | (w1, Raises _) => w1
    | (w1, Returns sheet_names) =>
        fold_left
          (fun w sheet_name =>
             register_frame catalog_name (registered_table_name sheet_name)
               (outside (fun e => read_excel e file_url sheet_name) w))
          sheet_names w1
    end
  else if String.eqb extension "csv" then
    register_frame catalog_name (csv_table_name file_key)
      (outside (fun e => read_csv e file_url) w)
  else w.

Definition setup_multi_catalog_duckdb (w : World) (file_metadata : list (string * FileInfo))
    : World * Outcome unit :=
  match connect w with
  | (w1, Raises msg) => (w1, Raises msg)
  | (w1, Returns _) =>
      match execute w1 "INSTALL httpfs" None with
      | (w2, Raises msg) => (w2, Raises msg)
      | (w2, Returns _) =>
          match execute w2 "LOAD httpfs" None with
          | (w3, Raises msg) => (w3, Raises msg)
          | (w3, Returns _) => (fold_left register_file file_metadata w3, Returns tt)
          end
      end
  end.

(** The body of the [try] block of [exe_sql_excel_query]: the result it
    stores, or the exception that reaches the [except] clause. *)
Definition run_query (w : World) (state : ExcelAgentState)
    : World * Outcome ExecutionResult :=
  match generated_sql state with
  | None => (w, Raises no_sql_error)
  | Some generated =>
      if negb (truthy generated) then (w, Raises no_sql_error)
      else if String.eqb generated "No SQL query generated"
      then (w, Raises generation_failed_error)
      else
        match file_metadata state with
        | [] => (w, Raises no_metadata_error)
        | _ =>
            match setup_multi_catalog_duckdb w (file_metadata state) with
            | (w1, Raises msg) => (w1, Raises msg)
            | (w1, Returns _) =>
                let sql := remove_backticks generated in
                match query w1 sql with
                | (w2, Raises msg) => (w2, Raises msg)
                | (w2, Returns (columns, rows)) =>
                    let result := map (zip_dict columns) rows in
                    let res := {| success := true; result_columns := columns;
                                  data := result; error := None |} in
                    match close w2 with
                    | (w3, Returns _) => (w3, Returns res)
                    | (w3, Raises msg) => (w3, Raises msg)
                    end
                end
            end
        end
  end.

Definition exe_sql_excel_query (w : World) (state : ExcelAgentState)
    : World * ExcelAgentState :=
  match run_query w state with
  | (w1, Returns res) => (w1, with_result state res)
  | (w1, Raises error_msg) => (w1, with_result state (failed error_msg))
  end.

(** The world went on from [w] to [w'] without closing a connection. *)
Definition left_open (w w' : World) : Prop :=
  exists new, trace w' = trace w ++ new /\ Closed ∉ new.

(** The message with which a query is turned away before DuckDB is
    touched, if it is. *)
Definition turned_away (state : ExcelAgentState) : option string :=
  match generated_sql state with
  | None => Some no_sql_error
  | Some generated =>
      if negb (truthy generated) then Some no_sql_error
      else if String.eqb generated "No SQL query generated" then Some generation_failed_error
      else match file_metadata state with
           | [] => Some no_metadata_error
           | _ => None
           end
  end.

End Environment.

Arguments env {Env} _.
Arguments trace {Env} _.

(** An environment for concrete runs: every call succeeds, a workbook
    has the sheet [2024 Q1], and a query returns one row of two columns
    of the same name. *)
Definition demo_exe (state : ExcelAgentState) : World nat * ExcelAgentState :=
  exe_sql_excel_query nat unit
    (fun e => (S e, Returns tt)) (fun e _ _ => (S e, Returns tt))
    (fun e _ => (S e, Returns (["id"; "id"], [["1"; "2"]])))
    (fun e => (S e, Returns tt))
    (fun e _ => (S e, Returns ["2024 Q1"])) (fun e _ _ => (S e, Returns tt))
    (fun e _ => (S e, Returns tt))
    (fun _ => false) (fun _ => ["order id"]) (fun df _ => df)
    {| env := 0; trace := [] |} state.

Definition demo_query_state : ExcelAgentState :=
  {| file_list := None; user_query := "ids";
     file_metadata :=
       [("a/sales.xlsx",
         {| file_name := "sales.xlsx"; file_path := "http://files/a/sales.xlsx";
            file_catalog_name := "sales"; sheet_count := 1;
            upload_time := "2025-01-01T00:00:00" |})];
     sheet_metadata := []; catalog_info := [("sales", "a/sales.xlsx")]; db_info := [];
     generated_sql := Some "SELECT a.`id`, b.`id` FROM sales.table_2024_Q1 a, sales.t b";
     chart_type := None; execution_result := None |}.

End ExcelExecution.

(** * Properties of the tool layer *)

Section ManagerFacts.

Import ToolCallManager.

Lemma check_ledger m now sid tool q sid' :
  ledger (check_before_call m now sid tool q).1 sid' = ledger m sid'.
Proof.
  unfold check_before_call.
  repeat case_match; unfold ledger; simpl;
    (destruct (decide (sid = sid')) as [->|Hne];
     [rewrite lookup_insert_eq; reflexivity | rewrite lookup_insert_ne by done; reflexivity]).
Qed.

Lemma check_config m now sid tool q :
  config (check_before_call m now sid tool q).1 = config m.
Proof. unfold check_before_call. repeat case_match; reflexivity. Qed.

Lemma record_ledger m now sid tool ok q :
  ledger (record_call m now sid tool ok q) sid =
  ledger m sid ++ [{| tool_name := tool; query_fingerprint := fingerprint <$> q;
                      success := ok; timestamp := now |}].
Proof. unfold record_call, ledger at 1. simpl. by rewrite lookup_insert_eq. Qed.

Lemma record_config m now sid tool ok q :
  config (record_call m now sid tool ok q) = config m.
Proof. reflexivity. Qed.




End ManagerFacts.

Section ToolFacts.

Import PyStr NativeSqlTools Statements.

Variable table_info_from_metadata : Z -> Outcome TableInfo.
Variable execute_query : string -> string -> string -> Outcome (list Row).
Variable format_rows : list Row -> string.
Variable _handle_starrocks_error : string -> string -> option string.

Local Abbreviation sql_db_query := (sql_db_query execute_query format_rows _handle_starrocks_error).
Local Abbreviation invoke :=
  (invoke table_info_from_metadata execute_query format_rows _handle_starrocks_error).

Lemma first_forbidden_none qu :
  first_forbidden qu = None <->
  existsb (fun keyword => contains keyword qu) forbidden_keywords = false.
Proof.
  unfold first_forbidden. split; intros H.
  - apply not_true_is_false. intros Hex. apply existsb_exists in Hex as (k & Hin & Hk).
    eapply find_none in H; [|exact Hin]. simpl in H. congruence.
  - destruct (find _ _) eqn:E; [|done].
    apply find_some in E as [Hin Hk].
    assert (existsb (fun keyword => contains keyword qu) forbidden_keywords = true)
      by (apply existsb_exists; eauto).
    congruence.
Qed.

Lemma first_forbidden_some qu k :
  first_forbidden qu = Some k -> k ∈ forbidden_keywords.
Proof.
  unfold first_forbidden. intros H. apply find_some in H as [Hin _].
  by apply list_elem_of_In.
Qed.

Lemma check_tool_call_spec w now tool q :
  let res := _check_tool_call w now tool q in
  _current_datasource res.1 = _current_datasource w
  /\ executed res.1 = executed w
  /\ current_ledger res.1 = current_ledger w
  /\ ToolCallManager.config (manager res.1) = ToolCallManager.config (manager w)
  /\ res.2 = (ToolCallManager.check_before_call (manager w) now (_get_session_id w) tool q).2.
Proof.
  unfold _check_tool_call.
  destruct (ToolCallManager.check_before_call _ _ _ _ _) as [m d] eqn:E. simpl.
  repeat split.
  unfold current_ledger, _get_session_id. simpl.
  replace m with (ToolCallManager.check_before_call (manager w) now (_get_session_id w) tool q).1
    by (by rewrite E).
  apply check_ledger.
  replace m with (ToolCallManager.check_before_call (manager w) now (_get_session_id w) tool q).1
    by (by rewrite E).
  apply check_config.
Qed.

Lemma record_tool_call_spec w now tool ok q :
  let w' := _record_tool_call w now tool ok q in
  _current_datasource w' = _current_datasource w
  /\ executed w' = executed w
  /\ ToolCallManager.config (manager w') = ToolCallManager.config (manager w)
  /\ current_ledger w' = current_ledger w ++
       [{| ToolCallManager.tool_name := tool;
           ToolCallManager.query_fingerprint := ToolCallManager.fingerprint <$> q;
           ToolCallManager.success := ok; ToolCallManager.timestamp := now |}].
Proof.
  unfold _record_tool_call, current_ledger, _get_session_id. simpl.
  repeat split. apply record_ledger.
Qed.


(** The four ways [sql_db_query] can go. *)
Lemma sql_db_query_cases w now q :
  let res := sql_db_query w now q in
  _current_datasource res.1 = _current_datasource w
  /\ ToolCallManager.config (manager res.1) = ToolCallManager.config (manager w)
  /\ ((reaches_governor w (CallQuery q) = false /\ res.1 = w /\ is_error_text res.2 = true)
      \/ (reaches_governor w (CallQuery q) = true
          /\ governor_allows w now (CallQuery q) = false
          /\ executed res.1 = executed w
          /\ current_ledger res.1 = current_ledger w
          /\ res.2 = (ToolCallManager.check_before_call (manager w) now (_get_session_id w)
                        "sql_db_query" (Some q)).2.2)
      \/ (reaches_governor w (CallQuery q) = true
          /\ governor_allows w now (CallQuery q) = true
          /\ executed res.1 = executed w ++ [q]
          /\ exists ok, current_ledger res.1 = current_ledger w ++ [query_record now q ok])).
Proof.
  unfold sql_db_query, reaches_governor, configured, not_a_clean_select, governor_allows.
  simpl tool_of; simpl query_of.
  set (d := _current_datasource w).
  set (qu := upper (strip q)).
  remember (existsb (fun keyword => contains keyword qu) forbidden_keywords) as bad eqn:Hbad.
  remember (first_forbidden qu) as ff eqn:Hf. symmetry in Hbad, Hf.
  destruct (truthy_int (datasource_id d)); simpl;
    [|split; [done|split; [done|left; done]]].
  destruct (truthy_str (datasource_type d)); simpl;
    [|split; [done|split; [done|left; done]]].
  destruct (truthy_str (datasource_config d)); simpl;
    [|split; [done|split; [done|left; done]]].
  destruct ff as [k|].
  { simpl. split; [done|split; [done|left]].
    split; [|done].
    assert (bad = true) as ->.
    { destruct bad; [done|]. apply first_forbidden_none in Hbad. congruence. }
    by rewrite orb_true_r. }
  apply first_forbidden_none in Hf. rewrite Hf in Hbad. subst bad. rewrite orb_false_r.
  destruct (startswith qu "SELECT") eqn:Hs; simpl;
    [|split; [done|split; [done|left; done]]].
  pose proof (check_tool_call_spec w now "sql_db_query" (Some q)) as Hc.
  destruct (_check_tool_call w now "sql_db_query" (Some q)) as [w1 [allowed reason]].
  simpl in Hc. destruct Hc as (Hd & He & Hl & Hcfg & Hdec).
  rewrite <- Hdec. simpl.
  destruct allowed; simpl.
  2:{ split; [done|split; [done|right; left; done]]. }
  unfold run_query.
  set (w2 := {| _current_datasource := _current_datasource w1; manager := manager w1;
                executed := executed w1 ++ [q] |}).
  assert (Hl2 : current_ledger w2 = current_ledger w) by (rewrite <- Hl; reflexivity).
  destruct (execute_query _ _ q) as [rows|e].
  - pose proof (record_tool_call_spec w2 now "sql_db_query" true (Some q)) as Hr.
    cbv zeta in Hr. destruct Hr as (Hd3 & He3 & Hcfg3 & Hl3).
    assert (Hgoal :
      _current_datasource (_record_tool_call w2 now "sql_db_query" true (Some q)) = d
      /\ ToolCallManager.config (manager (_record_tool_call w2 now "sql_db_query" true (Some q)))
         = ToolCallManager.config (manager w)
      /\ executed (_record_tool_call w2 now "sql_db_query" true (Some q)) = executed w ++ [q]
      /\ current_ledger (_record_tool_call w2 now "sql_db_query" true (Some q))
         = current_ledger w ++ [query_record now q true]).
    { rewrite Hd3, He3, Hcfg3, Hl3, Hl2. subst w2. simpl. rewrite He, Hd, Hcfg. done. }
    destruct Hgoal as (G1 & G2 & G3 & G4).
    destruct rows; simpl; (split; [done|split; [done|right; right; eauto 6]]).
  - pose proof (record_tool_call_spec w2 now "sql_db_query" false (Some q)) as Hr.
    cbv zeta in Hr. destruct Hr as (Hd3 & He3 & Hcfg3 & Hl3).
    assert (Hgoal :
      _current_datasource (_record_tool_call w2 now "sql_db_query" false (Some q)) = d
      /\ ToolCallManager.config (manager (_record_tool_call w2 now "sql_db_query" false (Some q)))
         = ToolCallManager.config (manager w)
      /\ executed (_record_tool_call w2 now "sql_db_query" false (Some q)) = executed w ++ [q]
      /\ current_ledger (_record_tool_call w2 now "sql_db_query" false (Some q))
         = current_ledger w ++ [query_record now q false]).
    { rewrite Hd3, He3, Hcfg3, Hl3, Hl2. subst w2. simpl. rewrite He, Hd, Hcfg. done. }
    destruct Hgoal as (G1 & G2 & G3 & G4).
    destruct (truthy_str _); simpl; (split; [done|split; [done|right; right; eauto 6]]).
Qed.

(** What the other three tools do to the ledger once they ask the
    governor. *)
Lemma invoke_ledger w now c :
  reaches_governor w c = true ->
  if governor_allows w now c
  then exists r, ToolCallManager.tool_name r = tool_of c
                 /\ current_ledger (invoke w now c).1 = current_ledger w ++ [r]
  else current_ledger (invoke w now c).1 = current_ledger w.
Proof.
  intros Hreach. destruct c as [|t|q|q].
  - simpl in Hreach. unfold governor_allows. simpl invoke; simpl tool_of; simpl query_of.
    unfold sql_db_list_tables. rewrite Hreach. cbn [negb].
    pose proof (check_tool_call_spec w now "sql_db_list_tables" None) as Hc.
    destruct (_check_tool_call w now "sql_db_list_tables" None) as [w1 [allowed reason]].
    cbv zeta in Hc. cbn [fst snd] in Hc. destruct Hc as (Hd & He & Hl & Hcfg & Hdec).
    rewrite <- Hdec. cbn [fst snd]. destruct allowed; cbn [negb]; [|exact Hl].
    destruct (table_info_from_metadata _) as [[|e l]|e]; cbn [fst];
      eexists; (split; [|rewrite <- Hl; apply record_tool_call_spec]); reflexivity.
  - simpl in Hreach. unfold governor_allows. simpl invoke; simpl tool_of; simpl query_of.
    unfold sql_db_schema. rewrite Hreach. cbn [negb].
    pose proof (check_tool_call_spec w now "sql_db_schema" None) as Hc.
    destruct (_check_tool_call w now "sql_db_schema" None) as [w1 [allowed reason]].
    cbv zeta in Hc. cbn [fst snd] in Hc. destruct Hc as (Hd & He & Hl & Hcfg & Hdec).
    rewrite <- Hdec. cbn [fst snd]. destruct allowed; cbn [negb]; [|exact Hl].
    destruct (table_info_from_metadata _) as [ti|e]; cbn [fst];
      eexists; (split; [|rewrite <- Hl; apply record_tool_call_spec]); reflexivity.
  - pose proof (sql_db_query_cases w now q) as H. cbv zeta in H.
    destruct H as (_ & _ & [(Hr & _)|[(_ & Ha & _ & Hl & _)|(_ & Ha & _ & ok & Hl)]]).
    + congruence.
    + rewrite Ha. exact Hl.
    + rewrite Ha. by exists (query_record now q ok).
  - unfold governor_allows. simpl invoke; simpl tool_of; simpl query_of.
    unfold sql_db_query_checker.
    pose proof (check_tool_call_spec w now "sql_db_query_checker" None) as Hc.
    destruct (_check_tool_call w now "sql_db_query_checker" None) as [w1 [allowed reason]].
    cbv zeta in Hc. cbn [fst snd] in Hc. destruct Hc as (Hd & He & Hl & Hcfg & Hdec).
    rewrite <- Hdec. cbn [fst snd]. destruct allowed; cbn [negb]; [|exact Hl].
    repeat case_match; cbn [fst];
      eexists; (split; [|rewrite <- Hl; apply record_tool_call_spec]); reflexivity.
Qed.

(** C5, as amended.  An invocation that gets as far as the governor and is
    allowed appends exactly one Call Record, whether the call then
    succeeds or fails with an exception; an invocation the governor vetoes
    appends none. *)
Theorem one_record_per_allowed_call w now c :
  reaches_governor w c = true ->
  length (current_ledger (invoke w now c).1) =
  if governor_allows w now c then S (length (current_ledger w))
  else length (current_ledger w).
Proof.
  intros Hreach. pose proof (invoke_ledger w now c Hreach) as H.
  destruct (governor_allows w now c).
  - destruct H as (r & _ & ->). rewrite length_app. simpl. lia.
  - by rewrite H.
Qed.





End ToolFacts.

(** C5, witness: an allowed query on the demonstration world. *)
Lemma one_record_per_allowed_call_witness :
  length (NativeSqlTools.current_ledger
            (Statements.demo_invoke Statements.demo_world 1
               (NativeSqlTools.CallQuery "SELECT * FROM t")).1) = 1.
Proof.
  exact (one_record_per_allowed_call Statements.demo_metadata Statements.demo_execute
           Statements.demo_format Statements.demo_starrocks Statements.demo_world 1
           (NativeSqlTools.CallQuery "SELECT * FROM t") eq_refl).
Defined.

(** C5, counterexample: after two allowed runs of a query the third
    invocation is vetoed, the tool returns the reason, and the ledger
    keeps its two records. *)
Lemma vetoed_call_is_not_recorded :
  let w2 := (Statements.issue_queries Statements.demo_execute Statements.demo_format
               Statements.demo_starrocks Statements.demo_world
               [(1, "SELECT * FROM t"); (2, "select *  from T")]).1 in
  let res := Statements.demo_invoke w2 3 (NativeSqlTools.CallQuery "SELECT * FROM t") in
  res.2 = ToolCallManager.loop_reason "sql_db_query"
  /\ length (NativeSqlTools.current_ledger w2) = 2
  /\ length (NativeSqlTools.current_ledger res.1) = 2
  /\ length (NativeSqlTools.current_ledger res.1)
     <> S (length (NativeSqlTools.current_ledger w2)).
Proof. vm_compute. repeat split; intros H; discriminate H. Qed.



(** * Properties of rendering and of the task registry *)

Section RenderingFacts.

Import PyStr DeepAgent Delivery.






End RenderingFacts.



Section RegistryFacts.

Import PyStr DeepAgent Delivery.

Lemma not_running_iff tid w :
  tid ∉ get_running_tasks w <-> running_tasks w !! tid = None.
Proof.
  unfold get_running_tasks. split.
  - intros Hn. destruct (running_tasks w !! tid) as [b|] eqn:E; [|done].
    exfalso. apply Hn. apply list_elem_of_fmap. exists (tid, b). split; [done|].
    by apply elem_of_map_to_list.
  - intros Hnone Hin. apply list_elem_of_fmap in Hin as ([k b] & -> & Hin).
    apply elem_of_map_to_list in Hin. simpl in Hnone. congruence.
Qed.

Lemma retire_task_lookup tid w : running_tasks (retire_task tid w) !! tid = None.
Proof.
  unfold retire_task. destruct (running_tasks w !! tid) eqn:E; [|done].
  simpl. apply lookup_delete_eq.
Qed.

Lemma retire_task_twice tid w : retire_task tid (retire_task tid w) = retire_task tid w.
Proof.
  unfold retire_task at 1. by rewrite retire_task_lookup.
Qed.

Lemma run_agent_retires rq setup w :
  truthy_id (datasource_id rq) = true ->
  exists w1, (run_agent rq setup w).1 = retire_task (task_id rq) w1.
Proof.
  intros H. unfold run_agent. rewrite H. cbn [negb]. unfold try_finally.
  destruct (try_except2 _ _ _ _) as [w1 r]. unfold modify. simpl. by exists w1.
Qed.

(** C8.  The termination path, run twice for a task id, leaves the
    registry as one run of it does (and is a total function, so nothing is
    raised); it runs at the end of every [run_agent] that registered the
    task, whichever way the run ends; and after it [get_running_tasks]
    does not contain the task id. *)
Theorem retirement_is_idempotent tid w :
  retire_task tid (retire_task tid w) = retire_task tid w
  /\ (tid ∉ get_running_tasks (retire_task tid w))
  /\ forall rq setup w0,
       truthy_id (datasource_id rq) = true ->
       task_id rq ∉ get_running_tasks (run_agent rq setup w0).1.
Proof.
  split; [apply retire_task_twice|]. split.
  - apply not_running_iff, retire_task_lookup.
  - intros rq setup w0 H. destruct (run_agent_retires rq setup w0 H) as [w1 ->].
    apply not_running_iff, retire_task_lookup.
Qed.

End RegistryFacts.

(** C8, witness: the demonstration run ends with an empty registry. *)
Lemma retirement_is_idempotent_witness :
  "u1" ∉ DeepAgent.get_running_tasks
           (DeepAgent.run_agent Delivery.demo_request
              (DeepAgent.SetupOk Delivery.demo_stream) Delivery.demo_world).1.
Proof.
  exact ((proj2 (proj2 (retirement_is_idempotent "u1" Delivery.demo_world)))
           Delivery.demo_request (DeepAgent.SetupOk Delivery.demo_stream)
           Delivery.demo_world eq_refl).
Defined.

(** * Properties of the delivery pipeline *)

Section DeliveryFacts.

Import PyStr DeepAgent Delivery.

Variable tid : string.

Lemma accepts_drop w k : channel_accepts w -> Forall (fun ev => io_result ev = IoOk) (drop k (script w)).
Proof. apply Forall_drop. Qed.

Lemma extends_refl w : extends tid w w [].
Proof.
  unfold extends. rewrite app_nil_r. repeat split; try done.
  by exists 0.
Qed.

Lemma extends_accepts w w' L : extends tid w w' L -> channel_accepts w -> channel_accepts w'.
Proof.
  intros (_ & _ & _ & _ & [k Hk] & _) H. unfold channel_accepts. rewrite Hk.
  by apply accepts_drop.
Qed.

Lemma extends_trans w w1 w2 L1 L2 :
  extends tid w w1 L1 -> extends tid w1 w2 L2 -> extends tid w w2 (L1 ++ L2).
Proof.
  intros H1 H2. pose proof (extends_accepts _ _ _ H1) as Hacc.
  destruct H1 as (C1 & U1 & F1 & K1 & [k1 S1] & A1).
  destruct H2 as (C2 & U2 & F2 & K2 & [k2 S2] & A2).
  unfold extends. rewrite C2, C1, U2, U1, F2, F1, app_assoc. repeat split; try done.
  - auto.
  - exists (k1 + k2). rewrite S2, S1, drop_drop. done.
  - intros H. apply Forall_app. auto.
Qed.

Lemma extends_frames w w' L : extends tid w w' L -> frames w' = frames w ++ frames_of L.
Proof. intros (C & _). unfold frames, frames_of. by rewrite C, omap_app. Qed.

Lemma extends_cancelled w w' L :
  extends tid w w' L -> _is_task_cancelled tid w = true -> _is_task_cancelled tid w' = true.
Proof. intros (_ & _ & _ & K & _). exact K. Qed.

Lemma extends_not_cancelled w w' L :
  extends tid w w' L -> _is_task_cancelled tid w' = false -> _is_task_cancelled tid w = false.
Proof.
  intros H Hf. destruct (_is_task_cancelled tid w) eqn:E; [|done].
  apply (extends_cancelled _ _ _ H) in E. congruence.
Qed.

Lemma extends_answer w l : extends tid w (set_answer_data l w) [].
Proof.
  unfold extends. simpl. rewrite app_nil_r. repeat split; try done. by exists 0.
Qed.

Lemma extends_cancel_task w : extends tid w (cancel_task tid w).1 [].
Proof.
  unfold cancel_task. destruct (running_tasks w !! tid) eqn:E; [|apply extends_refl].
  unfold extends. simpl. rewrite app_nil_r. repeat split; try done.
  - intros _. unfold _is_task_cancelled. simpl. by rewrite lookup_insert_eq.
  - by exists 0.
Qed.

Lemma extends_arrive w c : extends tid w (arrive tid c w) [].
Proof. unfold arrive. destruct c; [apply extends_cancel_task|apply extends_refl]. Qed.

Lemma extends_log w w' L x :
  extends tid w w' L ->
  (channel_accepts w -> entry_failure x = None) ->
  extends tid w (log_channel x w') (L ++ [x]).
Proof.
  intros (C & U & F & K & S & A) Hx. unfold extends. simpl.
  rewrite C, app_assoc. repeat split; try done.
  intros H. apply Forall_app. split; [auto|]. constructor; [auto|constructor].
Qed.

Lemma await_channel_spec w :
  exists w' r, await_channel tid w = (w', Ret r)
               /\ extends tid w w' [] /\ (channel_accepts w -> r = IoOk).
Proof.
  unfold await_channel. destruct (script w) as [|ev rest] eqn:E.
  - simpl. exists w, IoOk. split; [done|]. split; [apply extends_refl|done].
  - set (w1 := set_script rest w).
    assert (H1 : extends tid w w1 []).
    { unfold extends. simpl. rewrite app_nil_r. repeat split; try done.
      exists 1. rewrite E. simpl. by rewrite drop_0. }
    eexists _, _. split; [reflexivity|]. split.
    + destruct (cancel_arrives ev); [|exact H1].
      apply (extends_trans _ _ _ [] [] H1), extends_cancel_task.
    + unfold channel_accepts. rewrite E. intros H. by apply Forall_cons in H as [H _].
Qed.

Lemma response_write_spec f w :
  (exists w', response_write tid f w = (w', Ret tt) /\ extends tid w w' [Wrote f])
  \/ (exists w' e, response_write tid f w = (w', Raise e)
                   /\ extends tid w w' [WriteFailed f e]).
Proof.
  unfold response_write, bind.
  destruct (await_channel_spec w) as (w1 & r & -> & Hext & Hok).
  destruct r as [|e].
  - left. eexists. split; [reflexivity|]. by apply (extends_log _ _ [] _ Hext).
  - right. eexists _, e. unfold modify, raise. split; [reflexivity|].
    apply (extends_log _ _ [] _ Hext). intros H. by apply Hok in H.
Qed.

Lemma response_flush_spec w :
  (exists w', response_flush tid w = (w', Ret tt) /\ extends tid w w' [Flushed])
  \/ (exists w' e, response_flush tid w = (w', Raise e)
                   /\ extends tid w w' [FlushFailed e]).
Proof.
  unfold response_flush, bind.
  destruct (await_channel_spec w) as (w1 & r & -> & Hext & Hok).
  destruct r as [|e].
  - left. eexists. split; [reflexivity|]. by apply (extends_log _ _ [] _ Hext).
  - right. eexists _, e. unfold modify, raise. split; [reflexivity|].
    apply (extends_log _ _ [] _ Hext). intros H. by apply Hok in H.
Qed.

(** The ways [_safe_write] can go. *)
Lemma safe_write_cases c mt dt w :
  let f := _create_response c mt dt in
  exists w' r L,
    _safe_write tid c mt dt w = (w', r)
    /\ extends tid w w' L
    /\ writes_only (fun g => g = f) L
    /\ ((r = Ret true /\ frames_of L = [f] /\ clean L)
        \/ (exists L0 x e, L = L0 ++ [x] /\ entry_failure x = Some e /\ clean L0
              /\ ((is_connection_failure e = true /\ r = Ret false)
                  \/ (is_connection_failure e = false /\ r = Raise e)))).
Proof.
  intros f. unfold _safe_write, try_except, bind. fold f.
  assert (Hfail : forall w' L0 x e, extends tid w w' (L0 ++ [x]) ->
            writes_only (fun g => g = f) (L0 ++ [x]) ->
            entry_failure x = Some e -> clean L0 ->
            exists w'' r L,
              match e with
              | Exception ty msg =>
                  (if _is_connection_error ty msg then ret false
                   else raise (Exception ty msg)) w'
              | CancelledError => (w', Raise CancelledError)
              end = (w'', r)
              /\ extends tid w w'' L /\ writes_only (fun g => g = f) L
              /\ ((r = Ret true /\ frames_of L = [f] /\ clean L)
                  \/ (exists L0 x e, L = L0 ++ [x] /\ entry_failure x = Some e /\ clean L0
                      /\ ((is_connection_failure e = true /\ r = Ret false)
                          \/ (is_connection_failure e = false /\ r = Raise e))))).
  { intros w' L0 x e Hext Hw Hx Hc. destruct e as [|ty msg].
    - eexists _, _, _. split; [reflexivity|]. split; [exact Hext|]. split; [exact Hw|].
      right. exists L0, x, CancelledError. repeat split; try done. by right.
    - destruct (_is_connection_error ty msg) eqn:E; unfold ret, raise;
        (eexists _, _, _; split; [reflexivity|]; split; [exact Hext|]; split; [exact Hw|];
         right; exists L0, x, (Exception ty msg); repeat split; try done; simpl; auto). }
  destruct (response_write_spec f w) as [(w1 & -> & H1)|(w1 & e & -> & H1)].
  - unfold get. destruct (has_flush w1) eqn:Hf.
    + destruct (response_flush_spec w1) as [(w2 & -> & H2)|(w2 & e & -> & H2)].
      * unfold ret. eexists _, _, _. split; [reflexivity|].
        split; [exact (extends_trans _ _ _ _ _ H1 H2)|].
        split; [repeat constructor|]. left. repeat split; repeat constructor.
      * pose proof (extends_trans _ _ _ _ _ H1 H2) as H12.
        destruct (Hfail w2 [Wrote f] (FlushFailed e) e H12) as (w'' & r & L & Heq & Hrest);
          [repeat constructor|done|repeat constructor|].
        destruct e; eexists _, _, _; (split; [exact Heq|exact Hrest]).
    + unfold ret. eexists _, _, _. split; [reflexivity|]. split; [exact H1|].
      split; [repeat constructor|]. left. repeat split; repeat constructor.
  - destruct (Hfail w1 [] (WriteFailed f e) e H1) as (w'' & r & L & Heq & Hrest);
      [repeat constructor|done|constructor|].
    destruct e; eexists _, _, _; (split; [exact Heq|exact Hrest]).
Qed.

Lemma safe_write_accepted c mt dt w :
  channel_accepts w ->
  exists w' L, _safe_write tid c mt dt w = (w', Ret true)
               /\ extends tid w w' L /\ frames_of L = [_create_response c mt dt].
Proof.
  intros Hacc. destruct (safe_write_cases c mt dt w) as (w' & r & L & Heq & Hext & _ & Hc).
  destruct Hc as [(-> & Hf & _)|(L0 & x & e & -> & Hx & _)].
  - by exists w', L.
  - destruct Hext as (_ & _ & _ & _ & _ & A). specialize (A Hacc).
    apply Forall_app in A as [_ A]. apply Forall_cons in A as [A _]. congruence.
Qed.


Lemma handle_cancellation_extends b w :
  exists w' r L, _handle_task_cancellation tid b w = (w', r)
                 /\ extends tid w w' L
                 /\ (r = Ret tt \/ r = Raise CancelledError).
Proof.
  unfold _handle_task_cancellation, try_except, bind.
  destruct (safe_write_cases (cancel_notice b) "info" ANSWER w)
    as (w1 & r1 & L1 & -> & H1 & _ & _).
  destruct r1 as [b1|[|ty1 m1]].
  - destruct (safe_write_cases EmptyString "end" STREAM_END w1)
      as (w2 & r2 & L2 & -> & H2 & _ & _).
    pose proof (extends_trans _ _ _ _ _ H1 H2) as H12.
    destruct r2 as [b2|[|ty2 m2]]; unfold ret; eexists _, _, _; eauto.
  - eexists _, _, _; eauto.
  - unfold ret. eexists _, _, _; eauto.
Qed.

Lemma handle_cancellation_accepted b w :
  channel_accepts w ->
  exists w' L, _handle_task_cancellation tid b w = (w', Ret tt)
               /\ extends tid w w' L
               /\ frames_of L = [notice_frame b; end_frame].
Proof.
  intros Hacc. unfold _handle_task_cancellation, try_except, bind.
  destruct (safe_write_accepted (cancel_notice b) "info" ANSWER w Hacc)
    as (w1 & L1 & -> & H1 & F1).
  destruct (safe_write_accepted EmptyString "end" STREAM_END w1
              (extends_accepts _ _ _ H1 Hacc)) as (w2 & L2 & -> & H2 & F2).
  exists w2, (L1 ++ L2). split; [reflexivity|]. split; [exact (extends_trans _ _ _ _ _ H1 H2)|].
  unfold frames_of in *. by rewrite omap_app, F1, F2.
Qed.

Lemma clean_app L1 L2 : clean L1 -> clean L2 -> clean (L1 ++ L2).
Proof. intros H1 H2. apply Forall_app. done. Qed.

Lemma shape_after {A} (stop : A) r L1 L2 : clean L1 -> shape stop r L2 -> shape stop r (L1 ++ L2).
Proof.
  intros H1 [H2|(-> & L0 & x & -> & H0 & Hx)].
  - left. by apply clean_app.
  - right. split; [done|]. exists (L1 ++ L0), x. rewrite app_assoc.
    split; [done|]. split; [by apply clean_app|done].
Qed.

Lemma renders_ret b : renders tid (ret b).
Proof.
  intros w. exists w, (Ret b), []. split; [done|]. split; [apply extends_refl|].
  split; [constructor|]. split; [left; constructor|eauto].
Qed.

Lemma renders_safe_write c mt dt :
  render_type (_create_response c mt dt) = true -> renders tid (_safe_write tid c mt dt).
Proof.
  intros Hty w. destruct (safe_write_cases c mt dt w) as (w' & r & L & E & X & W & C).
  exists w', r, L. split; [exact E|]. split; [exact X|]. split.
  { eapply Forall_impl; [exact W|]. intros [g| | |]; simpl; try done. by intros ->. }
  split.
  - destruct C as [(_ & _ & C)|(L0 & x & e & -> & Hx & C0 & [[Hc ->]|[Hc ->]])].
    + by left.
    + right. split; [done|]. exists L0, x. repeat split; try done.
      unfold transport_failure. by rewrite Hx.
    + left. apply clean_app; [done|]. constructor; [|constructor].
      unfold transport_failure. by rewrite Hx.
  - intros Hacc. destruct (safe_write_accepted c mt dt w Hacc) as (w2 & L2 & E2 & _).
    rewrite E in E2. injection E2 as _ ->. eauto.
Qed.

Lemma renders_then (c k : M bool) :
  renders tid c -> renders tid k ->
  renders tid (fun w => bind c (fun ok : bool => if ok then k else ret false) w).
Proof.
  intros Hc Hk w. destruct (Hc w) as (w1 & r1 & L1 & E1 & X1 & W1 & S1 & A1).
  unfold bind. rewrite E1. destruct r1 as [[|]|e].
  - destruct (Hk w1) as (w2 & r2 & L2 & E2 & X2 & W2 & S2 & A2).
    exists w2, r2, (L1 ++ L2). split; [exact E2|].
    split; [exact (extends_trans _ _ _ _ _ X1 X2)|].
    split; [by apply Forall_app|]. split.
    + destruct S1 as [C1|[? _]]; [|done]. by apply shape_after.
    + intros Hacc. apply A2. exact (extends_accepts _ _ _ X1 Hacc).
  - exists w1, (Ret false), L1. unfold ret. eauto 10.
  - exists w1, (Raise e), L1. eauto 10.
Qed.

Lemma renders_guard (k : M bool) :
  renders tid k ->
  renders tid (fun w => bind (cancelled_now tid) (fun c : bool => if c then ret false else k) w).
Proof.
  intros Hk w. unfold bind, cancelled_now, get.
  destruct (truthy tid && _is_task_cancelled tid w); [apply renders_ret|apply Hk].
Qed.

Lemma renders_guard_if (cond : bool) (k : M bool) :
  renders tid k ->
  renders tid (fun w => bind (if cond then cancelled_now tid else ret false)
                          (fun c : bool => if c then ret false else k) w).
Proof.
  intros Hk. destruct cond; [by apply renders_guard|].
  intros w. unfold bind, ret. apply Hk.
Qed.

Lemma renders_append s (k : M bool) :
  renders tid k -> renders tid (fun w => bind (append_answer s) (fun _ => k) w).
Proof.
  intros Hk w. unfold bind, append_answer, modify.
  destruct (Hk (set_answer_data (t02_answer_data w ++ [s]) w))
    as (w2 & r2 & L2 & E2 & X2 & W2 & S2 & A2).
  exists w2, r2, L2. split; [exact E2|].
  split; [exact (extends_trans _ _ _ [] _ (extends_answer w _) X2)|].
  split; [done|]. split; [done|]. intros Hacc. apply A2. exact Hacc.
Qed.

Lemma renders_try (c : M bool) :
  renders tid c ->
  renders tid (try_except c (fun ty m => if _is_connection_error ty m then ret false
                                         else raise (Exception ty m))).
Proof.
  intros Hc w. destruct (Hc w) as (w1 & r1 & L1 & E1 & X1 & W1 & S1 & A1).
  unfold try_except. rewrite E1. destruct r1 as [b|[|ty m]].
  - exists w1, (Ret b), L1. eauto 10.
  - exists w1, (Raise CancelledError), L1. eauto 10.
  - assert (C1 : clean L1) by (destruct S1 as [C|[? _]]; done).
    destruct (_is_connection_error ty m); unfold ret, raise.
    + exists w1, (Ret false), L1. split; [done|]. split; [exact X1|]. split; [exact W1|].
      split; [by left|eauto].
    + exists w1, (Raise (Exception ty m)), L1. eauto 10.
Qed.

Lemma renders_ext (c c' : M bool) : (forall w, c w = c' w) -> renders tid c -> renders tid c'.
Proof. intros H Hc w. rewrite <- H. apply Hc. Qed.

Lemma renders_tool_calls tcs : renders tid (print_tool_calls tid tcs).
Proof.
  induction tcs as [|tc rest IH]; [apply renders_ret|].
  cbn [print_tool_calls].
  apply renders_guard, renders_guard_if.
  destruct (option_truthy (_format_tool_call (tc_name tc) tc)) eqn:E; [|exact IH].
  apply renders_then; [by apply renders_safe_write|].
  by apply renders_append.
Qed.

Lemma renders_body msg : renders tid (print_body tid msg).
Proof.
  destruct msg as [content|content tool_calls|name content|]; cbn [print_body].
  - destruct (truthy content && truthy (strip content)); [|apply renders_ret].
    apply renders_append. apply renders_then; [by apply renders_safe_write|apply renders_ret].
  - apply renders_then; [|apply renders_tool_calls].
    destruct (truthy (text_of content) && truthy (strip (text_of content)));
      [|apply renders_ret].
    apply renders_guard, renders_append. by apply renders_safe_write.
  - apply renders_guard.
    destruct (option_truthy (_format_tool_result name content)); [|apply renders_ret].
    apply renders_then.
    + apply renders_safe_write. by destruct (contains "error" (lower content)).
    + apply renders_append, renders_ret.
  - apply renders_ret.
Qed.

Lemma renders_message msg : renders tid (_print_message tid msg).
Proof. unfold _print_message. apply renders_guard, renders_try, renders_body. Qed.

Lemma writes_only_frames P L : writes_only P L -> Forall P (frames_of L).
Proof.
  unfold writes_only, frames_of. induction 1 as [|x L Hx _ IH]; simpl; [constructor|].
  destruct x; simpl; auto.
Qed.

Lemma accepted_frames L :
  Forall (fun x => entry_failure x = None) L -> clean L.
Proof.
  intros H. eapply Forall_impl; [exact H|]. intros x Hx. unfold transport_failure. by rewrite Hx.
Qed.

Lemma render_batch_spec msgs : forall idx log w,
  exists w' log' r L k,
    render_batch tid idx msgs log w = (w', log', r)
    /\ extends tid w w' L
    /\ log' = log ++ zip (seq idx k) (firstn k msgs)
    /\ k <= length msgs
    /\ (r = Ret BatchDone -> k = length msgs)
    /\ (_is_task_cancelled tid w' = false -> shape BatchClosed r L)
    /\ (channel_accepts w ->
        exists exit body, r = Ret exit /\ Forall (fun g => render_type g = true) body
                          /\ frames_of L = body ++ batch_tail r).
Proof.
  induction msgs as [|msg rest IH]; intros idx log w; cbn [render_batch].
  - exists w, log, (Ret BatchDone), [], 0. simpl. rewrite app_nil_r.
    split; [done|]. split; [apply extends_refl|]. repeat split; try done.
    + intros _. left. constructor.
    + intros _. exists BatchDone, []. done.
  - destruct (_is_task_cancelled tid w) eqn:Hc.
    + destruct (handle_cancellation_extends true w) as (w1 & r1 & L1 & E1 & X1 & R1).
      rewrite E1.
      assert (Hflag : _is_task_cancelled tid w1 = true) by exact (extends_cancelled _ _ _ X1 Hc).
      destruct R1 as [-> | ->].
      * exists w1, log, (Ret BatchReturn), L1, 0. simpl. rewrite app_nil_r.
        split; [done|]. split; [exact X1|]. repeat split; try done; try lia.
        { intros Hf. congruence. }
        intros Hacc. destruct (handle_cancellation_accepted true w Hacc) as (w2 & L2 & E2 & X2 & F2).
        rewrite E1 in E2. injection E2 as <-.
        exists BatchReturn, []. split; [done|]. split; [constructor|].
        destruct X1 as (C1 & _), X2 as (C2 & _). rewrite C1 in C2.
        apply app_inv_head in C2. by rewrite C2.
      * exists w1, log, (Raise CancelledError), L1, 0. simpl. rewrite app_nil_r.
        split; [done|]. split; [exact X1|]. repeat split; try done; try lia.
        { intros Hf. congruence. }
        intros Hacc. destruct (handle_cancellation_accepted true w Hacc) as (w2 & L2 & E2 & _).
        rewrite E1 in E2. discriminate E2.
    + destruct (renders_message msg w) as (w1 & r1 & L1 & E1 & X1 & W1 & S1 & A1).
      rewrite E1. destruct r1 as [[|]|e].
      * destruct (IH (S idx) (log ++ [(idx, msg)]) w1)
          as (w2 & log2 & r2 & L2 & k & E2 & X2 & Hlog & Hk & Hdone & S2 & A2).
        exists w2, log2, r2, (L1 ++ L2), (S k). split; [exact E2|].
        split; [exact (extends_trans _ _ _ _ _ X1 X2)|].
        split; [rewrite Hlog, <- app_assoc; reflexivity|].
        split; [simpl; lia|]. split; [intros H; simpl; f_equal; auto|]. split.
        { intros Hf. destruct S1 as [C1|[? _]]; [|done]. apply shape_after; auto. }
        intros Hacc. destruct (A2 (extends_accepts _ _ _ X1 Hacc)) as (exit & body & -> & Hb & HF).
        exists exit, (frames_of L1 ++ body). split; [done|]. split.
        { apply Forall_app. split; [by apply writes_only_frames|done]. }
        unfold frames_of in *. by rewrite omap_app, HF, app_assoc.
      * exists w1, (log ++ [(idx, msg)]), (Ret BatchClosed), L1, 1.
        split; [done|]. split; [exact X1|]. repeat split; try done; simpl; try lia.
        { intros _. destruct S1 as [C1|(_ & L0 & x & -> & C0 & Hx)]; [by left|].
          right. split; [done|]. by exists L0, x. }
        intros Hacc. exists BatchClosed, (frames_of L1). split; [done|].
        split; [by apply writes_only_frames|]. by rewrite app_nil_r.
      * exists w1, (log ++ [(idx, msg)]), (Raise e), L1, 1.
        split; [done|]. split; [exact X1|]. repeat split; try done; simpl; try lia.
        { intros _. destruct S1 as [C1|[? _]]; [by left|done]. }
        intros Hacc. destruct (A1 Hacc) as [b Hb]. discriminate Hb.
Qed.

Lemma stream_body_spec st messages w :
  exists w' st' r L,
    stream_body tid st messages w = (w', st', r)
    /\ extends tid w w' L
    /\ printed_count st <= printed_count st'
    /\ (_is_task_cancelled tid w' = false ->
        shape (Some LoopBroke) r L
        /\ (r = Ret (Some LoopBroke) -> connection_closed st' = true))
    /\ (channel_accepts w ->
        exists o body, r = Ret o /\ Forall (fun g => render_type g = true) body
                       /\ frames_of L = body ++ body_tail r).
Proof.
  unfold stream_body. destruct (_is_task_cancelled tid w) eqn:Hc.
  { destruct (handle_cancellation_extends true w) as (w1 & r1 & L1 & E1 & X1 & R1).
    rewrite E1.
    assert (Hflag : _is_task_cancelled tid w1 = true) by exact (extends_cancelled _ _ _ X1 Hc).
    destruct R1 as [-> | ->].
    - exists w1, st, (Ret (Some LoopReturned)), L1.
      split; [done|]. split; [exact X1|]. split; [lia|]. split; [intros Hf; congruence|].
      intros Hacc. destruct (handle_cancellation_accepted true w Hacc) as (w2 & L2 & E2 & X2 & F2).
      rewrite E1 in E2. injection E2 as <-.
      exists (Some LoopReturned), []. split; [done|]. split; [constructor|].
      destruct X1 as (C1 & _), X2 as (C2 & _). rewrite C1 in C2.
      apply app_inv_head in C2. by rewrite C2.
    - exists w1, st, (Raise CancelledError), L1.
      split; [done|]. split; [exact X1|]. split; [lia|]. split; [intros Hf; congruence|].
      intros Hacc. destruct (handle_cancellation_accepted true w Hacc) as (w2 & L2 & E2 & _).
      rewrite E1 in E2. discriminate E2. }
  assert (Hskip : exists w' st' r L,
            (w, st, Ret None) = (w', st', r :> Result (option LoopExit))
            /\ extends tid w w' L
            /\ printed_count st <= printed_count st'
            /\ (_is_task_cancelled tid w' = false ->
                shape (Some LoopBroke) r L
                /\ (r = Ret (Some LoopBroke) -> connection_closed st' = true))
            /\ (channel_accepts w ->
                exists o body, r = Ret o /\ Forall (fun g => render_type g = true) body
                               /\ frames_of L = body ++ body_tail r)).
  { exists w, st, (Ret None), []. split; [done|]. split; [apply extends_refl|].
    split; [lia|]. split.
    - intros _. split; [left; constructor|done].
    - intros _. exists None, []. done. }
  destruct messages as [messages|]; [|exact Hskip].
  destruct (Nat.ltb_spec (printed_count st) (length messages)) as [Hlt|_]; [|exact Hskip].
  clear Hskip.
  destruct (render_batch_spec (drop (printed_count st) messages) (printed_count st)
              (print_log st) w)
    as (w1 & log1 & r1 & L1 & k & E1 & X1 & _ & _ & _ & S1 & A1).
  rewrite E1. destruct r1 as [[| |]|e].
  - (* the batch ran to its end *)
    destruct (has_flush w1) eqn:Hfl.
    + destruct (response_flush_spec w1) as [(w2 & -> & X2)|(w2 & e & -> & X2)].
      * pose proof (extends_trans _ _ _ _ _ X1 X2) as X12.
        eexists w2, _, (Ret None), _. split; [reflexivity|]. split; [exact X12|].
        split; [simpl; lia|]. split.
        { intros Hf. split; [|done].
          destruct (S1 (extends_not_cancelled _ _ _ X2 Hf)) as [C1|[? _]]; [|done].
          left. apply clean_app; [done|]. repeat constructor. }
        intros Hacc. destruct (A1 Hacc) as (exit & body & _ & Hb & HF).
        exists None, body. split; [done|]. split; [done|].
        unfold frames_of in *. rewrite omap_app, HF. simpl. by rewrite !app_nil_r.
      * pose proof (extends_trans _ _ _ _ _ X1 X2) as X12.
        assert (Hno : channel_accepts w -> False).
        { intros Hacc. destruct X12 as (_ & _ & _ & _ & _ & A). specialize (A Hacc).
          apply Forall_app in A as [_ A]. apply Forall_cons in A as [A _]. discriminate A. }
        destruct e as [|ty m].
        { eexists w2, _, (Raise CancelledError), _. split; [reflexivity|].
          split; [exact X12|]. split; [simpl; lia|]. split.
          - intros Hf. split; [|done].
            destruct (S1 (extends_not_cancelled _ _ _ X2 Hf)) as [C1|[? _]]; [|done].
            left. apply clean_app; [done|]. repeat constructor.
          - intros Hacc. destruct (Hno Hacc). }
        destruct (_is_connection_error ty m) eqn:Hconn.
        { eexists w2, _, (Ret (Some LoopBroke)), _. split; [reflexivity|].
          split; [exact X12|]. split; [simpl; lia|]. split.
          - intros Hf. split; [|done].
            destruct (S1 (extends_not_cancelled _ _ _ X2 Hf)) as [C1|[? _]]; [|done].
            right. split; [done|]. exists L1, (FlushFailed (Exception ty m)).
            repeat split; try done.
          - intros Hacc. destruct (Hno Hacc). }
        { eexists w2, _, (Raise (Exception ty m)), _. split; [reflexivity|].
          split; [exact X12|]. split; [simpl; lia|]. split.
          - intros Hf. split; [|done].
            destruct (S1 (extends_not_cancelled _ _ _ X2 Hf)) as [C1|[? _]]; [|done].
            left. apply clean_app; [done|]. constructor; [|constructor].
            unfold transport_failure. simpl. exact Hconn.
          - intros Hacc. destruct (Hno Hacc). }
    + eexists w1, _, (Ret None), L1. split; [reflexivity|]. split; [exact X1|].
      split; [simpl; lia|]. split.
      { intros Hf. split; [|done]. destruct (S1 Hf) as [C1|[? _]]; [by left|done]. }
      intros Hacc. destruct (A1 Hacc) as (exit & body & _ & Hb & HF).
      exists None, body. split; [done|]. split; [done|]. simpl in HF. simpl. exact HF.
  - (* a message could not be written *)
    eexists w1, _, (Ret (Some LoopBroke)), L1. split; [reflexivity|]. split; [exact X1|].
    split; [simpl; lia|]. split.
    { intros Hf. split; [|done]. destruct (S1 Hf) as [C1|(_ & L0 & x & -> & C0 & Hx)]; [by left|].
      right. split; [done|]. by exists L0, x. }
    intros Hacc. destruct (A1 Hacc) as (exit & body & _ & Hb & HF).
    exists (Some LoopBroke), body. split; [done|]. split; [done|]. exact HF.
  - (* cancellation served inside the batch *)
    eexists w1, _, (Ret (Some LoopReturned)), L1. split; [reflexivity|]. split; [exact X1|].
    split; [simpl; lia|]. split.
    { intros Hf. split; [|done]. destruct (S1 Hf) as [C1|[? _]]; [by left|done]. }
    intros Hacc. destruct (A1 Hacc) as (exit & body & _ & Hb & HF).
    exists (Some LoopReturned), body. split; [done|]. split; [done|]. exact HF.
  - eexists w1, _, (Raise e), L1. split; [reflexivity|]. split; [exact X1|].
    split; [simpl; lia|]. split.
    { intros Hf. split; [|done]. destruct (S1 Hf) as [C1|[? _]]; [by left|done]. }
    intros Hacc. destruct (A1 Hacc) as (exit & body & Hr & _). discriminate Hr.
Qed.

Lemma stream_loop_spec evs fin : forall st w,
  exists w' st' r L,
    stream_loop tid st evs fin w = (w', st', r)
    /\ extends tid w w' L
    /\ printed_count st <= printed_count st'
    /\ (_is_task_cancelled tid w' = false ->
        shape LoopBroke r L /\ (r = Ret LoopBroke -> connection_closed st' = true))
    /\ (channel_accepts w ->
        exists body, Forall (fun g => render_type g = true) body
                     /\ frames_of L = body ++ loop_tail r).
Proof.
  induction evs as [|ev rest IH]; intros st w; cbn [stream_loop].
  - assert (X : extends tid w (arrive tid match fin with Exhausted c | Fails c _ => c end w) [])
      by apply extends_arrive.
    destruct fin as [c|c e]; eexists _, st, _, []; (split; [reflexivity|]);
      (split; [exact X|]); (split; [lia|]); (split;
        [intros _; split; [left; constructor|done]
        |intros Hacc; exists []; split; [constructor|done]]).
  - pose proof (extends_arrive w (chunk_cancel ev)) as X0.
    destruct (stream_body_spec st (chunk_messages ev) (arrive tid (chunk_cancel ev) w))
      as (w1 & st1 & r1 & L1 & E1 & X1 & P1 & S1 & A1).
    rewrite E1. pose proof (extends_trans _ _ _ _ _ X0 X1) as X01. simpl in X01.
    pose proof (extends_accepts _ _ _ X0) as Hacc0.
    destruct r1 as [[exit|]|e].
    + exists w1, st1, (Ret exit), L1. split; [done|]. split; [exact X01|]. split; [lia|].
      split.
      * intros Hf. destruct (S1 Hf) as [Sh Hcl]. split.
        { destruct Sh as [C|(Hr & L0 & x & -> & C0 & Hx)]; [by left|].
          right. injection Hr as ->. split; [done|]. by exists L0, x. }
        intros Hr. injection Hr as ->. by apply Hcl.
      * intros Hacc. destruct (A1 (Hacc0 Hacc)) as (o & body & _ & Hb & HF).
        exists body. split; [done|]. rewrite HF. by destruct exit.
    + destruct (IH st1 w1) as (w2 & st2 & r2 & L2 & E2 & X2 & P2 & S2 & A2).
      exists w2, st2, r2, (L1 ++ L2). split; [exact E2|].
      split; [exact (extends_trans _ _ _ _ _ X01 X2)|]. split; [lia|]. split.
      * intros Hf. destruct (S2 Hf) as [Sh2 Hcl2]. split; [|exact Hcl2].
        destruct (S1 (extends_not_cancelled _ _ _ X2 Hf)) as [[C1|[? _]] _]; [|done].
        by apply shape_after.
      * intros Hacc. destruct (A1 (Hacc0 Hacc)) as (o & body1 & _ & Hb1 & HF1).
        destruct (A2 (extends_accepts _ _ _ X01 Hacc)) as (body2 & Hb2 & HF2).
        exists (body1 ++ body2). split; [by apply Forall_app|].
        unfold frames_of in *. rewrite omap_app, HF1, HF2. simpl.
        by rewrite app_nil_r, app_assoc.
    + exists w1, st1, (Raise e), L1. split; [done|]. split; [exact X01|]. split; [lia|].
      split.
      * intros Hf. destruct (S1 Hf) as [Sh Hcl]. split; [|done].
        destruct Sh as [C|[? _]]; [by left|done].
      * intros Hacc. destruct (A1 (Hacc0 Hacc)) as (o & body & Hr & _). discriminate Hr.
Qed.

(** A transport failure in a history of the stopping shape is its last
    entry, and the step stopped. *)
Lemma shape_failure_last {A} (stop : A) r L before x after :
  shape stop r L -> L = before ++ x :: after -> transport_failure x = true ->
  after = [] /\ r = Ret stop.
Proof.
  intros [C|(-> & L0 & y & -> & C0 & Hy)] HL Hx.
  - subst L. apply Forall_app in C as [_ C]. apply Forall_cons in C as [C _]. congruence.
  - destruct after as [|a after _] using rev_ind; [done|].
    rewrite app_comm_cons, app_assoc in HL. apply app_inj_tail in HL as [HL _].
    subst L0. apply Forall_app in C0 as [_ C]. apply Forall_cons in C as [C _]. congruence.
Qed.

Lemma zip_seq_app {A} (l1 l2 : list A) i :
  zip (seq i (length l1)) l1 ++ zip (seq (i + length l1) (length l2)) l2
  = zip (seq i (length (l1 ++ l2))) (l1 ++ l2).
Proof.
  revert i. induction l1 as [|a l1 IH]; intros i; simpl.
  - by rewrite Nat.add_0_r.
  - f_equal. rewrite <- IH. do 3 f_equal. lia.
Qed.

Lemma zip_seq_firstn {A} (l : list A) i k :
  k <= length l -> zip (seq i k) (firstn k l) = zip (seq i (length (firstn k l))) (firstn k l).
Proof. intros H. by rewrite length_take, Nat.min_l. Qed.

(** What one pass of the loop body does to the cursor and to the log of
    rendered messages. *)
Lemma stream_body_log st messages w :
  let news := drop (printed_count st) (default [] messages) in
  let res := stream_body tid st messages w in
  exists k,
    k <= length news
    /\ print_log res.1.2 = print_log st ++ zip (seq (printed_count st) k) (firstn k news)
    /\ (res.2 = Ret None ->
        k = length news
        /\ printed_count res.1.2 = Nat.max (printed_count st) (length (default [] messages))).
Proof.
  intros news res. subst news res. unfold stream_body.
  destruct (_is_task_cancelled tid w).
  { exists 0. simpl. rewrite app_nil_r.
    destruct (_handle_task_cancellation tid true w) as [w1 [|e]]; simpl;
      (split; [lia|]); (split; [done|]); intros H; discriminate H. }
  destruct messages as [messages|]; simpl.
  2:{ exists 0. rewrite drop_nil. simpl. rewrite app_nil_r. split; [lia|]. split; [done|].
      intros _. split; [done|lia]. }
  destruct (Nat.ltb_spec (printed_count st) (length messages)) as [Hlt|Hge].
  2:{ exists 0. simpl. rewrite app_nil_r. split; [lia|]. split; [done|].
      intros _. rewrite length_drop. split; lia. }
  destruct (render_batch_spec (drop (printed_count st) messages) (printed_count st)
              (print_log st) w)
    as (w1 & log1 & r1 & L1 & k & E1 & _ & Hlog & Hk & Hdone & _).
  rewrite E1. exists k. split; [exact Hk|].
  destruct r1 as [[| |]|e]; simpl.
  - specialize (Hdone eq_refl).
    destruct (has_flush w1); [destruct (response_flush tid w1) as [w2 [|[|ty m]]];
                              [| |destruct (_is_connection_error ty m)]|]; simpl;
      (split; [exact Hlog|]); intros H; try discriminate H; (split; [exact Hdone|lia]).
  - split; [exact Hlog|]. intros H; discriminate H.
  - split; [exact Hlog|]. intros H; discriminate H.
  - split; [exact Hlog|]. intros H; discriminate H.
Qed.

Lemma prefix_firstn (S T : list Message) n :
  S `prefix_of` T -> n <= length S -> firstn n S = firstn n T.
Proof. intros [k ->] H. by rewrite take_app_le. Qed.

Lemma stream_body_keeps_log st S messages w :
  log_of S st ->
  S `prefix_of` default S messages ->
  let T := default S messages in
  let res := stream_body tid st messages w in
  (res.2 = Ret None -> log_of T res.1.2)
  /\ exists n, n <= length T /\ print_log res.1.2 = zip (seq 0 n) (firstn n T).
Proof.
  intros [Hpc Hlog] Hpre T res.
  destruct (stream_body_log st messages w) as (k & Hk & Hl & Hnone).
  fold res in Hl, Hnone.
  assert (Hnews : drop (printed_count st) (default [] messages) = drop (length S) T).
  { rewrite Hpc. subst T. destruct messages as [m|]; simpl; [done|].
    by rewrite drop_all, drop_nil. }
  rewrite Hnews in Hk, Hl, Hnone.
  destruct Hpre as [ext Hext]. fold T in Hext.
  assert (Hd : drop (length S) T = ext) by (rewrite Hext; apply drop_app_length).
  rewrite Hd in Hk, Hl, Hnone.
  assert (Hfull : print_log res.1.2 = zip (seq 0 (length S + k)) (firstn (length S + k) T)).
  { rewrite Hl, Hlog, Hpc.
    transitivity (zip (seq 0 (length (S ++ firstn k ext))) (S ++ firstn k ext)).
    - rewrite <- zip_seq_app. simpl. by rewrite (zip_seq_firstn ext (length S) k Hk).
    - rewrite length_app, length_take, Nat.min_l by done.
      rewrite Hext. by rewrite take_app_add. }
  split.
  - intros Hr. destruct (Hnone Hr) as [-> Hpc']. unfold log_of.
    assert (Hlen : length T = length S + length ext) by (rewrite Hext; apply length_app).
    split.
    + rewrite Hpc', Hpc. destruct messages as [m|]; simpl in *; subst T; simpl in *; lia.
    + rewrite Hfull, <- Hlen, firstn_all. done.
  - exists (length S + k). split; [|exact Hfull].
    rewrite Hext, length_app. lia.
Qed.

Lemma last_default_cons (S m : list Message) l :
  default S (last (m :: l)) = default m (last l).
Proof. rewrite last_cons. by destruct (last l). Qed.

Lemma sorted_prefix_last (S : list Message) l :
  StronglySorted (fun a b : list Message => a `prefix_of` b) (S :: l) ->
  S `prefix_of` default S (last l).
Proof.
  intros H. destruct (last l) as [t|] eqn:E; simpl; [|done].
  apply StronglySorted_inv in H as [_ H]. rewrite Forall_forall in H.
  apply H. by apply last_Some_elem_of.
Qed.

Lemma snapshots_cons ev rest :
  snapshots (ev :: rest)
  = match chunk_messages ev with
    | Some m => m :: snapshots rest
    | None => snapshots rest
    end.
Proof. reflexivity. Qed.

Lemma stream_loop_log evs fin : forall st S w,
  log_of S st ->
  StronglySorted (fun a b : list Message => a `prefix_of` b) (S :: snapshots evs) ->
  let T := default S (last (snapshots evs)) in
  exists n, n <= length T
            /\ print_log (stream_loop tid st evs fin w).1.2 = zip (seq 0 n) (firstn n T).
Proof.
  induction evs as [|ev rest IH]; intros st S w Hinv Hsorted; cbn [stream_loop].
  - simpl. destruct Hinv as [_ Hlog]. exists (length S). split; [done|].
    destruct fin; simpl; by rewrite firstn_all.
  - set (w0 := arrive tid (chunk_cancel ev) w).
    assert (Hsnap : exists S1,
              S1 = default S (chunk_messages ev)
              /\ S `prefix_of` S1
              /\ StronglySorted (fun a b : list Message => a `prefix_of` b)
                   (S1 :: snapshots rest)
              /\ default S (last (snapshots (ev :: rest))) = default S1 (last (snapshots rest))).
    { rewrite snapshots_cons in *.
      destruct (chunk_messages ev) as [m|]; simpl.
      - exists m. split; [done|].
        pose proof Hsorted as Hs. apply StronglySorted_inv in Hs as [Hs1 Hall].
        apply Forall_cons in Hall as [Hm _]. split; [done|]. split; [done|].
        apply last_default_cons.
      - exists S. done. }
    destruct Hsnap as (S1 & HS1 & Hp & Hs1 & HT). rewrite HT.
    rewrite HS1 in Hp.
    destruct (stream_body_keeps_log st S (chunk_messages ev) w0 Hinv Hp) as [Hcont Hexit].
    rewrite <- HS1 in Hcont, Hexit.
    pose proof (sorted_prefix_last _ _ Hs1) as Hlast.
    destruct (stream_body tid st (chunk_messages ev) w0) as [[w1 st1] r1] eqn:E1.
    simpl in Hcont, Hexit.
    destruct r1 as [[exit|]|e].
    + simpl. destruct Hexit as (n & Hn & Hlog). exists n.
      pose proof (prefix_length _ _ Hlast). split; [lia|].
      by rewrite Hlog, (prefix_firstn _ _ n Hlast Hn).
    + exact (IH st1 S1 w1 (Hcont eq_refl) Hs1).
    + simpl. destruct Hexit as (n & Hn & Hlog). exists n.
      pose proof (prefix_length _ _ Hlast). split; [lia|].
      by rewrite Hlog, (prefix_firstn _ _ n Hlast Hn).
Qed.

(** C2.  The Delivery Cursor never decreases from one iteration to the
    next, nor over any run of the loop; and for snapshots that each
    extend the previous one, the
    messages handed to rendering are, in order, the messages 0, 1, ...,
    n-1 of the transcript, each exactly once. *)
Theorem delivery_cursor_monotone :
  (forall st messages w,
     printed_count st <= printed_count (stream_body tid st messages w).1.2)
  /\ (forall st evs fin w,
        printed_count st <= printed_count (stream_loop tid st evs fin w).1.2)
  /\ (forall evs fin w,
        StronglySorted (fun a b : list Message => a `prefix_of` b) (snapshots evs) ->
        exists n, n <= length (final_transcript evs)
                  /\ print_log (stream_loop tid initial_state evs fin w).1.2
                     = zip (seq 0 n) (firstn n (final_transcript evs))).
Proof.
  split; [|split].
  - intros st messages w.
    destruct (stream_body_spec st messages w) as (w' & st' & r & L & E & _ & H & _).
    by rewrite E.
  - intros st evs fin w.
    destruct (stream_loop_spec evs fin st w) as (w' & st' & r & L & E & _ & H & _).
    by rewrite E.
  - intros evs fin w Hs.
    apply (stream_loop_log evs fin initial_state [] w).
    + split; reflexivity.
    + constructor; [exact Hs|]. apply Forall_forall. intros x _. apply prefix_nil.
Qed.





Lemma report_failure_extends ty msg w :
  exists w' r L, report_stream_failure tid ty msg w = (w', r)
                 /\ extends tid w w' L
                 /\ (r = Ret tt \/ r = Raise CancelledError).
Proof.
  unfold report_stream_failure, try_except, bind.
  destruct (safe_write_cases (stream_error_text ty msg) "error" ANSWER w)
    as (w1 & r1 & L1 & -> & H1 & _ & _).
  destruct r1 as [b1|[|ty1 m1]].
  - destruct (safe_write_cases EmptyString "end" STREAM_END w1)
      as (w2 & r2 & L2 & -> & H2 & _ & _).
    pose proof (extends_trans _ _ _ _ _ H1 H2) as H12.
    destruct r2 as [b2|[|ty2 m2]]; unfold ret; eexists _, _, _; eauto.
  - eexists _, _, _; eauto.
  - unfold ret. eexists _, _, _; eauto.
Qed.

Lemma report_failure_accepted ty msg w :
  channel_accepts w ->
  exists w' L, report_stream_failure tid ty msg w = (w', Ret tt)
               /\ extends tid w w' L
               /\ frames_of L = [error_frame ty msg; end_frame].
Proof.
  intros Hacc. unfold report_stream_failure, try_except, bind.
  destruct (safe_write_accepted (stream_error_text ty msg) "error" ANSWER w Hacc)
    as (w1 & L1 & -> & H1 & F1).
  destruct (safe_write_accepted EmptyString "end" STREAM_END w1
              (extends_accepts _ _ _ H1 Hacc)) as (w2 & L2 & -> & H2 & F2).
  exists w2, (L1 ++ L2). split; [reflexivity|]. split; [exact (extends_trans _ _ _ _ _ H1 H2)|].
  unfold frames_of in *. by rewrite omap_app, F1, F2.
Qed.

Lemma extends_inj w w' L L' : extends tid w w' L -> extends tid w w' L' -> L = L'.
Proof. intros (C & _) (C' & _). rewrite C in C'. by apply app_inv_head in C'. Qed.

(** The handlers and the [finally] block, given how the loop ended. *)
Lemma stream_response_spec rq stream w :
  task_id rq = tid ->
  forall w1 st1 r1,
    stream_loop tid initial_state (chunks stream) (ending stream) w = (w1, st1, r1) ->
    exists w2 st2 r2 L2,
      _stream_agent_response rq stream w = (save_record rq w2, st2, r2)
      /\ extends tid w1 w2 L2
      /\ ((exists x, r1 = Ret x) -> w2 = w1 /\ st2 = st1 /\ r2 = Ret tt)
      /\ (channel_accepts w1 -> frames_of L2 = handler_frames tid r1 w1).
Proof.
  intros Htid w1 st1 r1 E. unfold _stream_agent_response. rewrite Htid, E.
  destruct r1 as [x|[|ty msg]].
  - exists w1, st1, (Ret tt), []. split; [done|]. split; [apply extends_refl|].
    split; [done|done].
  - unfold try_except.
    destruct (handle_cancellation_extends (_is_task_cancelled tid w1) w1)
      as (w2 & r2 & L2 & E2 & X2 & R2).
    rewrite E2.
    assert (Hfr : channel_accepts w1 ->
                  frames_of L2 = [notice_frame (_is_task_cancelled tid w1); end_frame]).
    { intros Hacc.
      destruct (handle_cancellation_accepted (_is_task_cancelled tid w1) w1 Hacc)
        as (w3 & L3 & E3 & X3 & F3).
      rewrite E2 in E3. injection E3 as <- _. by rewrite (extends_inj _ _ _ _ X2 X3). }
    destruct R2 as [-> | ->]; eexists w2, st1, _, L2;
      (split; [reflexivity|]); (split; [exact X2|]); (split; [intros [? ?]; done|exact Hfr]).
  - destruct (_is_connection_error ty msg) eqn:Hconn.
    + exists w1, (close_connection st1), (Ret tt), []. split; [done|].
      split; [apply extends_refl|]. split; [intros [? ?]; done|].
      intros _. simpl. by rewrite Hconn.
    + destruct (report_failure_extends ty msg w1) as (w2 & r2 & L2 & E2 & X2 & R2).
      rewrite E2. exists w2, st1, r2, L2. split; [done|]. split; [exact X2|].
      split; [intros [? ?]; done|].
      intros Hacc. simpl. rewrite Hconn.
      destruct (report_failure_accepted ty msg w1 Hacc) as (w3 & L3 & E3 & X3 & F3).
      rewrite E2 in E3. injection E3 as <- _. by rewrite (extends_inj _ _ _ _ X2 X3).
Qed.

End DeliveryFacts.

Section PipelineFacts.

Import PyStr DeepAgent Delivery.

Lemma save_record_channel rq w : channel (save_record rq w) = channel w.
Proof. unfold save_record. by destruct (_is_task_cancelled _ w). Qed.

Lemma save_record_records rq w :
  user_records (save_record rq w)
  = if _is_task_cancelled (task_id rq) w then user_records w
    else user_records w ++ [exchange_record rq w].
Proof. unfold save_record. by destruct (_is_task_cancelled _ w). Qed.

Lemma save_record_flag rq w tid :
  _is_task_cancelled tid (save_record rq w) = _is_task_cancelled tid w.
Proof. unfold save_record. by destruct (_is_task_cancelled (task_id rq) w). Qed.

Lemma save_record_answer rq w : t02_answer_data (save_record rq w) = t02_answer_data w.
Proof. unfold save_record. by destruct (_is_task_cancelled _ w). Qed.


(** C6, as amended.  A write or flush of [_safe_write] that fails with a
    connection error is the last thing [_safe_write] does, and it returns
    [False] instead of raising.  When such a failure happens in the
    streaming loop of a task that is not cancelled, it is the last entry
    of the channel history: no error frame and no other frame is written
    or attempted after it, the loop breaks with [connection_closed] set,
    and [_stream_agent_response] returns normally. *)
Theorem transport_failure_ends_stream :
  (forall tid c mt dt w before x after,
     channel (_safe_write tid c mt dt w).1 = channel w ++ before ++ x :: after ->
     transport_failure x = true ->
     after = [] /\ (_safe_write tid c mt dt w).2 = Ret false)
  /\ (forall rq stream w before x after,
        let looped := stream_loop (task_id rq) initial_state (chunks stream) (ending stream) w in
        let res := _stream_agent_response rq stream w in
        _is_task_cancelled (task_id rq) looped.1.1 = false ->
        channel looped.1.1 = channel w ++ before ++ x :: after ->
        transport_failure x = true ->
        after = []
        /\ looped.2 = Ret LoopBroke
        /\ channel res.1.1 = channel looped.1.1
        /\ res.2 = Ret tt
        /\ connection_closed res.1.2 = true).
Proof.
  split.
  - intros tid c mt dt w before x after Hch Hx.
    destruct (safe_write_cases tid c mt dt w) as (w' & r & L & E & X & _ & C).
    rewrite E in *. cbn [fst snd] in *.
    destruct X as (HC & _). rewrite HC in Hch. apply app_inv_head in Hch.
    apply (shape_failure_last false r L before x after); [|done|done].
    destruct C as [(_ & _ & C)|(L0 & y & e & -> & Hy & C0 & [[Hc ->]|[Hc ->]])].
    + by left.
    + right. split; [done|]. exists L0, y. repeat split; try done.
      unfold transport_failure. by rewrite Hy.
    + left. apply clean_app; [done|]. constructor; [|constructor].
      unfold transport_failure. by rewrite Hy.
  - intros rq stream w before x after looped res Hflag Hch Hx. subst looped res.
    destruct (stream_loop_spec (task_id rq) (chunks stream) (ending stream) initial_state w)
      as (w1 & st1 & r1 & L1 & E1 & X1 & _ & S1 & _).
    destruct (stream_response_spec (task_id rq) rq stream w eq_refl w1 st1 r1 E1)
      as (w2 & st2 & r2 & L2 & E2 & X2 & R2 & _).
    rewrite E1 in *. rewrite E2. cbn [fst snd] in *.
    destruct (S1 Hflag) as [Sh Hcl].
    destruct X1 as (HC & _). rewrite HC in Hch. apply app_inv_head in Hch.
    destruct (shape_failure_last LoopBroke r1 L1 before x after Sh Hch Hx) as [-> ->].
    destruct (R2 ltac:(eauto)) as (-> & -> & ->).
    rewrite save_record_channel. repeat split; auto.
Qed.

Lemma run_agent_unfold rq stream w :
  truthy_id (datasource_id rq) = true ->
  exists w3 w4 st r L,
    _stream_agent_response rq stream (started rq w) = (w3, st, r)
    /\ extends (task_id rq) w3 w4 L
    /\ (run_agent rq (SetupOk stream) w).1 = retire_task (task_id rq) w4.
Proof.
  intros H. unfold run_agent. rewrite H. cbn [negb].
  unfold try_finally, try_except2, bind, modify. fold (started rq w).
  destruct (_stream_agent_response rq stream (started rq w)) as [[w3 st] r] eqn:E.
  destruct r as [u|[|ty msg]].
  - exists w3, w3, st, (Ret u), []. split; [done|]. split; [apply extends_refl|]. done.
  - unfold get, try_except.
    destruct (handle_cancellation_extends (task_id rq) (_is_task_cancelled (task_id rq) w3) w3)
      as (w4 & r4 & L4 & E4 & X4 & R4).
    rewrite E4. exists w3, w4, st, (Raise CancelledError), L4. split; [done|].
    split; [exact X4|]. by destruct R4 as [-> | ->].
  - destruct (_is_connection_error ty msg).
    + exists w3, w3, st, (Raise (Exception ty msg)), []. split; [done|].
      split; [apply extends_refl|]. done.
    + unfold try_except.
      destruct (safe_write_cases (task_id rq) (setup_error_text msg) "error" ANSWER w3)
        as (w4 & r4 & L4 & E4 & X4 & _).
      rewrite E4. exists w3, w4, st, (Raise (Exception ty msg)), L4. split; [done|].
      split; [exact X4|]. by destruct r4 as [b|[|ty4 m4]].
Qed.

Lemma retire_task_records tid w : user_records (retire_task tid w) = user_records w.
Proof. unfold retire_task. by destruct (running_tasks w !! tid). Qed.

(** C7, as amended.  For every run that reaches the streaming stage, the
    record of the exchange (conversation id, question, the rendered text
    blocks in order, data source) is stored when the stream ends if and
    only if the task's cancelled flag is not set at that moment, whether
    the stream ended normally, with a runtime error or with a closed
    connection; and in every case the registry entry of the task is gone
    when [run_agent] returns. *)
Theorem exchange_saved_unless_cancelled rq stream w :
  truthy_id (datasource_id rq) = true ->
  let streamed := (_stream_agent_response rq stream (started rq w)).1.1 in
  let final := (run_agent rq (SetupOk stream) w).1 in
  user_records final
  = (if _is_task_cancelled (task_id rq) streamed then user_records w
     else user_records w ++ [exchange_record rq streamed])
  /\ running_tasks final !! task_id rq = None.
Proof.
  intros Hds streamed final. subst streamed final.
  destruct (run_agent_unfold rq stream w Hds) as (w3 & w4 & st & r & L & E & X & ->).
  split; [|apply retire_task_lookup].
  rewrite retire_task_records. destruct X as (_ & -> & _).
  destruct (stream_loop_spec (task_id rq) (chunks stream) (ending stream) initial_state
              (started rq w)) as (w1 & st1 & r1 & L1 & E1 & X1 & _).
  destruct (stream_response_spec (task_id rq) rq stream (started rq w) eq_refl w1 st1 r1 E1)
    as (w2 & st2 & r2 & L2 & E2 & X2 & _).
  rewrite E2 in E. injection E as <- _ _. rewrite E2. cbn [fst].
  rewrite save_record_records, save_record_flag.
  assert (Hrec : user_records w2 = user_records w).
  { destruct X2 as (_ & -> & _), X1 as (_ & -> & _). reflexivity. }
  rewrite Hrec. destruct (_is_task_cancelled (task_id rq) w2); [done|].
  unfold exchange_record. by rewrite save_record_answer.
Qed.

End PipelineFacts.

(** * Concrete runs *)



(** C2, witness: the four growing snapshots of the demonstration stream. *)
Lemma delivery_cursor_monotone_witness :
  exists n,
    n <= 4
    /\ DeepAgent.print_log
         (DeepAgent.stream_loop "u1" DeepAgent.initial_state
            (DeepAgent.chunks Delivery.demo_stream) (DeepAgent.Exhausted false)
            Delivery.demo_started).1.2
       = zip (seq 0 n)
           (firstn n [Delivery.demo_human; Delivery.demo_agent; Delivery.demo_tool;
                      Delivery.demo_done]).
Proof.
  apply (proj2 (proj2 (delivery_cursor_monotone "u1")) (DeepAgent.chunks Delivery.demo_stream)
           (DeepAgent.Exhausted false) Delivery.demo_started).
  unfold Delivery.snapshots. simpl.
  repeat (apply SSorted_cons;
          [|repeat (apply List.Forall_cons; [eexists; reflexivity|]); apply List.Forall_nil]).
  apply SSorted_nil.
Defined.


(** C6, witness: the write of the question fails with a broken pipe. *)
Lemma transport_failure_ends_stream_witness :
  let res := DeepAgent._stream_agent_response Delivery.demo_request Delivery.demo_stream
               Delivery.dead_world in
  DeepAgent.frames res.1.1 = [] /\ res.2 = DeepAgent.Ret tt
  /\ DeepAgent.connection_closed res.1.2 = true.
Proof.
  destruct (proj2 transport_failure_ends_stream Delivery.demo_request Delivery.demo_stream
              Delivery.dead_world []
              (DeepAgent.WriteFailed
                 (DeepAgent._create_response
                    (DeepAgent._format_user_message "list customers") "continue"
                    DeepAgent.ANSWER)
                 Delivery.broken_pipe) []
              ltac:(vm_compute; reflexivity) ltac:(vm_compute; reflexivity)
              ltac:(vm_compute; reflexivity)) as (_ & _ & Hch & Hr & Hc).
  split; [|split; [exact Hr|exact Hc]].
  unfold DeepAgent.frames. rewrite Hch. vm_compute. reflexivity.
Defined.

(** C6, counterexample: the agent runtime fails and the client is gone.
    The write of the error frame fails with a broken pipe; the handler
    still attempts the [end] frame, and the run ends with
    [connection_closed] unset. *)
Lemma failed_error_write_is_followed_by_another_write :
  let res := DeepAgent._stream_agent_response Delivery.demo_request
               {| DeepAgent.chunks := [];
                  DeepAgent.ending := DeepAgent.Fails false (DeepAgent.Exception "ValueError" "boom") |}
               Delivery.dead_world in
  DeepAgent.channel res.1.1
  = [DeepAgent.WriteFailed (Delivery.error_frame "ValueError" "boom") Delivery.broken_pipe;
     DeepAgent.WriteFailed Delivery.end_frame Delivery.broken_pipe]
  /\ Delivery.transport_failure
       (DeepAgent.WriteFailed (Delivery.error_frame "ValueError" "boom") Delivery.broken_pipe)
     = true
  /\ res.2 = DeepAgent.Ret tt
  /\ DeepAgent.connection_closed res.1.2 = false.
Proof. vm_compute. repeat split; reflexivity. Qed.

(** C7, witness: the demonstration run stores its exchange and retires. *)
Lemma exchange_saved_unless_cancelled_witness :
  length (DeepAgent.user_records
            (DeepAgent.run_agent Delivery.demo_request
               (DeepAgent.SetupOk Delivery.demo_stream) Delivery.demo_world).1) = 1.
Proof.
  rewrite (proj1 (exchange_saved_unless_cancelled Delivery.demo_request Delivery.demo_stream
                    Delivery.demo_world eq_refl)).
  vm_compute. reflexivity.
Defined.

(** C7, counterexample: the data source does not exist, so creating the
    agent fails before streaming.  No cancel request arrives, the run ends
    with one error frame, and no record of the exchange is stored. *)
Lemma setup_failure_stores_no_record :
  let res := DeepAgent.run_agent Delivery.demo_request
               (DeepAgent.SetupFails "ValueError" "数据源 7 不存在") Delivery.demo_world in
  res.2 = DeepAgent.Ret tt
  /\ DeepAgent.user_records res.1 = []
  /\ map DeepAgent.messageType (DeepAgent.frames res.1) = ["error"]
  /\ DeepAgent.get_running_tasks res.1 = [].
Proof. vm_compute. repeat split; reflexivity. Qed.

(** * Further properties: registry, classification, rendering *)

Section RegistryLifecycle.

Import PyStr DeepAgent Delivery Further.

Lemma running_iff tid w :
  tid ∈ get_running_tasks w <-> is_Some (running_tasks w !! tid).
Proof.
  destruct (running_tasks w !! tid) as [b|] eqn:E.
  - split; [eauto|]. intros _. unfold get_running_tasks.
    apply list_elem_of_fmap. exists (tid, b). split; [done|]. by apply elem_of_map_to_list.
  - split; [|by intros [? ?]]. intros H. by apply not_running_iff in E.
Qed.

(** X1.  [cancel_task] answers whether the task is registered; if it is,
    its flag then reads cancelled, and if it is not, the registry is left
    as it was.  No other task's flag changes and the set of running tasks
    stays the same. *)
Theorem cancel_task_marks_only_its_task tid w :
  ((cancel_task tid w).2 = true <-> tid ∈ get_running_tasks w)
  /\ _is_task_cancelled tid (cancel_task tid w).1 = (cancel_task tid w).2
  /\ ((cancel_task tid w).2 = false -> (cancel_task tid w).1 = w)
  /\ (forall t, t <> tid ->
        _is_task_cancelled t (cancel_task tid w).1 = _is_task_cancelled t w)
  /\ (forall t, t ∈ get_running_tasks (cancel_task tid w).1 <-> t ∈ get_running_tasks w).
Proof.
  rewrite running_iff. unfold cancel_task, _is_task_cancelled.
  destruct (running_tasks w !! tid) as [b|] eqn:E; simpl.
  - rewrite lookup_insert_eq. split; [split; eauto|]. split; [done|]. split; [done|].
    split.
    + intros t Ht. by rewrite lookup_insert_ne.
    + intros t. rewrite !running_iff. simpl.
      destruct (decide (t = tid)) as [->|Hne].
      * rewrite lookup_insert_eq, E. split; eauto.
      * by rewrite lookup_insert_ne.
  - rewrite E. split; [split; [done|by intros [? ?]]|]. done.
Qed.

(** X2.  A run starts uncancelled whatever was requested for an earlier
    run of the same task id, because registration overwrites the entry;
    and once a [run_agent] that registered the id has returned,
    [cancel_task] for that id answers [False] and changes nothing, also
    when another run had registered the same id in the meantime. *)
Theorem registration_supersedes rq w :
  _is_task_cancelled (task_id rq) (started rq (cancel_task (task_id rq) w).1) = false
  /\ forall setup,
       truthy_id (datasource_id rq) = true ->
       cancel_task (task_id rq) (run_agent rq setup w).1 = ((run_agent rq setup w).1, false).
Proof.
  split.
  - unfold started, register_task, _is_task_cancelled. simpl. by rewrite lookup_insert_eq.
  - intros setup H. destruct (run_agent_retires rq setup w H) as [w1 ->].
    unfold cancel_task. by rewrite retire_task_lookup.
Qed.

End RegistryLifecycle.

(** X2, witness. *)
Lemma registration_supersedes_witness :
  DeepAgent.cancel_task "u1"
    (DeepAgent.run_agent Delivery.demo_request (DeepAgent.SetupOk Delivery.demo_stream)
       Delivery.demo_world).1
  = ((DeepAgent.run_agent Delivery.demo_request (DeepAgent.SetupOk Delivery.demo_stream)
        Delivery.demo_world).1, false).
Proof.
  exact (proj2 (registration_supersedes Delivery.demo_request Delivery.demo_world)
           (DeepAgent.SetupOk Delivery.demo_stream) eq_refl).
Defined.

Section Classification.

Import PyStr DeepAgent Delivery Further.










End Classification.


Section RenderingEdges.

Import PyStr DeepAgent Delivery Further.

Lemma format_tool_call_unknown tc :
  tc_name tc ∉ known_tools -> _format_tool_call (tc_name tc) tc = None.
Proof.
  intros H.
  assert (Hne : forall k, k ∈ known_tools -> String.eqb (tc_name tc) k = false).
  { intros k Hk. apply String.eqb_neq. intros E. apply H. by rewrite E. }
  unfold _format_tool_call.
  rewrite (Hne "sql_db_query"), (Hne "sql_db_schema"), (Hne "sql_db_list_tables"),
    (Hne "sql_db_query_checker"); unfold known_tools; set_solver.
Qed.

Lemma format_tool_call_known tc :
  tc_name tc ∈ known_tools ->
  exists banner, _format_tool_call (tc_name tc) tc = Some banner /\ truthy banner = true.
Proof.
  intros H. unfold known_tools in H. unfold _format_tool_call.
  repeat (apply elem_of_cons in H as [->|H]; [simpl; repeat case_match; eauto|]).
  by apply elem_of_nil in H.
Qed.

Lemma print_tool_calls_unknown tid tcs w :
  Forall (fun tc => tc_name tc ∉ known_tools) tcs ->
  _is_task_cancelled tid w = false ->
  print_tool_calls tid tcs w = (w, Ret true).
Proof.
  intros Hall Hflag. induction Hall as [|tc tcs Htc _ IH]; [done|].
  cbn [print_tool_calls]. unfold bind, cancelled_now, get, ret.
  rewrite Hflag, andb_false_r.
  destruct (contains "upload" (lower (tc_name tc)) && contains "html" (lower (tc_name tc)));
    rewrite ?Hflag, ?andb_false_r, (format_tool_call_unknown tc Htc); exact IH.
Qed.

Lemma blank_not_printed s : strip s = EmptyString -> truthy s && truthy (strip s) = false.
Proof. intros ->. apply andb_false_r. Qed.

(** X4.  A message with nothing to show (blank question or agent text,
    tool calls without a template, the result of a tool without "sql" in
    its name, or another kind of message) leaves the channel, the answer
    data and everything else untouched and reports success; and a tool
    call has a template, always a non-empty one, exactly when its name is
    one of the four SQL tool names. *)
Theorem message_with_nothing_to_show tid msg w :
  (nothing_to_show msg -> _is_task_cancelled tid w = false ->
   _print_message tid msg w = (w, Ret true))
  /\ (forall tc, tc_name tc ∈ known_tools <->
                 exists banner, _format_tool_call (tc_name tc) tc = Some banner
                                /\ truthy banner = true).
Proof.
  split.
  - intros Hmsg Hflag. unfold _print_message, bind, cancelled_now, get, try_except.
    rewrite Hflag, andb_false_r.
    assert (Hbody : print_body tid msg w = (w, Ret true)); [|by rewrite Hbody].
    destruct msg as [content|content tcs|name content|]; simpl in *.
    + by rewrite (blank_not_printed _ Hmsg).
    + destruct Hmsg as [Hblank Htcs]. unfold bind.
      rewrite (blank_not_printed _ Hblank). unfold ret at 1.
      by apply print_tool_calls_unknown.
    + unfold bind, cancelled_now, get. rewrite Hflag, andb_false_r.
      unfold _format_tool_result. by rewrite Hmsg.
    + done.
  - intros tc. split; [apply format_tool_call_known|].
    intros (banner & Hb & _). destruct (decide (tc_name tc ∈ known_tools)) as [|Hn]; [done|].
    rewrite (format_tool_call_unknown tc Hn) in Hb. discriminate Hb.
Qed.

Lemma set_answer_channel l w : channel (set_answer_data l w) = channel w.
Proof. reflexivity. Qed.

(** What a write through [_safe_write] does when the next call on the
    response fails with a connection error. *)
Lemma safe_write_broken tid c mt dt w ev rest e :
  script w = ev :: rest ->
  io_result ev = IoRaise e ->
  is_connection_failure e = true ->
  exists w', _safe_write tid c mt dt w = (w', Ret false)
             /\ channel w' = channel w ++ [WriteFailed (_create_response c mt dt) e]
             /\ t02_answer_data w' = t02_answer_data w.
Proof.
  intros Hs He Hc.
  assert (Ha : await_channel tid w
               = (if cancel_arrives ev then (cancel_task tid (set_script rest w)).1
                  else set_script rest w, Ret (io_result ev))).
  { unfold await_channel. by rewrite Hs. }
  unfold _safe_write, try_except, bind, response_write. unfold bind. rewrite Ha, He.
  destruct e as [|ty msg]; [done|]. simpl in Hc.
  unfold modify, raise. rewrite Hc. unfold ret.
  eexists. split; [reflexivity|].
  destruct (cancel_arrives ev); simpl; unfold cancel_task; simpl;
    try destruct (running_tasks w !! tid); simpl; done.
Qed.

(** X5.  When the write of a question fails with a connection error the
    formatted question has already been added to the answer data although
    no frame was written; when the write of a tool-result banner fails the
    banner is not added.  Both report [False]. *)
Theorem failed_write_and_answer_data tid w ev rest e :
  script w = ev :: rest ->
  io_result ev = IoRaise e ->
  is_connection_failure e = true ->
  _is_task_cancelled tid w = false ->
  (forall content,
     strip content <> EmptyString ->
     let res := _print_message tid (HumanMessage content) w in
     res.2 = Ret false
     /\ frames res.1 = frames w
     /\ t02_answer_data res.1 = t02_answer_data w ++ [_format_user_message content])
  /\ (forall name content,
        contains "sql" (lower name) = true ->
        let res := _print_message tid (ToolMessage name content) w in
        res.2 = Ret false
        /\ frames res.1 = frames w
        /\ t02_answer_data res.1 = t02_answer_data w).
Proof.
  intros Hs He Hc Hflag. split.
  - intros content Hne res. subst res.
    unfold _print_message, bind, cancelled_now, get, try_except.
    rewrite Hflag, andb_false_r. cbn [print_body].
    assert (Htr : truthy content && truthy (strip content) = true).
    { destruct (strip content) eqn:E; [done|]. destruct content; [done|]. done. }
    rewrite Htr. unfold bind, append_answer, modify.
    destruct (safe_write_broken tid (_format_user_message content) "continue" ANSWER
                (set_answer_data (t02_answer_data w ++ [_format_user_message content]) w)
                ev rest e Hs He Hc) as (w' & -> & Hch & Ht).
    unfold ret. cbn [fst snd]. split; [done|]. split; [|exact Ht].
    unfold frames. rewrite Hch. unfold frames_of. rewrite omap_app. simpl.
    by rewrite app_nil_r.
  - intros name content Hsql res. subst res.
    unfold _print_message, bind, cancelled_now, get, try_except.
    rewrite Hflag, andb_false_r. cbn [print_body]. unfold bind, cancelled_now, get.
    rewrite Hflag, andb_false_r.
    assert (Hfmt : option_truthy (_format_tool_result name content) = true).
    { unfold _format_tool_result. rewrite Hsql.
      by destruct (contains "error" (lower content)). }
    rewrite Hfmt.
    destruct (safe_write_broken tid (default EmptyString (_format_tool_result name content))
                (if contains "error" (lower content) then "error" else "info") ANSWER
                w ev rest e Hs He Hc) as (w' & -> & Hch & Ht).
    unfold ret. cbn [fst snd]. split; [done|]. split; [|exact Ht].
    unfold frames. rewrite Hch. unfold frames_of. rewrite omap_app. simpl.
    by rewrite app_nil_r.
Qed.

End RenderingEdges.

(** X4, witness: an agent message that only calls an upload tool. *)
Lemma message_with_nothing_to_show_witness :
  DeepAgent._print_message "u1"
    (DeepAgent.AIMessage (DeepAgent.ContentStr "  ")
       [{| DeepAgent.tc_name := "upload_html_report_to_minio";
           DeepAgent.arg_query := None; DeepAgent.arg_table_names := None |}])
    Delivery.demo_started
  = (Delivery.demo_started, DeepAgent.Ret true).
Proof.
  apply (proj1 (message_with_nothing_to_show "u1" _ Delivery.demo_started)).
  - split; [reflexivity|]. repeat constructor. unfold Further.known_tools.
    rewrite !elem_of_cons, elem_of_nil. intros [H|[H|[H|[H|H]]]]; done.
  - reflexivity.
Defined.

(** X5, witness: the client is gone when the question is written. *)
Lemma failed_write_and_answer_data_witness :
  DeepAgent.t02_answer_data
    (DeepAgent._print_message "u1" Delivery.demo_human Delivery.dead_world).1
  = [DeepAgent._format_user_message "list customers"]
  /\ DeepAgent.frames
       (DeepAgent._print_message "u1" Delivery.demo_human Delivery.dead_world).1 = [].
Proof.
  destruct (proj1 (failed_write_and_answer_data "u1" Delivery.dead_world Delivery.dead_event
                     [Delivery.dead_event] Delivery.broken_pipe eq_refl eq_refl eq_refl
                     eq_refl) "list customers" ltac:(discriminate)) as (_ & Hf & Ht).
  split; [exact Ht|exact Hf].
Defined.

(** * Further properties: the answer data *)

Section AuditTrail.

Import PyStr DeepAgent Delivery Further.

Variable tid : string.

Lemma await_channel_answer w : t02_answer_data (await_channel tid w).1 = t02_answer_data w.
Proof.
  unfold await_channel. destruct (script w) as [|ev rest]; [done|].
  destruct (cancel_arrives ev); simpl; [|done].
  unfold cancel_task. simpl. by destruct (running_tasks w !! tid).
Qed.

Lemma response_write_answer f w :
  t02_answer_data (response_write tid f w).1 = t02_answer_data w.
Proof.
  unfold response_write, bind. pose proof (await_channel_answer w) as H.
  destruct (await_channel tid w) as [w1 [[|e]|e]]; simpl in *; done.
Qed.

Lemma response_flush_answer w :
  t02_answer_data (response_flush tid w).1 = t02_answer_data w.
Proof.
  unfold response_flush, bind. pose proof (await_channel_answer w) as H.
  destruct (await_channel tid w) as [w1 [[|e]|e]]; simpl in *; done.
Qed.

Lemma safe_write_answer c mt dt w :
  t02_answer_data (_safe_write tid c mt dt w).1 = t02_answer_data w.
Proof.
  unfold _safe_write, try_except, bind, get.
  pose proof (response_write_answer (_create_response c mt dt) w) as H1.
  destruct (response_write tid (_create_response c mt dt) w) as [w1 [u|e]]; simpl in H1.
  - destruct (has_flush w1).
    + pose proof (response_flush_answer w1) as H2.
      destruct (response_flush tid w1) as [w2 [u2|[|ty m]]]; simpl in *;
        [congruence|congruence|].
      destruct (_is_connection_error ty m); simpl; congruence.
    + simpl. congruence.
  - destruct e as [|ty m]; [done|]. destruct (_is_connection_error ty m); done.
Qed.

Lemma handle_cancellation_answer b w :
  t02_answer_data (_handle_task_cancellation tid b w).1 = t02_answer_data w.
Proof.
  unfold _handle_task_cancellation, try_except, bind.
  pose proof (safe_write_answer (cancel_notice b) "info" ANSWER w) as H1.
  destruct (_safe_write tid (cancel_notice b) "info" ANSWER w) as [w1 [b1|[|ty m]]];
    simpl in H1; [|done|done].
  pose proof (safe_write_answer EmptyString "end" STREAM_END w1) as H2.
  destruct (_safe_write tid EmptyString "end" STREAM_END w1) as [w2 [b2|[|ty m]]];
    simpl in *; congruence.
Qed.

Lemma report_failure_answer ty msg w :
  t02_answer_data (report_stream_failure tid ty msg w).1 = t02_answer_data w.
Proof.
  unfold report_stream_failure, try_except, bind.
  pose proof (safe_write_answer (stream_error_text ty msg) "error" ANSWER w) as H1.
  destruct (_safe_write tid (stream_error_text ty msg) "error" ANSWER w)
    as [w1 [b1|[|ty1 m1]]]; simpl in H1; [|done|done].
  pose proof (safe_write_answer EmptyString "end" STREAM_END w1) as H2.
  destruct (_safe_write tid EmptyString "end" STREAM_END w1) as [w2 [b2|[|ty2 m2]]];
    simpl in *; congruence.
Qed.

Lemma arrive_answer c w : t02_answer_data (arrive tid c w) = t02_answer_data w.
Proof.
  unfold arrive. destruct c; [|done]. unfold cancel_task.
  by destruct (running_tasks w !! tid).
Qed.

Lemma shows_ret b : records_what_it_shows tid (ret b).
Proof.
  intros w _. exists w, b, []. split; [done|]. split; [apply extends_refl|].
  simpl. by rewrite app_nil_r.
Qed.

Lemma shows_append_write s mt dt :
  records_what_it_shows tid (fun w => bind (append_answer s) (fun _ => _safe_write tid s mt dt) w).
Proof.
  intros w Hacc. unfold bind, append_answer, modify.
  set (w0 := set_answer_data (t02_answer_data w ++ [s]) w).
  destruct (safe_write_accepted tid s mt dt w0 Hacc) as (w1 & L & E & X & F).
  pose proof (safe_write_answer s mt dt w0) as Ht. rewrite E in *. simpl in Ht.
  exists w1, true, L. split; [done|].
  split; [exact (extends_trans _ _ _ _ [] _ (extends_answer tid w _) X)|].
  rewrite Ht, F. done.
Qed.

Lemma shows_then (c k : M bool) :
  records_what_it_shows tid c -> records_what_it_shows tid k ->
  records_what_it_shows tid (fun w => bind c (fun ok : bool => if ok then k else ret false) w).
Proof.
  intros Hc Hk w Hacc. destruct (Hc w Hacc) as (w1 & b1 & L1 & E1 & X1 & T1).
  unfold bind. rewrite E1. destruct b1.
  - destruct (Hk w1 (extends_accepts _ _ _ _ X1 Hacc)) as (w2 & b2 & L2 & E2 & X2 & T2).
    exists w2, b2, (L1 ++ L2). split; [done|].
    split; [exact (extends_trans _ _ _ _ _ _ X1 X2)|].
    unfold frames_of in *. by rewrite T2, T1, omap_app, map_app, app_assoc.
  - exists w1, false, L1. done.
Qed.

Lemma shows_write_append s mt dt (k : M bool) :
  records_what_it_shows tid k ->
  records_what_it_shows tid
    (fun w => bind (_safe_write tid s mt dt)
                (fun ok : bool => if ok then bind (append_answer s) (fun _ => k)
                                  else ret false) w).
Proof.
  intros Hk w Hacc. unfold bind at 1.
  destruct (safe_write_accepted tid s mt dt w Hacc) as (w1 & L1 & E1 & X1 & F1).
  pose proof (safe_write_answer s mt dt w) as Ht. rewrite E1 in *. simpl in Ht.
  unfold bind, append_answer, modify.
  set (w2 := set_answer_data (t02_answer_data w1 ++ [s]) w1).
  destruct (Hk w2 (extends_accepts _ _ _ _ X1 Hacc)) as (w3 & b3 & L3 & E3 & X3 & T3).
  exists w3, b3, (L1 ++ L3). split; [done|]. split.
  - apply (extends_trans _ _ _ _ _ _ X1).
    exact (extends_trans _ _ _ _ [] _ (extends_answer tid w1 _) X3).
  - unfold frames_of in *. rewrite T3, omap_app, map_app, F1. subst w2. simpl.
    by rewrite Ht, <- app_assoc.
Qed.

Lemma shows_append_write_then s mt dt (k : M bool) :
  records_what_it_shows tid k ->
  records_what_it_shows tid
    (fun w => bind (append_answer s)
                (fun _ => bind (_safe_write tid s mt dt)
                            (fun ok : bool => if ok then k else ret false)) w).
Proof.
  intros Hk. apply (shows_then _ k (shows_append_write s mt dt) Hk).
Qed.

Lemma shows_guard (k : M bool) :
  records_what_it_shows tid k ->
  records_what_it_shows tid
    (fun w => bind (cancelled_now tid) (fun c : bool => if c then ret false else k) w).
Proof.
  intros Hk w. unfold bind, cancelled_now, get.
  destruct (truthy tid && _is_task_cancelled tid w); [apply shows_ret|apply Hk].
Qed.

Lemma shows_guard_if (cond : bool) (k : M bool) :
  records_what_it_shows tid k ->
  records_what_it_shows tid
    (fun w => bind (if cond then cancelled_now tid else ret false)
                (fun c : bool => if c then ret false else k) w).
Proof.
  intros Hk. destruct cond; [by apply shows_guard|].
  intros w. unfold bind, ret. apply Hk.
Qed.

Lemma shows_try (c : M bool) h :
  records_what_it_shows tid c -> records_what_it_shows tid (try_except c h).
Proof.
  intros Hc w Hacc. destruct (Hc w Hacc) as (w1 & b1 & L1 & E1 & R).
  unfold try_except. rewrite E1. by exists w1, b1, L1.
Qed.

Lemma shows_tool_calls tcs : records_what_it_shows tid (print_tool_calls tid tcs).
Proof.
  induction tcs as [|tc rest IH]; [apply shows_ret|].
  cbn [print_tool_calls]. apply shows_guard, shows_guard_if.
  destruct (option_truthy (_format_tool_call (tc_name tc) tc)); [|exact IH].
  by apply shows_write_append.
Qed.

Lemma shows_body msg : records_what_it_shows tid (print_body tid msg).
Proof.
  destruct msg as [content|content tool_calls|name content|]; cbn [print_body].
  - destruct (truthy content && truthy (strip content)); [|apply shows_ret].
    apply shows_append_write_then, shows_ret.
  - apply shows_then; [|apply shows_tool_calls].
    destruct (truthy (text_of content) && truthy (strip (text_of content)));
      [|apply shows_ret].
    apply shows_guard, shows_append_write.
  - apply shows_guard.
    destruct (option_truthy (_format_tool_result name content)); [|apply shows_ret].
    apply shows_write_append, shows_ret.
  - apply shows_ret.
Qed.

Lemma shows_message msg : records_what_it_shows tid (_print_message tid msg).
Proof. unfold _print_message. apply shows_guard, shows_try, shows_body. Qed.

Lemma extends_answer_frames w w' L body tail :
  extends tid w w' L -> frames_of L = body ++ tail ->
  frames w' = frames w ++ body ++ tail.
Proof. intros X F. by rewrite (extends_frames _ _ _ _ X), F. Qed.

Lemma render_batch_shows msgs : forall idx log w,
  channel_accepts w ->
  exists w' log' exit L body,
    render_batch tid idx msgs log w = (w', log', Ret exit)
    /\ extends tid w w' L
    /\ frames_of L = body ++ batch_tail (Ret exit)
    /\ t02_answer_data w' = t02_answer_data w ++ map content body.
Proof.
  induction msgs as [|msg rest IH]; intros idx log w Hacc; cbn [render_batch].
  - exists w, log, BatchDone, [], []. split; [done|]. split; [apply extends_refl|].
    simpl. by rewrite app_nil_r.
  - destruct (_is_task_cancelled tid w).
    + destruct (handle_cancellation_accepted tid true w Hacc) as (w1 & L1 & E1 & X1 & F1).
      pose proof (handle_cancellation_answer true w) as Ht. rewrite E1 in *. simpl in Ht.
      exists w1, log, BatchReturn, L1, []. split; [done|]. split; [exact X1|].
      split; [exact F1|]. simpl. by rewrite app_nil_r.
    + destruct (shows_message msg w Hacc) as (w1 & b1 & L1 & E1 & X1 & T1).
      rewrite E1. destruct b1.
      * destruct (IH (S idx) (log ++ [(idx, msg)]) w1 (extends_accepts _ _ _ _ X1 Hacc))
          as (w2 & log2 & exit & L2 & body & E2 & X2 & F2 & T2).
        exists w2, log2, exit, (L1 ++ L2), (frames_of L1 ++ body). split; [done|].
        split; [exact (extends_trans _ _ _ _ _ _ X1 X2)|]. split.
        { unfold frames_of in *. by rewrite omap_app, F2, app_assoc. }
        by rewrite T2, T1, map_app, app_assoc.
      * exists w1, (log ++ [(idx, msg)]), BatchClosed, L1, (frames_of L1).
        split; [done|]. split; [exact X1|]. split; [by rewrite app_nil_r|exact T1].
Qed.

Lemma stream_body_shows st messages w :
  channel_accepts w ->
  exists w' st' o L body,
    stream_body tid st messages w = (w', st', Ret o)
    /\ extends tid w w' L
    /\ frames_of L = body ++ body_tail (Ret o)
    /\ t02_answer_data w' = t02_answer_data w ++ map content body.
Proof.
  intros Hacc. unfold stream_body.
  assert (Hskip : exists w' st' o L body,
            (w, st, Ret None) = (w', st', Ret o :> Result (option LoopExit))
            /\ extends tid w w' L
            /\ frames_of L = body ++ body_tail (Ret o)
            /\ t02_answer_data w' = t02_answer_data w ++ map content body).
  { exists w, st, None, [], []. split; [done|]. split; [apply extends_refl|].
    simpl. by rewrite app_nil_r. }
  destruct (_is_task_cancelled tid w).
  { destruct (handle_cancellation_accepted tid true w Hacc) as (w1 & L1 & E1 & X1 & F1).
    pose proof (handle_cancellation_answer true w) as Ht. rewrite E1 in *. simpl in Ht.
    exists w1, st, (Some LoopReturned), L1, []. split; [done|]. split; [exact X1|].
    split; [exact F1|]. simpl. by rewrite app_nil_r. }
  destruct messages as [messages|]; [|exact Hskip].
  destruct (Nat.ltb (printed_count st) (length messages)); [|exact Hskip].
  destruct (render_batch_shows (drop (printed_count st) messages) (printed_count st)
              (print_log st) w Hacc) as (w1 & log1 & exit & L1 & body & E1 & X1 & F1 & T1).
  rewrite E1. destruct exit.
  - destruct (has_flush w1).
    + destruct (response_flush_spec tid w1) as [(w2 & E2 & X2)|(w2 & e & E2 & X2)].
      * pose proof (response_flush_answer w1) as Ht. rewrite E2 in *. simpl in Ht.
        eexists w2, _, None, (L1 ++ [Flushed]), body. split; [reflexivity|].
        split; [exact (extends_trans _ _ _ _ _ _ X1 X2)|]. split.
        { unfold frames_of in *. rewrite omap_app, F1. simpl. by rewrite !app_nil_r. }
        by rewrite Ht.
      * exfalso. pose proof (extends_accepts _ _ _ _ X1 Hacc) as Hacc1.
        destruct X2 as (_ & _ & _ & _ & _ & A). specialize (A Hacc1).
        apply Forall_cons in A as [A _]. discriminate A.
    + eexists w1, _, None, L1, body. split; [reflexivity|]. split; [exact X1|].
      split; [|exact T1]. simpl in *. exact F1.
  - eexists w1, _, (Some LoopBroke), L1, body. split; [reflexivity|]. split; [exact X1|].
    split; [exact F1|exact T1].
  - eexists w1, _, (Some LoopReturned), L1, body. split; [reflexivity|]. split; [exact X1|].
    split; [exact F1|exact T1].
Qed.

Lemma stream_loop_shows evs fin : forall st w,
  channel_accepts w ->
  exists w' st' r L body,
    stream_loop tid st evs fin w = (w', st', r)
    /\ extends tid w w' L
    /\ frames_of L = body ++ loop_tail r
    /\ t02_answer_data w' = t02_answer_data w ++ map content body.
Proof.
  induction evs as [|ev rest IH]; intros st w Hacc; cbn [stream_loop].
  - destruct fin as [c|c e]; eexists _, st, _, [], []; (split; [reflexivity|]);
      (split; [apply extends_arrive|]); simpl; rewrite arrive_answer, app_nil_r; done.
  - pose proof (extends_arrive tid w (chunk_cancel ev)) as X0.
    destruct (stream_body_shows st (chunk_messages ev) (arrive tid (chunk_cancel ev) w)
                (extends_accepts _ _ _ _ X0 Hacc))
      as (w1 & st1 & o & L1 & body1 & E1 & X1 & F1 & T1).
    rewrite E1. pose proof (extends_trans _ _ _ _ _ _ X0 X1) as X01. simpl in X01.
    rewrite arrive_answer in T1.
    destruct o as [exit|].
    + exists w1, st1, (Ret exit), L1, body1. split; [done|]. split; [exact X01|].
      split; [|exact T1]. rewrite F1. by destruct exit.
    + destruct (IH st1 w1 (extends_accepts _ _ _ _ X01 Hacc))
        as (w2 & st2 & r2 & L2 & body2 & E2 & X2 & F2 & T2).
      exists w2, st2, r2, (L1 ++ L2), (body1 ++ body2). split; [done|].
      split; [exact (extends_trans _ _ _ _ _ _ X01 X2)|]. split.
      * unfold frames_of in *. rewrite omap_app, F1, F2. simpl.
        by rewrite app_nil_r, app_assoc.
      * by rewrite T2, T1, map_app, app_assoc.
Qed.

End AuditTrail.

Section AuditTrailOfRun.

Import PyStr DeepAgent Delivery Further.

Lemma save_record_frames rq w : frames (save_record rq w) = frames w.
Proof. unfold frames. by rewrite save_record_channel. Qed.

Lemma save_record_stores rq w :
  _is_task_cancelled (task_id rq) (save_record rq w) = false ->
  user_records (save_record rq w) = user_records w ++ [exchange_record rq w].
Proof.
  rewrite save_record_flag, save_record_records. by intros ->.
Qed.

(** X6.  On a channel that accepts every write, the answer data at the
    end of [_stream_agent_response] is what it was at the start followed
    by the texts of exactly the frames written for rendered messages, in
    the order written; the cancellation notice, the error text and the
    [end] frame are written but not recorded.  When the task is not
    marked cancelled at the end, the record stored last carries this
    list as its answer. *)
Theorem answer_data_is_what_was_rendered rq stream w :
  channel_accepts w ->
  let looped := stream_loop (task_id rq) initial_state (chunks stream) (ending stream) w in
  let final := (_stream_agent_response rq stream w).1.1 in
  exists body,
    frames final = frames w ++ body ++ terminal_frames (task_id rq) looped.2 looped.1.1
    /\ t02_answer_data final = t02_answer_data w ++ map content body
    /\ (_is_task_cancelled (task_id rq) final = false ->
        exists earlier r,
          user_records final = earlier ++ [r]
          /\ rec_answer r = t02_answer_data w ++ map content body).
Proof.
  intros Hacc looped final. subst looped final.
  destruct (stream_loop_shows (task_id rq) (chunks stream) (ending stream) initial_state w Hacc)
    as (w1 & st1 & r1 & L1 & body & E1 & X1 & F1 & T1).
  pose proof (extends_accepts _ _ _ _ X1 Hacc) as Hacc1.
  unfold _stream_agent_response. rewrite E1. cbn [fst snd]. unfold terminal_frames.
  exists body.
  assert (Hfin : forall w2 L2,
            extends (task_id rq) w1 w2 L2 ->
            frames_of L2 = handler_frames (task_id rq) r1 w1 ->
            t02_answer_data w2 = t02_answer_data w1 ->
            frames (save_record rq w2)
            = frames w ++ body ++ loop_tail r1 ++ handler_frames (task_id rq) r1 w1
            /\ t02_answer_data (save_record rq w2) = t02_answer_data w ++ map content body
            /\ (_is_task_cancelled (task_id rq) (save_record rq w2) = false ->
                exists earlier r,
                  user_records (save_record rq w2) = earlier ++ [r]
                  /\ rec_answer r = t02_answer_data w ++ map content body)).
  { intros w2 L2 X2 F2 T2. split; [|split].
    - rewrite save_record_frames, (extends_frames _ _ _ _ X2), (extends_frames _ _ _ _ X1).
      by rewrite F1, F2, <- !app_assoc.
    - by rewrite save_record_answer, T2.
    - intros Hc. exists (user_records w2), (exchange_record rq w2).
      split; [by apply save_record_stores|]. simpl. by rewrite T2. }
  destruct r1 as [x|[|ty msg]].
  - apply (Hfin w1 []); [apply extends_refl|done|done].
  - unfold try_except.
    destruct (handle_cancellation_accepted (task_id rq)
                (_is_task_cancelled (task_id rq) w1) w1 Hacc1) as (w2 & L2 & E2 & X2 & F2).
    pose proof (handle_cancellation_answer (task_id rq)
                  (_is_task_cancelled (task_id rq) w1) w1) as T2.
    rewrite E2 in *. simpl in T2. cbn [fst snd]. by apply (Hfin w2 L2).
  - simpl handler_frames in *. destruct (_is_connection_error ty msg).
    + cbn [fst snd]. apply (Hfin w1 []); [apply extends_refl|done|done].
    + destruct (report_failure_accepted (task_id rq) ty msg w1 Hacc1)
        as (w2 & L2 & E2 & X2 & F2).
      pose proof (report_failure_answer (task_id rq) ty msg w1) as T2.
      rewrite E2 in *. simpl in T2. cbn [fst snd]. by apply (Hfin w2 L2).
Qed.


(** X6, witness: the demonstration transcript on a quiet channel. *)
Lemma answer_data_is_what_was_rendered_witness :
  channel_accepts demo_started
  /\ exists body,
       frames (_stream_agent_response demo_request demo_stream demo_started).1.1
       = frames demo_started ++ body
         ++ terminal_frames (task_id demo_request)
              (stream_loop (task_id demo_request) initial_state (chunks demo_stream)
                 (ending demo_stream) demo_started).2
              (stream_loop (task_id demo_request) initial_state (chunks demo_stream)
                 (ending demo_stream) demo_started).1.1
       /\ t02_answer_data (_stream_agent_response demo_request demo_stream demo_started).1.1
          = t02_answer_data demo_started ++ map content body
       /\ (_is_task_cancelled (task_id demo_request)
             (_stream_agent_response demo_request demo_stream demo_started).1.1 = false ->
           exists earlier r,
             user_records (_stream_agent_response demo_request demo_stream demo_started).1.1
             = earlier ++ [r]
             /\ rec_answer r = t02_answer_data demo_started ++ map content body).
Proof.
  assert (H : channel_accepts demo_started) by (vm_compute; done).
  split; [exact H|].
  exact (answer_data_is_what_was_rendered demo_request demo_stream demo_started H).
Defined.

End AuditTrailOfRun.

(** * Further properties: what a run does to the registry *)

Section Isolation.

Import PyStr DeepAgent Delivery Further.

Variable tid : string.

Lemma others_kept_refl w : others_kept tid w w.
Proof. by intros k _. Qed.

Lemma others_kept_trans w1 w2 w3 :
  others_kept tid w1 w2 -> others_kept tid w2 w3 -> others_kept tid w1 w3.
Proof. intros H1 H2 k Hk. by rewrite (H2 k Hk), (H1 k Hk). Qed.

Lemma others_kept_same w w' : running_tasks w' = running_tasks w -> others_kept tid w w'.
Proof. intros E k _. by rewrite E. Qed.

Lemma others_kept_cancel w : others_kept tid w (cancel_task tid w).1.
Proof.
  intros k Hk. unfold cancel_task. destruct (running_tasks w !! tid); [|done].
  simpl. by rewrite lookup_insert_ne.
Qed.

Lemma others_kept_register w : others_kept tid w (register_task tid w).
Proof. intros k Hk. unfold register_task. simpl. by rewrite lookup_insert_ne. Qed.

Lemma others_kept_arrive c w : others_kept tid w (arrive tid c w).
Proof. destruct c; [apply others_kept_cancel|apply others_kept_refl]. Qed.

Lemma isolated_ret {A} (a : A) : isolated tid (ret a).
Proof. intros w. apply others_kept_refl. Qed.

Lemma isolated_raise {A} e : isolated tid (raise (A:=A) e).
Proof. intros w. apply others_kept_refl. Qed.

Lemma isolated_get {A} (f : World -> A) : isolated tid (get f).
Proof. intros w. apply others_kept_refl. Qed.

Lemma isolated_modify f :
  (forall w, running_tasks (f w) = running_tasks w) -> isolated tid (modify f).
Proof. intros H w. apply others_kept_same. unfold modify. simpl. apply H. Qed.

Lemma isolated_bind {A B} (c : M A) (k : A -> M B) :
  isolated tid c -> (forall a, isolated tid (k a)) -> isolated tid (bind c k).
Proof.
  intros Hc Hk w. unfold bind. specialize (Hc w). destruct (c w) as [w1 [a|e]]; [|exact Hc].
  exact (others_kept_trans _ _ _ Hc (Hk a w1)).
Qed.

Lemma isolated_try_except {A} (c : M A) h :
  isolated tid c -> (forall ty msg, isolated tid (h ty msg)) -> isolated tid (try_except c h).
Proof.
  intros Hc Hh w. unfold try_except. specialize (Hc w).
  destruct (c w) as [w1 [a|[|ty msg]]]; [exact Hc|exact Hc|].
  exact (others_kept_trans _ _ _ Hc (Hh ty msg w1)).
Qed.

Lemma isolated_try_except2 {A} (c : M A) hc h :
  isolated tid c -> isolated tid hc -> (forall ty msg, isolated tid (h ty msg)) ->
  isolated tid (try_except2 c hc h).
Proof.
  intros Hc Hhc Hh w. unfold try_except2. specialize (Hc w).
  destruct (c w) as [w1 [a|[|ty msg]]]; [exact Hc| |].
  - exact (others_kept_trans _ _ _ Hc (Hhc w1)).
  - exact (others_kept_trans _ _ _ Hc (Hh ty msg w1)).
Qed.

Lemma isolated_await : isolated tid (await_channel tid).
Proof.
  intros w. unfold await_channel. destruct (script w) as [|ev rest]; simpl.
  - apply others_kept_refl.
  - destruct (cancel_arrives ev); [|by apply others_kept_same].
    exact (others_kept_trans _ (set_script rest w) _ (others_kept_same _ _ eq_refl)
             (others_kept_cancel _)).
Qed.

Lemma isolated_write f : isolated tid (response_write tid f).
Proof.
  unfold response_write. apply isolated_bind; [apply isolated_await|].
  intros [|e]; [by apply isolated_modify|].
  apply isolated_bind; [by apply isolated_modify|]. intros _. apply isolated_raise.
Qed.

Lemma isolated_flush : isolated tid (response_flush tid).
Proof.
  unfold response_flush. apply isolated_bind; [apply isolated_await|].
  intros [|e]; [by apply isolated_modify|].
  apply isolated_bind; [by apply isolated_modify|]. intros _. apply isolated_raise.
Qed.

Lemma isolated_safe_write c mt dt : isolated tid (_safe_write tid c mt dt).
Proof.
  unfold _safe_write. apply isolated_try_except.
  - apply isolated_bind; [apply isolated_write|]. intros _.
    apply isolated_bind; [apply isolated_get|]. intros flush.
    apply isolated_bind; [|intros _; apply isolated_ret].
    destruct flush; [apply isolated_flush|apply isolated_ret].
  - intros ty msg. destruct (_is_connection_error ty msg);
      [apply isolated_ret|apply isolated_raise].
Qed.

Lemma isolated_cancellation b : isolated tid (_handle_task_cancellation tid b).
Proof.
  unfold _handle_task_cancellation. apply isolated_try_except.
  - apply isolated_bind; [apply isolated_safe_write|]. intros _.
    apply isolated_bind; [apply isolated_safe_write|]. intros _. apply isolated_ret.
  - intros _ _. apply isolated_ret.
Qed.

Lemma isolated_report ty msg : isolated tid (report_stream_failure tid ty msg).
Proof.
  unfold report_stream_failure. apply isolated_try_except.
  - apply isolated_bind; [apply isolated_safe_write|]. intros _.
    apply isolated_bind; [apply isolated_safe_write|]. intros _. apply isolated_ret.
  - intros _ _. apply isolated_ret.
Qed.

Lemma isolated_append s : isolated tid (append_answer s).
Proof. by apply isolated_modify. Qed.

Lemma isolated_guard (k : M bool) :
  isolated tid k ->
  isolated tid (bind (cancelled_now tid) (fun c : bool => if c then ret false else k)).
Proof.
  intros Hk. apply isolated_bind; [apply isolated_get|].
  intros [|]; [apply isolated_ret|exact Hk].
Qed.

Lemma isolated_tool_calls tcs : isolated tid (print_tool_calls tid tcs).
Proof.
  induction tcs as [|tc rest IH]; [apply isolated_ret|].
  cbn [print_tool_calls]. apply isolated_guard. apply isolated_bind.
  - destruct (_ && _); [apply isolated_get|apply isolated_ret].
  - intros [|]; [apply isolated_ret|].
    destruct (option_truthy _); [|exact IH].
    apply isolated_bind; [apply isolated_safe_write|].
    intros [|]; [|apply isolated_ret].
    apply isolated_bind; [apply isolated_append|]. by intros _.
Qed.

Lemma isolated_body msg : isolated tid (print_body tid msg).
Proof.
  destruct msg as [content|content tool_calls|name content|]; cbn [print_body].
  - destruct (_ && _); [|apply isolated_ret].
    apply isolated_bind; [apply isolated_append|]. intros _.
    apply isolated_bind; [apply isolated_safe_write|].
    intros [|]; apply isolated_ret.
  - apply isolated_bind.
    + destruct (_ && _); [|apply isolated_ret]. apply isolated_guard.
      apply isolated_bind; [apply isolated_append|]. intros _. apply isolated_safe_write.
    + intros [|]; [apply isolated_tool_calls|apply isolated_ret].
  - apply isolated_guard. destruct (option_truthy _); [|apply isolated_ret].
    apply isolated_bind; [apply isolated_safe_write|].
    intros [|]; [|apply isolated_ret].
    apply isolated_bind; [apply isolated_append|]. intros _. apply isolated_ret.
  - apply isolated_ret.
Qed.

Lemma isolated_message msg : isolated tid (_print_message tid msg).
Proof.
  unfold _print_message. apply isolated_guard, isolated_try_except; [apply isolated_body|].
  intros ty m. destruct (_is_connection_error ty m); [apply isolated_ret|apply isolated_raise].
Qed.

Lemma render_batch_isolated msgs : forall idx log w,
  others_kept tid w (render_batch tid idx msgs log w).1.1.
Proof.
  induction msgs as [|msg rest IH]; intros idx log w; cbn [render_batch].
  - apply others_kept_refl.
  - destruct (_is_task_cancelled tid w).
    + pose proof (isolated_cancellation true w) as H.
      by destruct (_handle_task_cancellation tid true w) as [w1 [u|e]].
    + pose proof (isolated_message msg w) as H.
      destruct (_print_message tid msg w) as [w1 [[|]|e]]; [|done|done].
      exact (others_kept_trans _ _ _ H (IH _ _ w1)).
Qed.

Lemma stream_body_isolated st messages w :
  others_kept tid w (stream_body tid st messages w).1.1.
Proof.
  unfold stream_body. destruct (_is_task_cancelled tid w).
  { pose proof (isolated_cancellation true w) as H.
    by destruct (_handle_task_cancellation tid true w) as [w1 [u|e]]. }
  destruct messages as [messages|]; [|apply others_kept_refl].
  destruct (Nat.ltb _ _); [|apply others_kept_refl].
  pose proof (render_batch_isolated (drop (printed_count st) messages) (printed_count st)
                (print_log st) w) as H.
  destruct (render_batch _ _ _ _ _) as [[w1 log] [[| |]|e]]; [|done|done|done].
  destruct (has_flush w1); [|done].
  pose proof (isolated_flush w1) as H2.
  destruct (response_flush tid w1) as [w2 [u|[|ty m]]]; simpl in *;
    [| |destruct (_is_connection_error ty m)];
    exact (others_kept_trans _ _ _ H H2).
Qed.

Lemma stream_loop_isolated evs fin : forall st w,
  others_kept tid w (stream_loop tid st evs fin w).1.1.
Proof.
  induction evs as [|ev rest IH]; intros st w; cbn [stream_loop].
  - destruct fin; apply others_kept_arrive.
  - pose proof (stream_body_isolated st (chunk_messages ev)
                  (arrive tid (chunk_cancel ev) w)) as H.
    pose proof (others_kept_trans _ _ _ (others_kept_arrive (chunk_cancel ev) w) H) as H1.
    destruct (stream_body _ _ _ _) as [[w1 st1] [[exit|]|e]]; [done| |done].
    exact (others_kept_trans _ _ _ H1 (IH st1 w1)).
Qed.

End Isolation.

Section RegistryAfterRun.

Import PyStr DeepAgent Delivery Further.

Lemma save_record_tasks rq w : running_tasks (save_record rq w) = running_tasks w.
Proof. unfold save_record. by destruct (_is_task_cancelled _ w). Qed.

Lemma stream_response_isolated rq stream w :
  others_kept (task_id rq) w (_stream_agent_response rq stream w).1.1.
Proof.
  unfold _stream_agent_response.
  pose proof (stream_loop_isolated (task_id rq) (chunks stream) (ending stream)
                initial_state w) as H.
  assert (Hsave : forall w2 (st2 : LoopState) (r2 : Result unit),
            others_kept (task_id rq) w w2 ->
            others_kept (task_id rq) w (save_record rq w2, st2, r2).1.1).
  { intros w2 st2 r2 H2 k Hk. cbn [fst snd]. rewrite save_record_tasks. by apply H2. }
  destruct (stream_loop _ _ _ _ _) as [[w1 st1] [x|[|ty msg]]]; cbn [fst snd] in H;
    cbv beta iota zeta.
  - by apply Hsave.
  - unfold try_except.
    pose proof (isolated_cancellation (task_id rq) (_is_task_cancelled (task_id rq) w1) w1)
      as H2.
    destruct (_handle_task_cancellation _ _ w1) as [w2 [u|[|ty m]]]; cbn [fst snd] in H2;
      cbv beta iota zeta; apply Hsave; exact (others_kept_trans _ _ _ _ H H2).
  - destruct (_is_connection_error ty msg); cbv beta iota zeta.
    + by apply Hsave.
    + pose proof (isolated_report (task_id rq) ty msg w1) as H2.
      destruct (report_stream_failure _ _ _ w1) as [w2 r]; cbn [fst snd] in H2;
        cbv beta iota zeta.
      apply Hsave; exact (others_kept_trans _ _ _ _ H H2).
Qed.

(** X7.  A run of [run_agent] with a data source id leaves the task
    registry as it found it, without the entry of its own task: whichever
    way the run ends, its entry is gone, and it neither adds, removes nor
    changes the entry of any other task. *)
Theorem run_leaves_registry_without_its_task rq setup w :
  truthy_id (datasource_id rq) = true ->
  running_tasks (run_agent rq setup w).1 = delete (task_id rq) (running_tasks w).
Proof.
  intros H. unfold run_agent. rewrite H. cbn [negb]. unfold try_finally.
  set (tid := task_id rq).
  match goal with |- context [try_except2 ?c ?hc ?h] =>
    assert (Hiso : isolated tid (try_except2 c hc h)) end.
  { apply isolated_try_except2.
    - apply isolated_bind; [by apply isolated_modify|]. intros _.
      destruct setup as [ty msg|stream]; [apply isolated_raise|].
      intros w0. pose proof (stream_response_isolated rq stream w0) as Hs.
      by destruct (_stream_agent_response rq stream w0) as [[w1 st1] r].
    - apply isolated_bind; [apply isolated_get|]. intros b.
      apply isolated_try_except; [apply isolated_cancellation|].
      intros _ _. apply isolated_ret.
    - intros ty msg. destruct (_is_connection_error ty msg); [apply isolated_ret|].
      apply isolated_try_except; [|intros _ _; apply isolated_ret].
      apply isolated_bind; [apply isolated_safe_write|]. intros _. apply isolated_ret. }
  specialize (Hiso (register_task tid w)).
  destruct (try_except2 _ _ _ _) as [w1 r]. unfold modify. cbn [fst snd] in *.
  apply map_eq. intros k. destruct (decide (k = tid)) as [->|Hk].
  - by rewrite retire_task_lookup, lookup_delete_eq.
  - rewrite lookup_delete_ne by done.
    transitivity (running_tasks w1 !! k).
    + unfold retire_task. destruct (running_tasks w1 !! tid); [|done].
      simpl. by rewrite lookup_delete_ne.
    + rewrite (Hiso k Hk). unfold register_task. simpl. by rewrite lookup_insert_ne.
Qed.

End RegistryAfterRun.

(** X7, witness. *)
Lemma run_leaves_registry_without_its_task_witness :
  DeepAgent.truthy_id (DeepAgent.datasource_id Delivery.demo_request) = true
  /\ DeepAgent.running_tasks
       (DeepAgent.run_agent Delivery.demo_request
          (DeepAgent.SetupOk Delivery.demo_stream) Delivery.demo_world).1
     = delete (DeepAgent.task_id Delivery.demo_request)
         (DeepAgent.running_tasks Delivery.demo_world).
Proof.
  split; [reflexivity|].
  apply (run_leaves_registry_without_its_task Delivery.demo_request); reflexivity.
Defined.

(** * Further properties: runs that do not reach the stream *)

Section EarlyExits.

Import PyStr DeepAgent Delivery Further.

Lemma cancel_task_same_tasks tid w t :
  is_Some (running_tasks (cancel_task tid w).1 !! t) <-> is_Some (running_tasks w !! t).
Proof.
  unfold cancel_task. destruct (running_tasks w !! tid) as [b|] eqn:E; [|done].
  simpl. destruct (decide (t = tid)) as [->|Hne].
  - rewrite lookup_insert_eq, E. split; eauto.
  - by rewrite lookup_insert_ne.
Qed.

Lemma await_channel_same_tasks tid w t :
  is_Some (running_tasks (await_channel tid w).1 !! t) <-> is_Some (running_tasks w !! t).
Proof.
  unfold await_channel. destruct (script w) as [|ev rest]; [done|].
  destruct (cancel_arrives ev); simpl; [|done].
  by rewrite cancel_task_same_tasks.
Qed.

Lemma await_channel_records tid w :
  user_records (await_channel tid w).1 = user_records w
  /\ channel (await_channel tid w).1 = channel w.
Proof.
  unfold await_channel. destruct (script w) as [|ev rest]; [done|].
  destruct (cancel_arrives ev); simpl; [|done].
  unfold cancel_task. simpl. by destruct (running_tasks w !! tid).
Qed.

(** X8.  Without a data source id (absent, or 0) [run_agent] makes one
    write, of the error frame that asks for the id, and nothing else: no
    [end] frame follows, the task is not registered, no record is stored
    and the answer data is not touched.  The write is not guarded: when
    the channel fails it, the failure is raised to the caller. *)
Theorem run_without_datasource rq setup w :
  truthy_id (datasource_id rq) = false ->
  let res := run_agent rq setup w in
  let f := _create_response missing_datasource_text "error" ANSWER in
  ((channel res.1 = channel w ++ [Wrote f] /\ res.2 = Ret tt)
   \/ (exists e, channel res.1 = channel w ++ [WriteFailed f e] /\ res.2 = Raise e))
  /\ user_records res.1 = user_records w
  /\ t02_answer_data res.1 = t02_answer_data w
  /\ (forall t, t ∈ get_running_tasks res.1 <-> t ∈ get_running_tasks w).
Proof.
  intros H. unfold run_agent. rewrite H. cbn [negb]. cbv zeta.
  set (f := _create_response missing_datasource_text "error" ANSWER).
  pose proof (response_write_answer (task_id rq) f w) as Hans.
  unfold response_write, bind in *.
  pose proof (await_channel_same_tasks (task_id rq) w) as Ht.
  destruct (await_channel_records (task_id rq) w) as [Hr Hc].
  destruct (await_channel (task_id rq) w) as [w1 [[|e]|e]] eqn:E; cbn [fst snd] in *.
  - unfold modify. cbn [fst snd]. split; [left; simpl; by rewrite Hc|].
    split; [done|]. split; [done|]. intros t. rewrite !running_iff. apply Ht.
  - unfold modify, raise. cbn [fst snd]. split; [right; exists e; simpl; by rewrite Hc|].
    split; [done|]. split; [done|]. intros t. rewrite !running_iff. apply Ht.
  - exfalso. unfold await_channel in E. destruct (script w); by destruct (cancel_arrives _).
Qed.

(** X9.  When building the agent fails, on a channel that accepts every
    write, [run_agent] returns normally having written one [error] frame
    with the text of the failure and no [end] frame; a failure classified
    as a connection error is written nowhere.  No record of the exchange
    is stored and the answer data is empty. *)
Theorem setup_failure_is_reported_once rq ty msg w :
  truthy_id (datasource_id rq) = true ->
  channel_accepts w ->
  let res := run_agent rq (SetupFails ty msg) w in
  res.2 = Ret tt
  /\ frames res.1
     = frames w ++ (if _is_connection_error ty msg then []
                    else [_create_response (setup_error_text msg) "error" ANSWER])
  /\ user_records res.1 = user_records w
  /\ t02_answer_data res.1 = [].
Proof.
  intros H Hacc. unfold run_agent. rewrite H. cbn [negb]. cbv zeta.
  unfold try_finally, try_except2, bind, modify, raise. cbn [fst snd].
  destruct (_is_connection_error ty msg).
  - unfold ret. cbn [fst snd]. rewrite retire_task_records.
    split; [done|]. split; [|split].
    + unfold frames. rewrite app_nil_r. unfold retire_task, register_task. simpl.
      by destruct (_ !! _).
    + done.
    + unfold retire_task, register_task. simpl. by destruct (_ !! _).
  - unfold try_except, bind.
    set (w0 := set_answer_data [] (register_task (task_id rq) w)).
    assert (Hacc0 : channel_accepts w0) by exact Hacc.
    destruct (safe_write_accepted (task_id rq) (setup_error_text msg) "error" ANSWER w0 Hacc0)
      as (w1 & L & E & X & F).
    pose proof (safe_write_answer (task_id rq) (setup_error_text msg) "error" ANSWER w0) as Ha.
    rewrite E in *. cbn [fst snd] in *. unfold ret. cbn [fst snd].
    rewrite retire_task_records.
    assert (Hret : forall v, frames (retire_task (task_id rq) v) = frames v
                             /\ t02_answer_data (retire_task (task_id rq) v)
                                = t02_answer_data v).
    { intros v. unfold retire_task. by destruct (_ !! _). }
    destruct (Hret w1) as [-> ->].
    split; [done|]. split; [|split].
    + by rewrite (extends_frames _ _ _ _ X), F.
    + by destruct X as (_ & -> & _).
    + by rewrite Ha.
Qed.

End EarlyExits.

(** X8, witness. *)
Lemma run_without_datasource_witness :
  let rq := {| DeepAgent.task_id := "u1"; DeepAgent.query := "list customers";
               DeepAgent.session_id := None; DeepAgent.uuid_str := "q-2";
               DeepAgent.datasource_id := Some 0%Z |} in
  let res := DeepAgent.run_agent rq (DeepAgent.SetupOk Delivery.demo_stream)
               Delivery.demo_world in
  let f := DeepAgent._create_response DeepAgent.missing_datasource_text "error"
             DeepAgent.ANSWER in
  DeepAgent.truthy_id (DeepAgent.datasource_id rq) = false
  /\ ((DeepAgent.channel res.1 = DeepAgent.channel Delivery.demo_world ++ [DeepAgent.Wrote f]
       /\ res.2 = DeepAgent.Ret tt)
      \/ (exists e, DeepAgent.channel res.1
                    = DeepAgent.channel Delivery.demo_world ++ [DeepAgent.WriteFailed f e]
                    /\ res.2 = DeepAgent.Raise e))
  /\ DeepAgent.user_records res.1 = DeepAgent.user_records Delivery.demo_world
  /\ DeepAgent.t02_answer_data res.1 = DeepAgent.t02_answer_data Delivery.demo_world
  /\ (forall t, t ∈ DeepAgent.get_running_tasks res.1
                <-> t ∈ DeepAgent.get_running_tasks Delivery.demo_world).
Proof.
  intros rq res f. split; [reflexivity|].
  apply (run_without_datasource rq). reflexivity.
Defined.

(** X9, witness. *)
Lemma setup_failure_is_reported_once_witness :
  let res := DeepAgent.run_agent Delivery.demo_request
               (DeepAgent.SetupFails "ValueError" "no such data source")
               Delivery.demo_world in
  DeepAgent.truthy_id (DeepAgent.datasource_id Delivery.demo_request) = true
  /\ Delivery.channel_accepts Delivery.demo_world
  /\ res.2 = DeepAgent.Ret tt
  /\ DeepAgent.frames res.1
     = DeepAgent.frames Delivery.demo_world
       ++ (if DeepAgent._is_connection_error "ValueError" "no such data source" then []
           else [DeepAgent._create_response
                   (DeepAgent.setup_error_text "no such data source") "error"
                   DeepAgent.ANSWER])
  /\ DeepAgent.user_records res.1 = DeepAgent.user_records Delivery.demo_world
  /\ DeepAgent.t02_answer_data res.1 = [].
Proof.
  intros res.
  assert (Hacc : Delivery.channel_accepts Delivery.demo_world) by (vm_compute; done).
  split; [reflexivity|]. split; [exact Hacc|].
  exact (setup_failure_is_reported_once Delivery.demo_request "ValueError"
           "no such data source" Delivery.demo_world eq_refl Hacc).
Defined.

(** * Further properties of the tool layer *)

Section ToolFrame.

Import PyStr NativeSqlTools Statements.

Variable table_info_from_metadata : Z -> Outcome TableInfo.
Variable execute_query : string -> string -> string -> Outcome (list Row).
Variable format_rows : list Row -> string.
Variable _handle_starrocks_error : string -> string -> option string.

Local Abbreviation invoke :=
  (invoke table_info_from_metadata execute_query format_rows _handle_starrocks_error).

(** What an invocation keeps: the data source, the governor's
    configuration and, unless a statement is run, the statements sent. *)
Lemma record_keeps w now tool ok q :
  _current_datasource (_record_tool_call w now tool ok q) = _current_datasource w
  /\ ToolCallManager.config (manager (_record_tool_call w now tool ok q))
     = ToolCallManager.config (manager w)
  /\ executed (_record_tool_call w now tool ok q) = executed w.
Proof. done. Qed.


Lemma unset_is_error_text : is_error_text "错误: 未设置数据源信息" = true.
Proof. reflexivity. Qed.


End ToolFrame.

Section SessionIds.

Import PyStr NativeSqlTools Statements.

Lemma truthy_datasource_prefix s : truthy ("datasource_" +:+ s) = true.
Proof. reflexivity. Qed.

(** X11.  After [set_native_datasource_info] the tools work in the
    session that was passed, or, when none (or an empty one) was passed,
    in a session named after the data source id; two ids never share
    such a derived session.  Selecting a data source keeps the
    governor's ledgers, so the new session continues whatever was
    recorded under its name before. *)
Theorem session_of_data_source w id ty cfg sid :
  let w' := set_native_datasource_info w id ty cfg sid in
  _get_session_id w'
  = (if truthy_str sid then default EmptyString sid else "datasource_" +:+ pretty id)
  /\ current_ledger w' = ToolCallManager.ledger (manager w) (_get_session_id w')
  /\ executed w' = executed w
  /\ (forall w2 id2 ty2 cfg2,
        id2 <> id ->
        _get_session_id (set_native_datasource_info w2 id2 ty2 cfg2 None)
        <> _get_session_id (set_native_datasource_info w id ty cfg None)).
Proof.
  cbv zeta. split; [|split; [done|split; [done|]]].
  - unfold _get_session_id, set_native_datasource_info. cbn [_current_datasource session_id].
    destruct sid as [s|]; cbn [truthy_str default].
    + destruct s; [reflexivity|]. reflexivity.
    + reflexivity.
  - intros w2 id2 ty2 cfg2 Hne. unfold _get_session_id, set_native_datasource_info.
    cbn [_current_datasource session_id truthy_str default].
    rewrite !truthy_datasource_prefix. cbn [default]. intros E.
    apply Hne. injection E as E. change (pretty id2 = pretty id) in E.
    exact (pretty_Z_inj _ _ E).
Qed.

End SessionIds.


(** X11, witness: data sources 7 and 8. *)
Lemma session_of_data_source_witness :
  8%Z <> 7%Z
  /\ NativeSqlTools._get_session_id
       (NativeSqlTools.set_native_datasource_info Statements.demo_world 8 "doris" "cfg" None)
     <> NativeSqlTools._get_session_id
          (NativeSqlTools.set_native_datasource_info Statements.demo_world 7 "doris" "cfg" None).
Proof.
  assert (H : 8%Z <> 7%Z) by (intros E; discriminate E).
  split; [exact H|].
  exact (proj2 (proj2 (proj2 (session_of_data_source Statements.demo_world 7 "doris" "cfg"
           None))) Statements.demo_world 8%Z "doris" "cfg" H).
Defined.

(** * Further properties: the query checker *)

Section CheckerFacts.

Import PyStr NativeSqlTools Statements.



End CheckerFacts.


(** * Further properties: table metadata *)

Section MetadataFacts.

Import PyStr PyDict NativeSqlTools TableMetadata.

Lemma dict_set_keys {V} k (v : V) d :
  (dict_set k v d).*1 = if bool_decide (k ∈ d.*1) then d.*1 else d.*1 ++ [k].
Proof.
  induction d as [|[k' v'] rest IH].
  - case_bool_decide as H; [by apply elem_of_nil in H|done].
  - cbn [dict_set]. destruct (String.eqb_spec k' k) as [->|Hne].
    + rewrite !fmap_cons. cbn [fst].
      by rewrite bool_decide_eq_true_2 by apply list_elem_of_here.
    + rewrite !fmap_cons, IH. cbn [fst].
      destruct (decide (k ∈ rest.*1)) as [Hin|Hnin].
      * rewrite !bool_decide_eq_true_2; [done| |done]. by apply list_elem_of_further.
      * rewrite !bool_decide_eq_false_2; [done| |done].
        intros [E|Hin]%elem_of_cons; [by subst|done].
Qed.

Lemma dict_set_elem_of_keys {V} k (v : V) d x :
  x ∈ (dict_set k v d).*1 <-> x = k \/ x ∈ d.*1.
Proof.
  rewrite dict_set_keys. case_bool_decide as Hin.
  - split; [by right|]. intros [->|H]; done.
  - rewrite elem_of_app, list_elem_of_singleton. tauto.
Qed.

Lemma dict_set_NoDup {V} k (v : V) d : NoDup d.*1 -> NoDup (dict_set k v d).*1.
Proof.
  intros Hd. rewrite dict_set_keys. case_bool_decide as Hin; [done|].
  apply NoDup_app. split; [done|]. split; [|apply NoDup_singleton].
  intros x Hx ->%list_elem_of_singleton. done.
Qed.

Lemma group_get_append k f d k0 :
  group_get (group_append k f d) k0
  = group_get d k0 ++ (if Z.eqb k k0 then [f] else []).
Proof.
  unfold group_get. induction d as [|[k' l] rest IH]; simpl.
  - destruct (Z.eqb_spec k k0); done.
  - destruct (Z.eqb_spec k' k) as [->|Hne]; simpl.
    + destruct (Z.eqb_spec k k0); simpl; [done|].
      clear IH. induction rest as [|[k1 l1] rest IH]; simpl; [done|].
      by destruct (Z.eqb_spec k1 k0); simpl; rewrite ?app_nil_r.
    + destruct (Z.eqb_spec k' k0) as [->|Hne0]; simpl; [|exact IH].
      destruct (Z.eqb_spec k k0); [by subst|]. by rewrite app_nil_r.
Qed.

Lemma group_get_fold fields : forall d k0,
  group_get (fold_left (fun d field => group_append (f_table_id field) field d) fields d) k0
  = group_get d k0 ++ List.filter (fun f => Z.eqb (f_table_id f) k0) fields.
Proof.
  induction fields as [|f rest IH]; intros d k0; simpl.
  - by rewrite app_nil_r.
  - rewrite IH, group_get_append. destruct (Z.eqb (f_table_id f) k0); simpl.
    + by rewrite <- app_assoc.
    + by rewrite app_nil_r.
Qed.

(** The fields grouped under a table id are the fields with that id, in
    the order of the query. *)
Lemma group_get_fields fields k0 :
  group_get (fields_by_table fields) k0
  = List.filter (fun f => Z.eqb (f_table_id f) k0) fields.
Proof. unfold fields_by_table. by rewrite group_get_fold. Qed.

Lemma columns_of_keys table_fields : forall acc x,
  x ∈ (fold_left (fun columns field =>
                    dict_set (column_of field).1 (column_of field).2 columns)
         table_fields acc).*1
  <-> x ∈ acc.*1 \/ exists f, f ∈ table_fields /\ f_field_name f = x.
Proof.
  induction table_fields as [|f rest IH]; intros acc x; simpl.
  - split; [by left|]. intros [H|(f & H & _)]; [done|]. by apply elem_of_nil in H.
  - rewrite IH, dict_set_elem_of_keys. split.
    + intros [[->|H]|(g & Hg & Hx)].
      * right. exists f. split; [apply list_elem_of_here|done].
      * by left.
      * right. exists g. split; [by apply list_elem_of_further|done].
    + intros [H|(g & Hg & Hx)]; [left; by right|].
      apply elem_of_cons in Hg as [->|Hg]; [left; left; done|].
      right. by exists g.
Qed.

Lemma columns_of_NoDup table_fields : forall acc,
  NoDup acc.*1 ->
  NoDup (fold_left (fun columns field =>
                      dict_set (column_of field).1 (column_of field).2 columns)
           table_fields acc).*1.
Proof.
  induction table_fields as [|f rest IH]; intros acc Hacc; simpl; [done|].
  by apply IH, dict_set_NoDup.
Qed.

Lemma add_table_keys groups info t x :
  x ∈ (add_table groups info t).*1
  <-> x ∈ info.*1 \/ (x = t_table_name t /\ group_get groups (t_id t) <> []).
Proof.
  unfold add_table. destruct (group_get groups (t_id t)) as [|f l].
  - split; [by left|]. intros [H|[_ H]]; done.
  - rewrite dict_set_elem_of_keys. split.
    + intros [->|H]; [right; done|by left].
    + intros [H|[-> _]]; [by right|by left].
Qed.

Lemma add_table_NoDup groups info t : NoDup info.*1 -> NoDup (add_table groups info t).*1.
Proof.
  intros H. unfold add_table. destruct (group_get groups (t_id t)); [done|].
  by apply dict_set_NoDup.
Qed.

Lemma fold_tables_keys groups tables : forall info x,
  x ∈ (fold_left (add_table groups) tables info).*1
  <-> x ∈ info.*1
      \/ exists t, t ∈ tables /\ t_table_name t = x /\ group_get groups (t_id t) <> [].
Proof.
  induction tables as [|t rest IH]; intros info x; simpl.
  - split; [by left|]. intros [H|(t & H & _)]; [done|]. by apply elem_of_nil in H.
  - rewrite IH, add_table_keys. split.
    + intros [[H|[-> H]]|(t' & Ht & Hx & Hg)].
      * by left.
      * right. exists t. split; [apply list_elem_of_here|done].
      * right. exists t'. split; [by apply list_elem_of_further|done].
    + intros [H|(t' & Ht & Hx & Hg)]; [left; by left|].
      apply elem_of_cons in Ht as [->|Ht]; [left; right; done|].
      right. by exists t'.
Qed.

Lemma fold_tables_NoDup groups tables : forall info,
  NoDup info.*1 -> NoDup (fold_left (add_table groups) tables info).*1.
Proof.
  induction tables as [|t rest IH]; intros info H; simpl; [done|].
  by apply IH, add_table_NoDup.
Qed.

(** Every entry comes from a round of the loop over the tables. *)
Lemma dict_set_elem_of {V} k (v : V) d x :
  x ∈ dict_set k v d -> x = (k, v) \/ x ∈ d.
Proof.
  induction d as [|[k' v'] rest IH]; simpl.
  - intros H%list_elem_of_singleton. by left.
  - destruct (String.eqb k' k).
    + intros [->|H]%elem_of_cons; [by left|]. right. by apply list_elem_of_further.
    + intros [->|H]%elem_of_cons; [right; apply list_elem_of_here|].
      destruct (IH H) as [->|H']; [by left|]. right. by apply list_elem_of_further.
Qed.

Lemma fold_tables_entries groups tables : forall info name meta,
  (name, meta) ∈ fold_left (add_table groups) tables info ->
  (name, meta) ∈ info
  \/ exists t, t ∈ tables /\ t_table_name t = name
               /\ group_get groups (t_id t) <> []
               /\ columns meta = columns_of (group_get groups (t_id t)).
Proof.
  induction tables as [|t rest IH]; intros info name meta; simpl; [by left|].
  intros H. destruct (IH _ _ _ H) as [H1|(t' & Ht & Hn & Hg & Hc)].
  - unfold add_table in H1. destruct (group_get groups (t_id t)) as [|f l] eqn:E; [by left|].
    apply dict_set_elem_of in H1 as [H1|H1]; [|by left].
    injection H1 as -> ->. right. exists t. split; [apply list_elem_of_here|].
    rewrite E. done.
  - right. exists t'. split; [by apply list_elem_of_further|done].
Qed.

Lemma elem_of_checked_tables id all_tables t :
  t ∈ checked_tables id all_tables
  <-> t ∈ all_tables /\ t_ds_id t = id /\ t_checked t = true.
Proof.
  unfold checked_tables. rewrite !list_elem_of_In, filter_In, andb_true_iff, Z.eqb_eq. tauto.
Qed.

Lemma elem_of_checked_fields id all_tables all_fields t f :
  t ∈ checked_tables id all_tables ->
  (f ∈ List.filter (fun f => Z.eqb (f_table_id f) (t_id t))
         (checked_fields id (map t_id (checked_tables id all_tables)) all_fields)
   <-> f ∈ all_fields /\ field_shown id t f).
Proof.
  intros Ht. unfold checked_fields, field_shown.
  rewrite !list_elem_of_In, !filter_In, !andb_true_iff, !Z.eqb_eq. split.
  - tauto.
  - intros (Hin & Hd & Hid & Hc). split; [|done]. split; [done|]. split; [|done].
    split; [done|]. apply existsb_exists. exists (t_id t). rewrite Z.eqb_eq.
    split; [|done]. apply in_map. by apply list_elem_of_In.
Qed.

Lemma filter_nonempty {A} (p : A -> bool) l :
  List.filter p l <> [] <-> exists x, x ∈ List.filter p l.
Proof.
  destruct (List.filter p l) as [|x r].
  - split; [done|]. intros [x H]. by apply elem_of_nil in H.
  - split; [|done]. intros _. exists x. apply list_elem_of_here.
Qed.

(** X13.  When the metadata database answers, the tables that
    [_get_table_info_from_metadata] lists for a data source are exactly
    the checked tables of that data source that have at least one
    checked field, each name once; every column listed under a name is a
    checked field of a checked table of that name.  Hence a table or
    field that is not checked is never shown to the agent, and
    [sql_db_schema] answers for it as for a table that does not
    exist. *)
Theorem only_checked_tables_are_listed id all_tables all_fields :
  id <> 0%Z ->
  exists info,
    _get_table_info_from_metadata (Serving all_tables all_fields) id = Returns info
    /\ NoDup info.*1
    /\ (forall name,
          name ∈ info.*1 <-> exists t, table_shown id all_tables all_fields name t)
    /\ (forall name meta col,
          (name, meta) ∈ info -> col ∈ (columns meta).*1 ->
          exists t f, table_shown id all_tables all_fields name t
                      /\ f ∈ all_fields /\ field_shown id t f /\ f_field_name f = col)
    /\ (forall name meta, (name, meta) ∈ info -> NoDup (columns meta).*1)
    /\ (forall name,
          (forall t, ~ table_shown id all_tables all_fields name t) ->
          schema_part info name = "表 '" +:+ name +:+ "' 不存在").
Proof.
  intros Hid. unfold _get_table_info_from_metadata.
  destruct (Z.eqb_spec id 0) as [->|_]; [done|]. cbv zeta.
  set (tables := checked_tables id all_tables).
  set (fields := checked_fields id (map t_id tables) all_fields).
  set (info := fold_left (add_table (fields_by_table fields)) tables []).
  assert (Hkeys : forall name,
            name ∈ info.*1 <-> exists t, table_shown id all_tables all_fields name t).
  { intros name. subst info. rewrite fold_tables_keys. split.
    - intros [H|(t & Ht & Hn & Hg)]; [by apply elem_of_nil in H|].
      exists t. rewrite group_get_fields in Hg.
      apply filter_nonempty in Hg as [f Hf].
      apply (elem_of_checked_fields id all_tables all_fields t f Ht) in Hf as [Hf1 Hf2].
      apply elem_of_checked_tables in Ht as (Ht1 & Ht2 & Ht3).
      unfold table_shown. eauto 10.
    - intros (t & Ht1 & Ht2 & Ht3 & Hn & f & Hf1 & Hf2). right. exists t.
      assert (Ht : t ∈ tables) by (by apply elem_of_checked_tables).
      split; [done|]. split; [done|]. rewrite group_get_fields.
      apply filter_nonempty. exists f.
      by apply (elem_of_checked_fields id all_tables all_fields t f Ht). }
  exists info. split; [done|]. split; [by apply fold_tables_NoDup, NoDup_nil|].
  split; [exact Hkeys|]. split; [|split].
  - intros name meta col Hin Hcol. subst info.
    apply fold_tables_entries in Hin as [Hin|(t & Ht & Hn & Hg & Hc)];
      [by apply elem_of_nil in Hin|].
    rewrite Hc in Hcol. unfold columns_of in Hcol.
    apply columns_of_keys in Hcol as [Hcol|(f & Hf & Hx)]; [by apply elem_of_nil in Hcol|].
    rewrite group_get_fields in Hf.
    apply (elem_of_checked_fields id all_tables all_fields t f Ht) in Hf as [Hf1 Hf2].
    pose proof Ht as Ht'. apply elem_of_checked_tables in Ht' as (Ht1 & Ht2 & Ht3).
    exists t, f. unfold table_shown. eauto 12.
  - intros name meta Hin. subst info.
    apply fold_tables_entries in Hin as [Hin|(t & Ht & Hn & Hg & Hc)];
      [by apply elem_of_nil in Hin|].
    rewrite Hc. unfold columns_of. by apply columns_of_NoDup, NoDup_nil.
  - intros name Hnone. unfold schema_part.
    destruct (List.find _ info) as [[k meta]|] eqn:E; [|done].
    exfalso. apply find_some in E as [Hin Hk]. simpl in Hk.
    apply String.eqb_eq in Hk as ->.
    assert (name ∈ info.*1) as Hn.
    { apply list_elem_of_fmap. exists (name, meta). split; [done|]. by apply list_elem_of_In. }
    apply Hkeys in Hn as [t Ht]. by apply (Hnone t).
Qed.

End MetadataFacts.

(** X13, witness: of the tables of data source 7 only [orders] is
    listed, with its one checked column. *)
Lemma only_checked_tables_are_listed_witness :
  7%Z <> 0%Z
  /\ exists info,
       TableMetadata._get_table_info_from_metadata
         (TableMetadata.Serving TableMetadata.demo_tables TableMetadata.demo_fields) 7
       = NativeSqlTools.Returns info
       /\ info.*1 = ["orders"]
       /\ NativeSqlTools.schema_part info "salaries" = "表 'salaries' 不存在".
Proof.
  assert (H : 7%Z <> 0%Z) by (intros E; discriminate E).
  split; [exact H|].
  destruct (only_checked_tables_are_listed 7 TableMetadata.demo_tables
              TableMetadata.demo_fields H) as (info & E & _).
  exists info. split; [exact E|].
  vm_compute in E. injection E as <-. split; reflexivity.
Defined.

(** * Further properties: the result table *)

Section ResultTableFacts.

Import PyStr NativeSqlTools ResultTable.

Lemma length_append a b : String.length (a +:+ b) = String.length a + String.length b.
Proof. induction a as [|c a IH]; simpl; [done|]. by rewrite IH. Qed.










End ResultTableFacts.


(** * Further properties: the Excel agent's types and names *)

Section DtypeFacts.

Import PyStr ExcelNames.

Lemma mapping_get_int dtype :
  startswith dtype "int" = true ->
  mapping_get dtype "BIGINT" = if String.eqb dtype "int32" then "INTEGER" else "BIGINT".
Proof.
  intros H. unfold mapping_get, dtype_mapping. cbn [List.find fst snd].
  destruct (String.eqb_spec "object" dtype) as [<-|_]; [vm_compute in H; discriminate H|].
  destruct (String.eqb_spec "int64" dtype) as [<-|_]; [done|].
  destruct (String.eqb_spec "int32" dtype) as [<-|Hne]; [done|].
  destruct (String.eqb_spec dtype "int32") as [->|_]; [done|].
  destruct (String.eqb_spec "float64" dtype) as [<-|_]; [vm_compute in H; discriminate H|].
  destruct (String.eqb_spec "float32" dtype) as [<-|_]; [vm_compute in H; discriminate H|].
  destruct (String.eqb_spec "bool" dtype) as [<-|_]; [vm_compute in H; discriminate H|].
  destruct (String.eqb_spec "datetime64[ns]" dtype) as [<-|_]; [vm_compute in H; discriminate H|].
  destruct (String.eqb_spec "timedelta64[ns]" dtype) as [<-|_]; [vm_compute in H; discriminate H|].
  done.
Qed.

Lemma mapping_get_float dtype :
  startswith dtype "float" = true -> mapping_get dtype "FLOAT" = "FLOAT".
Proof.
  intros H. unfold mapping_get, dtype_mapping. cbn [List.find fst snd].
  destruct (String.eqb_spec "object" dtype) as [<-|_]; [vm_compute in H; discriminate H|].
  destruct (String.eqb_spec "int64" dtype) as [<-|_]; [vm_compute in H; discriminate H|].
  destruct (String.eqb_spec "int32" dtype) as [<-|_]; [vm_compute in H; discriminate H|].
  destruct (String.eqb_spec "float64" dtype) as [<-|_]; [done|].
  destruct (String.eqb_spec "float32" dtype) as [<-|_]; [done|].
  destruct (String.eqb_spec "bool" dtype) as [<-|_]; [vm_compute in H; discriminate H|].
  destruct (String.eqb_spec "datetime64[ns]" dtype) as [<-|_]; [vm_compute in H; discriminate H|].
  destruct (String.eqb_spec "timedelta64[ns]" dtype) as [<-|_]; [vm_compute in H; discriminate H|].
  done.
Qed.

Lemma startswith_same_first s a p b q :
  startswith s (String a p) = true -> startswith s (String b q) = true -> a = b.
Proof.
  unfold startswith. destruct s as [|c r]; simpl; [done|].
  destruct (ascii_dec a c) as [->|_]; [|done].
  destruct (ascii_dec b c) as [->|_]; done.
Qed.

(** X15.  [map_pandas_dtype_to_sql] answers with one of five SQL types
    and decides by the prefix of the dtype alone: INTEGER exactly for
    [int32], BIGINT for every other dtype that starts with [int], FLOAT
    for every dtype that starts with [float].  The entries of its table
    for [bool] and [timedelta64[ns]] are never reached: it never
    answers BOOLEAN or VARCHAR(50), and a dtype outside the four
    prefixes, such as [bool] or an unsigned integer, is declared
    VARCHAR(255). *)
Theorem dtype_is_decided_by_prefix dtype :
  map_pandas_dtype_to_sql dtype ∈ sql_types
  /\ (map_pandas_dtype_to_sql dtype = "INTEGER" <-> dtype = "int32")
  /\ (startswith dtype "int" = true -> dtype <> "int32" ->
      map_pandas_dtype_to_sql dtype = "BIGINT")
  /\ (startswith dtype "float" = true -> map_pandas_dtype_to_sql dtype = "FLOAT")
  /\ (startswith dtype "object" = false -> startswith dtype "int" = false ->
      startswith dtype "float" = false -> startswith dtype "datetime" = false ->
      map_pandas_dtype_to_sql dtype = "VARCHAR(255)")
  /\ map_pandas_dtype_to_sql dtype <> "BOOLEAN"
  /\ map_pandas_dtype_to_sql dtype <> "VARCHAR(50)".
Proof.
  assert (Hcases :
    (map_pandas_dtype_to_sql dtype = "VARCHAR(255)"
     /\ startswith dtype "int" = false /\ startswith dtype "float" = false)
    \/ (map_pandas_dtype_to_sql dtype = "INTEGER" /\ dtype = "int32")
    \/ (map_pandas_dtype_to_sql dtype = "BIGINT" /\ dtype <> "int32"
        /\ startswith dtype "int" = true /\ startswith dtype "float" = false)
    \/ (map_pandas_dtype_to_sql dtype = "FLOAT" /\ startswith dtype "int" = false
        /\ startswith dtype "float" = true)
    \/ (map_pandas_dtype_to_sql dtype = "DATETIME"
        /\ startswith dtype "int" = false /\ startswith dtype "float" = false
        /\ startswith dtype "datetime" = true)).
  { unfold map_pandas_dtype_to_sql.
    destruct (startswith dtype "object") eqn:Ho.
    { left. split; [done|]. split.
      - destruct (startswith dtype "int") eqn:Hi; [|done].
        pose proof (startswith_same_first _ _ _ _ _ Ho Hi) as E. discriminate E.
      - destruct (startswith dtype "float") eqn:Hf; [|done].
        pose proof (startswith_same_first _ _ _ _ _ Ho Hf) as E. discriminate E. }
    destruct (startswith dtype "int") eqn:Hi.
    { rewrite (mapping_get_int dtype Hi).
      assert (Hf : startswith dtype "float" = false).
      { destruct (startswith dtype "float") eqn:Hf; [|done].
        pose proof (startswith_same_first _ _ _ _ _ Hi Hf) as E. discriminate E. }
      destruct (String.eqb_spec dtype "int32") as [->|Hne].
      - right. left. done.
      - right. right. left. done. }
    destruct (startswith dtype "float") eqn:Hf.
    { rewrite (mapping_get_float dtype Hf). right. right. right. left. done. }
    destruct (startswith dtype "datetime") eqn:Hd.
    { right. right. right. right. done. }
    left. done. }
  unfold sql_types. rewrite !elem_of_cons.
  destruct Hcases as [(-> & Hi & Hf)|[(-> & ->)|[(-> & Hne & Hi & Hf)|[(-> & Hi & Hf)|
                      (-> & Hi & Hf & Hd)]]]].
  - split; [tauto|]. split; [split; [done|intros ->; discriminate Hi]|].
    split; [congruence|]. split; [congruence|]. done.
  - split; [tauto|]. split; [done|]. split; [done|]. split; [intros H; discriminate H|].
    split; [intros _ H; discriminate H|]. done.
  - split; [tauto|]. split; [split; [done|intros ->; done]|].
    split; [done|]. split; [congruence|]. split; [congruence|]. done.
  - split; [tauto|]. split; [split; [done|intros ->; discriminate Hi]|].
    split; [congruence|]. split; [done|]. split; [congruence|]. done.
  - split; [tauto|]. split; [split; [done|intros ->; discriminate Hi]|].
    split; [congruence|]. split; [congruence|]. split; [congruence|]. done.
Qed.

End DtypeFacts.

Section NameFacts.

Import PyStr ExcelNames.

Variable word_beyond_ascii : ascii -> bool.
Variable digit_beyond_ascii : ascii -> bool.
Variable splitext_root : string -> string.

Local Abbreviation is_word := (is_word word_beyond_ascii).
Local Abbreviation isdigit := (isdigit digit_beyond_ascii).
Local Abbreviation replace_illegal := (replace_illegal word_beyond_ascii).
Local Abbreviation sanitize_table_or_column_name :=
  (sanitize_table_or_column_name word_beyond_ascii digit_beyond_ascii).
Local Abbreviation sanitize_catalog_name :=
  (sanitize_catalog_name word_beyond_ascii digit_beyond_ascii splitext_root).
Local Abbreviation identifier := (identifier word_beyond_ascii digit_beyond_ascii).

Lemma underscore_is_word : is_word "_" = true.
Proof. reflexivity. Qed.

Lemma replace_illegal_word s : all_chars is_word (replace_illegal s) = true.
Proof.
  unfold ExcelNames.replace_illegal.
  induction s as [|c r IH]; cbn [map_chars all_chars]; [done|]. rewrite IH, andb_true_r.
  destruct (is_word c) eqn:E; [exact E|reflexivity].
Qed.


Lemma lstrip_underscore_all p s :
  all_chars p s = true -> all_chars p (lstrip_underscore s) = true.
Proof.
  induction s as [|c r IH]; cbn [lstrip_underscore all_chars]; [done|]. intros H.
  destruct (Ascii.eqb c "_"); [|exact H]. apply andb_true_iff in H as [_ H]. by apply IH.
Qed.

Lemma rstrip_underscore_all p s :
  all_chars p s = true -> all_chars p (rstrip_underscore s) = true.
Proof.
  induction s as [|c r IH]; cbn [rstrip_underscore all_chars]; [done|].
  intros [Hc Hr]%andb_true_iff.
  specialize (IH Hr). destruct (rstrip_underscore r) as [|c' r'].
  - destruct (Ascii.eqb c "_"); cbn [all_chars]; [done|]. by rewrite Hc.
  - cbn [all_chars] in *. by rewrite Hc, IH.
Qed.

Lemma strip_underscore_all p s :
  all_chars p s = true -> all_chars p (strip_underscore s) = true.
Proof. intros H. by apply rstrip_underscore_all, lstrip_underscore_all. Qed.

Lemma lstrip_underscore_first s :
  first_char (Ascii.eqb "_") (lstrip_underscore s) = false.
Proof.
  induction s as [|c r IH]; cbn [lstrip_underscore first_char]; [done|].
  destruct (Ascii.eqb c "_") eqn:E; [exact IH|].
  cbn [first_char]. by rewrite Ascii.eqb_sym.
Qed.

Lemma rstrip_underscore_first s :
  first_char (Ascii.eqb "_") s = false ->
  first_char (Ascii.eqb "_") (rstrip_underscore s) = false.
Proof.
  destruct s as [|c r]; cbn [rstrip_underscore first_char]; [done|]. intros H.
  destruct (rstrip_underscore r); [|exact H].
  destruct (Ascii.eqb c "_"); [done|exact H].
Qed.

Lemma rstrip_underscore_last s :
  last_char (Ascii.eqb "_") (rstrip_underscore s) = false.
Proof.
  induction s as [|c r IH]; cbn [rstrip_underscore last_char]; [done|].
  destruct (rstrip_underscore r) as [|c' r'] eqn:E.
  - destruct (Ascii.eqb c "_") eqn:Ec; [done|].
    cbn [last_char]. by rewrite Ascii.eqb_sym.
  - exact IH.
Qed.

Lemma strip_underscore_ends s :
  first_char (Ascii.eqb "_") (strip_underscore s) = false
  /\ last_char (Ascii.eqb "_") (strip_underscore s) = false.
Proof.
  unfold strip_underscore. split.
  - apply rstrip_underscore_first, lstrip_underscore_first.
  - apply rstrip_underscore_last.
Qed.




Lemma all_chars_app p a b :
  all_chars p (a +:+ b) = all_chars p a && all_chars p b.
Proof. induction a as [|c a IH]; simpl; [done|]. by rewrite IH, andb_assoc. Qed.

Lemma last_char_app p a b :
  b <> EmptyString -> last_char p (a +:+ b) = last_char p b.
Proof.
  intros Hb. induction a as [|c a IH]; [done|].
  change (String c a +:+ b) with (String c (a +:+ b)).
  destruct (a +:+ b) as [|c' r] eqn:E.
  - destruct a; [by apply Hb in E|discriminate E].
  - cbn [last_char]. exact IH.
Qed.

(** The shape shared by the two functions: a stripped name, prefixed
    when it starts with a digit, or the fallback when nothing is left. *)
Lemma finished_name_is_identifier prefix fallback legal :
  identifier prefix -> identifier fallback ->
  all_chars is_word legal = true ->
  first_char (Ascii.eqb "_") legal = false ->
  last_char (Ascii.eqb "_") legal = false ->
  let named := if truthy legal && first_char isdigit legal
               then prefix +:+ "_" +:+ legal else legal in
  identifier (if truthy named then named else fallback).
Proof.
  intros (Hp1 & Hp2 & Hp3 & Hp4 & Hp5) Hfb Hw Hf Hl. cbv zeta.
  destruct legal as [|c r]; [exact Hfb|].
  cbn [truthy andb]. destruct (first_char isdigit (String c r)) eqn:Hd.
  - destruct prefix as [|pc pr]; [done|].
    change (String pc pr +:+ "_" +:+ String c r)
      with (String pc (pr +:+ "_" +:+ String c r)).
    cbn [truthy]. split; [done|].
    change (String pc (pr +:+ "_" +:+ String c r))
      with (String pc pr +:+ "_" +:+ String c r).
    split; [|split; [exact Hp3|split; [exact Hp4|]]].
    + rewrite !all_chars_app, Hp2, Hw. reflexivity.
    + rewrite !last_char_app by done. exact Hl.
  - cbn [truthy]. done.
Qed.

Lemma table_prefix_identifier is_column_name :
  identifier (if is_column_name : bool then "column" else "table").
Proof. destruct is_column_name; repeat split; done. Qed.

Lemma sanitize_table_identifier origin_name is_column_name :
  identifier (sanitize_table_or_column_name origin_name is_column_name).
Proof.
  unfold ExcelNames.sanitize_table_or_column_name.
  destruct (strip_underscore_ends (replace_illegal origin_name)) as [Hf Hl].
  apply (finished_name_is_identifier
           (if is_column_name then "column" else "table") "unknown_sheet").
  - apply table_prefix_identifier.
  - repeat split; done.
  - apply strip_underscore_all, replace_illegal_word.
  - exact Hf.
  - exact Hl.
Qed.


Lemma word_has_no_char c s :
  is_word c = false -> all_chars is_word s = true -> has_char c s = false.
Proof.
  intros Hc. induction s as [|d r IH]; simpl; [done|].
  intros [Hd Hr]%andb_true_iff. rewrite (IH Hr), orb_false_r.
  destruct (Ascii.eqb_spec d c) as [->|_]; [congruence|done].
Qed.


Lemma replace_char_app old new a b :
  replace_char old new (a +:+ b) = replace_char old new a +:+ replace_char old new b.
Proof. unfold replace_char. induction a as [|c a IH]; simpl; [done|]. by rewrite IH. Qed.




End NameFacts.

(** X15, witness: 16-bit and unsigned integers. *)
Lemma dtype_is_decided_by_prefix_witness :
  PyStr.startswith "int16" "int" = true /\ "int16" <> "int32"
  /\ ExcelNames.map_pandas_dtype_to_sql "int16" = "BIGINT"
  /\ ExcelNames.map_pandas_dtype_to_sql "uint8" = "VARCHAR(255)"
  /\ ExcelNames.map_pandas_dtype_to_sql "bool" = "VARCHAR(255)".
Proof.
  assert (H1 : PyStr.startswith "int16" "int" = true) by reflexivity.
  assert (H2 : "int16" <> "int32") by (intros E; discriminate E).
  split; [exact H1|]. split; [exact H2|]. split; [|split].
  - exact (proj1 (proj2 (proj2 (dtype_is_decided_by_prefix "int16"))) H1 H2).
  - exact (proj1 (proj2 (proj2 (proj2 (proj2 (dtype_is_decided_by_prefix "uint8")))))
             eq_refl eq_refl eq_refl eq_refl).
  - exact (proj1 (proj2 (proj2 (proj2 (proj2 (dtype_is_decided_by_prefix "bool")))))
             eq_refl eq_refl eq_refl eq_refl).
Defined.


(** * Further properties: reading the files of the Excel agent *)

Section DictFacts.

Import PyStr PyDict.

Lemma key_in_spec {V} k (d : list (string * V)) : key_in k d = true <-> k ∈ d.*1.
Proof.
  unfold key_in. rewrite existsb_exists, list_elem_of_fmap. split.
  - intros ([k' v] & Hin & Hk). apply String.eqb_eq in Hk. simpl in Hk. subst.
    exists (k, v). split; [done|]. by apply list_elem_of_In.
  - intros ([k' v] & -> & Hin). exists (k', v). split; [by apply list_elem_of_In|].
    apply String.eqb_refl.
Qed.

Lemma dict_get_Some {V} k (d : list (string * V)) v : dict_get k d = Some v -> (k, v) ∈ d.
Proof.
  unfold dict_get. destruct (List.find _ d) as [[k' v']|] eqn:E; [|done].
  intros [= <-]. apply find_some in E as [Hin Hk]. apply String.eqb_eq in Hk.
  simpl in Hk. subst. by apply list_elem_of_In.
Qed.

Lemma dict_get_key_in {V} k (d : list (string * V)) :
  key_in k d = false -> dict_get k d = None.
Proof.
  intros H. destruct (dict_get k d) as [v|] eqn:E; [|done].
  apply dict_get_Some in E. assert (key_in k d = true) as H'; [|congruence].
  apply key_in_spec, list_elem_of_fmap. by exists (k, v).
Qed.

Lemma dict_get_set_eq {V} k (v : V) d : dict_get k (dict_set k v d) = Some v.
Proof.
  unfold dict_get. induction d as [|[k' v'] rest IH]; cbn [dict_set List.find fst snd].
  - by rewrite String.eqb_refl.
  - destruct (String.eqb k' k) eqn:E; cbn [List.find fst snd].
    + by rewrite String.eqb_refl.
    + rewrite E. exact IH.
Qed.

Lemma dict_get_set_ne {V} k k0 (v : V) d :
  k0 <> k -> dict_get k0 (dict_set k v d) = dict_get k0 d.
Proof.
  intros Hne. unfold dict_get.
  induction d as [|[k' v'] rest IH]; cbn [dict_set List.find fst snd].
  - destruct (String.eqb_spec k k0); [by subst|done].
  - destruct (String.eqb_spec k' k) as [->|Hk]; cbn [List.find fst snd].
    + destruct (String.eqb_spec k k0); [by subst|done].
    + destruct (String.eqb k' k0); [done|exact IH].
Qed.

Lemma dict_update_elem_of {V} (other : list (string * V)) : forall d x,
  x ∈ dict_update d other -> x ∈ d \/ x ∈ other.
Proof.
  unfold dict_update. induction other as [|e rest IH]; intros d x; simpl; [by left|].
  intros H. destruct (IH _ _ H) as [H1|H1].
  - apply dict_set_elem_of in H1 as [->|H1]; [|by left].
    right. destruct e. apply list_elem_of_here.
  - right. by apply list_elem_of_further.
Qed.

Lemma dict_set_values_NoDup {V B} (g : V -> B) k v (d : list (string * V)) :
  NoDup (g <$> d.*2) -> g v ∉ g <$> d.*2 -> NoDup (g <$> (dict_set k v d).*2).
Proof.
  induction d as [|[k' v'] rest IH]; cbn [dict_set].
  - intros _ _. apply NoDup_singleton.
  - rewrite !fmap_cons. cbn [snd]. intros [Hh Hr]%NoDup_cons Hv.
    apply not_elem_of_cons in Hv as [Hne Hv].
    destruct (String.eqb k' k); rewrite !fmap_cons; cbn [snd].
    + apply NoDup_cons. done.
    + apply NoDup_cons. split; [|by apply IH].
      intros Hin. apply list_elem_of_fmap in Hin as (y & Hy & Hin).
      apply list_elem_of_fmap in Hin as ([k1 v1] & -> & Hin). simpl in Hy.
      apply dict_set_elem_of in Hin as [[= -> ->]|Hin]; [congruence|].
      apply Hh. rewrite Hy. apply list_elem_of_fmap. exists v1. split; [done|].
      apply list_elem_of_fmap. by exists (k1, v1).
Qed.

End DictFacts.

Section CatalogNames.

Import PyStr PyDict ExcelNames ExcelMapping.

Lemma append_inv_head a b c : a +:+ b = a +:+ c -> b = c.
Proof. induction a as [|x a IH]; simpl; [done|]. intros [= H]. by apply IH. Qed.

Lemma candidate_inj original : Inj (=) (=) (candidate original).
Proof.
  intros i j H. unfold candidate in H. apply append_inv_head in H.
  apply (append_inv_head "_") in H. by apply (inj pretty) in H.
Qed.

Lemma candidate_longer original j : candidate original j <> original.
Proof.
  intros H. apply (f_equal String.length) in H. unfold candidate in H.
  rewrite !length_append in H. simpl in H. lia.
Qed.

Lemma unique_catalog_name_None original ci : forall fuel counter name,
  unique_catalog_name fuel original counter name ci = None ->
  key_in name ci = true
  /\ forall j, counter <= j < counter + fuel -> key_in (candidate original j) ci = true.
Proof.
  induction fuel as [|fuel IH]; intros counter name; cbn [unique_catalog_name].
  - destruct (key_in name ci); [|done]. intros _. split; [done|]. intros j Hj. lia.
  - destruct (key_in name ci); [|done]. intros H. apply IH in H as [H1 H2].
    split; [done|]. intros j Hj. destruct (decide (j = counter)) as [->|Hne]; [exact H1|].
    apply H2. lia.
Qed.

Lemma unique_catalog_name_Some original ci : forall fuel counter name r,
  unique_catalog_name fuel original counter name ci = Some r -> key_in r ci = false.
Proof.
  induction fuel as [|fuel IH]; intros counter name r; cbn [unique_catalog_name].
  - destruct (key_in name ci) eqn:E; [done|]. by intros [= <-].
  - destruct (key_in name ci) eqn:E; [apply IH|]. by intros [= <-].
Qed.

(** The search for a free catalog name ends within as many rounds as
    there are catalogs, and the name it finds is new. *)
Lemma unique_catalog_name_total original (ci : list (string * string)) :
  exists name,
    unique_catalog_name (length ci) original 1 original ci = Some name
    /\ key_in name ci = false.
Proof.
  destruct (unique_catalog_name (length ci) original 1 original ci) as [name|] eqn:E.
  - exists name. split; [done|]. by apply unique_catalog_name_Some in E.
  - exfalso. apply unique_catalog_name_None in E as [H0 H].
    set (tried := original :: (candidate original <$> seq 1 (length ci))).
    assert (Hnd : NoDup tried).
    { apply NoDup_cons. split.
      - intros Hin. apply list_elem_of_fmap in Hin as (j & Hj & _).
        symmetry in Hj. by apply candidate_longer in Hj.
      - apply (@NoDup_fmap_2 _ _ (candidate original) (candidate_inj original)), NoDup_seq. }
    assert (Hall : forall x, x ∈ tried -> x ∈ ci.*1).
    { intros x [->|Hin]%elem_of_cons; [by apply key_in_spec|].
      apply list_elem_of_fmap in Hin as (j & -> & Hj). apply elem_of_seq in Hj.
      apply key_in_spec, H. lia. }
    pose proof (submseteq_length _ _ (NoDup_submseteq _ _ Hnd Hall)) as Hlen.
    subst tried. rewrite length_cons, !length_fmap, length_seq in Hlen. lia.
Qed.

End CatalogNames.

Section ReadingFacts.

Import PyStr PyDict NativeSqlTools ExcelNames ExcelMapping.

Variable Env : Type.
Variable DataFrame : Type.
Variable word_beyond_ascii : ascii -> bool.
Variable digit_beyond_ascii : ascii -> bool.
Variable splitext_root : string -> string.
Variable basename : string -> string.
Variable get_file_url_by_key : Env -> string -> Env * Outcome string.
Variable excel_file_sheet_names : Env -> string -> Env * Outcome (list string).
Variable read_csv_head : Env -> string -> Env * Outcome unit.
Variable read_excel : Env -> string -> string -> Env * Outcome DataFrame.
Variable conn_execute : Env -> string -> DataFrame -> Env * Outcome unit.
Variable conn_close : Env -> Env * Outcome unit.
Variable now_isoformat : Env -> Env * string.
Variable df_empty : DataFrame -> bool.
Variable df_columns : DataFrame -> list string.
Variable df_rename : DataFrame -> list string -> DataFrame.
Variable df_len : DataFrame -> nat.
Variable df_dtype : DataFrame -> string -> Outcome string.
Variable df_sample : DataFrame -> list Record_.

Local Abbreviation sanitize_table_or_column_name :=
  (sanitize_table_or_column_name word_beyond_ascii digit_beyond_ascii).
Local Abbreviation register_sheet :=
  (register_sheet Env DataFrame word_beyond_ascii digit_beyond_ascii read_excel conn_execute
     df_empty df_columns df_rename df_len df_dtype df_sample).
Local Abbreviation register_excel_to_duckdb :=
  (register_excel_to_duckdb Env DataFrame word_beyond_ascii digit_beyond_ascii read_excel
     conn_execute conn_close df_empty df_columns df_rename df_len df_dtype df_sample).
Local Abbreviation process_file :=
  (process_file Env DataFrame word_beyond_ascii digit_beyond_ascii splitext_root basename
     get_file_url_by_key excel_file_sheet_names read_csv_head read_excel conn_execute
     conn_close now_isoformat df_empty df_columns df_rename df_len df_dtype df_sample).
Local Abbreviation process_files :=
  (process_files Env DataFrame word_beyond_ascii digit_beyond_ascii splitext_root basename
     get_file_url_by_key excel_file_sheet_names read_csv_head read_excel conn_execute
     conn_close now_isoformat df_empty df_columns df_rename df_len df_dtype df_sample).
Local Abbreviation read_excel_columns :=
  (read_excel_columns Env DataFrame word_beyond_ascii digit_beyond_ascii splitext_root
     basename get_file_url_by_key excel_file_sheet_names read_csv_head read_excel
     conn_execute conn_close now_isoformat df_empty df_columns df_rename df_len df_dtype
     df_sample).

Lemma register_sheet_qualified file_path catalog env sm sheet :
  Forall qualified sm ->
  Forall qualified (register_sheet file_path catalog (env, sm) sheet).2.
Proof.
  intros Hsm. unfold ExcelMapping.register_sheet.
  destruct (read_excel env file_path sheet) as [env1 [df|msg]]; [|done].
  destruct (df_empty df); [done|].
  destruct (conn_execute env1 _ _) as [env2 [u|msg]]; [|done].
  destruct (gather_columns _ _ _ _ _) as [ci|msg]; [|done].
  cbn [snd]. apply Forall_forall. intros x Hx.
  apply dict_set_elem_of in Hx as [->|Hx]; [done|].
  rewrite Forall_forall in Hsm. by apply Hsm.
Qed.

Lemma register_sheets_qualified file_path catalog sheets : forall env sm,
  Forall qualified sm ->
  Forall qualified (fold_left (register_sheet file_path catalog) sheets (env, sm)).2.
Proof.
  induction sheets as [|sheet rest IH]; intros env sm Hsm; cbn [fold_left]; [done|].
  pose proof (register_sheet_qualified file_path catalog env sm sheet Hsm) as H.
  destruct (register_sheet file_path catalog (env, sm) sheet) as [env1 sm1].
  by apply IH.
Qed.

Lemma register_excel_qualified env file_path catalog sheets env' sheet_data :
  register_excel_to_duckdb env file_path catalog sheets = (env', Returns sheet_data) ->
  Forall qualified sheet_data.
Proof.
  unfold ExcelMapping.register_excel_to_duckdb.
  pose proof (register_sheets_qualified file_path catalog sheets env [] (Forall_nil_2 _)) as H.
  destruct (fold_left _ sheets (env, [])) as [env1 sm].
  destruct (conn_close env1) as [env2 [u|msg]]; [|done]. by intros [= _ <-].
Qed.

Lemma has_char_app c a b : has_char c (a +:+ b) = has_char c a || has_char c b.
Proof. induction a as [|x a IH]; simpl; [done|]. by rewrite IH, orb_assoc. Qed.

Lemma qualified_has_dot e : qualified e -> has_char "." e.1 = true.
Proof.
  unfold qualified. intros ->. rewrite !has_char_app. simpl. apply orb_true_r.
Qed.

Lemma sanitized_has_no_dot origin :
  has_char "." (sanitize_table_or_column_name origin false) = false.
Proof.
  destruct (sanitize_table_identifier word_beyond_ascii digit_beyond_ascii origin false)
    as (_ & Hall & _).
  by apply (word_has_no_char word_beyond_ascii).
Qed.

(** The lookup of a bare table name among qualified names finds
    nothing, so no schema is appended. *)
Lemma append_schema_qualified sm catalog table comment db :
  Forall qualified sm -> has_char "." table = false ->
  append_schema sm catalog table comment db = db.
Proof.
  intros Hsm Hdot. unfold append_schema.
  destruct (dict_get table sm) as [info|] eqn:E; [|done].
  apply dict_get_Some in E. rewrite Forall_forall in Hsm.
  apply Hsm, qualified_has_dot in E. simpl in E. congruence.
Qed.

Lemma append_schemas_qualified sm catalog file sheets : forall db,
  Forall qualified sm ->
  fold_left (fun db sheet_name =>
               append_schema sm catalog (sanitize_table_or_column_name sheet_name false)
                 (file +:+ " - " +:+ sheet_name) db) sheets db = db.
Proof.
  induction sheets as [|sheet rest IH]; intros db Hsm; cbn [fold_left]; [done|].
  rewrite append_schema_qualified; [by apply IH|done|apply sanitized_has_no_dot].
Qed.

Lemma dict_update_qualified sm other :
  Forall qualified sm -> Forall qualified other -> Forall qualified (dict_update sm other).
Proof.
  rewrite !Forall_forall. intros H1 H2 x Hx.
  apply dict_update_elem_of in Hx as [Hx|Hx]; auto.
Qed.

Lemma save_file_well key catalog info sm db got :
  well_gathered got ->
  key_in catalog (got_catalog_info got) = false ->
  file_catalog_name info = catalog ->
  supported (extension_of key) = true ->
  Forall qualified sm -> db = [] ->
  well_gathered (save_file key catalog info sm db got).
Proof.
  intros (_ & _ & Hnd & Hmap) Hfresh Hcat Hext Hsm ->.
  assert (Hnew : forall key0 info0, (key0, info0) ∈ got_file_metadata got ->
                                    file_catalog_name info0 <> catalog).
  { intros key0 info0 Hin E. apply Hmap in Hin as [Hin _]. rewrite E in Hin.
    by rewrite (dict_get_key_in _ _ Hfresh) in Hin. }
  split; [done|]. split; [done|]. split.
  - cbn [save_file got_file_metadata]. apply dict_set_values_NoDup; [done|].
    rewrite Hcat. intros Hin. apply list_elem_of_fmap in Hin as (v & Hv & Hin).
    apply list_elem_of_fmap in Hin as ([k0 v0] & -> & Hin). simpl in Hv.
    by apply (Hnew k0 v0 Hin).
  - intros key0 info0 Hin. cbn [save_file got_file_metadata got_catalog_info] in *.
    apply dict_set_elem_of in Hin as [[= -> ->]|Hin].
    + rewrite Hcat. split; [apply dict_get_set_eq|done].
    + destruct (Hmap _ _ Hin) as [Hget Hsup]. split; [|done].
      rewrite dict_get_set_ne; [done|]. by apply (Hnew key0).
Qed.

(** One round of the loop over the files ends, and keeps what holds of
    the gathered data. *)
Lemma process_file_well env got file_info :
  well_gathered got ->
  exists env' got', process_file (env, got) file_info = Some (env', got')
                    /\ well_gathered got'.
Proof.
  intros Hwell. unfold ExcelMapping.process_file.
  destruct (source_file_key file_info) as [key|]; [|by eauto].
  destruct (truthy key); cbn [negb]; [|by eauto].
  destruct (get_file_url_by_key env key) as [env1 [file_url|msg]]; [|by eauto].
  cbv zeta. destruct (supported (extension_of key)) eqn:Hext; cbn [negb]; [|by eauto].
  destruct (unique_catalog_name_total
              (sanitize_catalog_name word_beyond_ascii digit_beyond_ascii splitext_root
                 (basename key)) (got_catalog_info got)) as (catalog & -> & Hfresh).
  destruct (now_isoformat env1) as [env2 now].
  pose proof Hwell as (Hdb & Hsm & _).
  destruct (String.eqb (extension_of key) "xlsx" || String.eqb (extension_of key) "xls").
  - destruct (excel_file_sheet_names env2 file_url) as [env3 [sheet_names|msg]];
      [|by eauto].
    destruct (register_excel_to_duckdb env3 file_url catalog sheet_names)
      as [env4 [sheet_data|msg]] eqn:Ereg; [|by eauto].
    apply register_excel_qualified in Ereg.
    pose proof (dict_update_qualified _ _ Hsm Ereg) as Hsm'.
    eexists _, _. split; [reflexivity|].
    apply save_file_well; try done.
    rewrite append_schemas_qualified; done.
  - destruct (String.eqb (extension_of key) "csv").
    + destruct (read_csv_head env2 file_url) as [env3 [u|msg]]; [|by eauto].
      destruct (register_excel_to_duckdb env3 file_url catalog _)
        as [env4 [sheet_data|msg]] eqn:Ereg; [|by eauto].
      apply register_excel_qualified in Ereg.
      pose proof (dict_update_qualified _ _ Hsm Ereg) as Hsm'.
      eexists _, _. split; [reflexivity|].
      apply save_file_well; try done.
      rewrite append_schema_qualified; [done|done|apply sanitized_has_no_dot].
    + eexists _, _. split; [reflexivity|]. by apply save_file_well.
Qed.

Lemma process_files_well files : forall env got,
  well_gathered got ->
  exists env' got', process_files (env, got) files = Some (env', got')
                    /\ well_gathered got'.
Proof.
  induction files as [|f rest IH]; intros env got Hwell; cbn [ExcelMapping.process_files].
  - by eauto.
  - destruct (process_file_well env got f Hwell) as (env1 & got1 & -> & Hwell1).
    by apply IH.
Qed.

Lemma nothing_gathered_well : well_gathered nothing_gathered.
Proof.
  split; [done|]. split; [done|]. split; [apply NoDup_nil_2|].
  intros key info H. by apply elem_of_nil in H.
Qed.


(** X19.  In the state that [read_excel_columns] returns, no two files
    share a catalog name, also when their names are the same after
    sanitizing; [catalog_info] leads from each file's catalog name back
    to the file's key; and only files whose key ends in a supported
    extension have an entry. *)
Theorem files_get_distinct_catalogs env state env' state' :
  read_excel_columns env state = Some (env', Returns state') ->
  NoDup (file_catalog_name <$> (file_metadata state').*2)
  /\ (forall key info, (key, info) ∈ file_metadata state' ->
        dict_get (file_catalog_name info) (catalog_info state') = Some key
        /\ supported (extension_of key) = true).
Proof.
  unfold ExcelMapping.read_excel_columns.
  destruct (file_list state) as [[|f rest]|]; [done| |done].
  destruct (process_files_well (f :: rest) env nothing_gathered nothing_gathered_well)
    as (env1 & got & -> & _ & _ & Hnd & Hmap).
  intros [= _ <-]. cbn [file_metadata catalog_info]. done.
Qed.

End ReadingFacts.

(** X19, witness: two workbooks called [sales.xlsx] get the catalogs
    [sales] and [sales_1]; the text file gets none. *)
Lemma files_get_distinct_catalogs_witness :
  exists env' state',
    ExcelMapping.demo_read_excel_columns 0 ExcelMapping.demo_state
    = Some (env', NativeSqlTools.Returns state')
    /\ ExcelMapping.file_catalog_name <$> (ExcelMapping.file_metadata state').*2
       = ["sales"; "sales_1"]
    /\ NoDup (ExcelMapping.file_catalog_name <$> (ExcelMapping.file_metadata state').*2).
Proof.
  eexists _, _. split; [vm_compute; reflexivity|]. split; [reflexivity|].
  match goal with
  | |- NoDup (_ <$> (ExcelMapping.file_metadata ?st).*2) =>
      assert (E : exists n, ExcelMapping.demo_read_excel_columns 0 ExcelMapping.demo_state
                            = Some (n, NativeSqlTools.Returns st))
        by (eexists; vm_compute; reflexivity)
  end.
  destruct E as [n E].
  unfold ExcelMapping.demo_read_excel_columns in E.
  exact (proj1 (files_get_distinct_catalogs _ _ _ _ _ _ _ _ _ _ _ _ _ _ _ _ _ _ _ _ _ _ _ E)).
Defined.

(** * Further properties: running the query of the Excel agent *)

Section ExecutionFacts.

Import PyStr PyDict NativeSqlTools ExcelNames ExcelMapping ExcelExecution.

Variable Env : Type.
Variable DataFrame : Type.
Variable duckdb_connect : Env -> Env * Outcome unit.
Variable con_execute : Env -> string -> option DataFrame -> Env * Outcome unit.
Variable con_query : Env -> string -> Env * Outcome (list string * list (list string)).
Variable con_close : Env -> Env * Outcome unit.
Variable excel_file_sheet_names : Env -> string -> Env * Outcome (list string).
Variable read_excel : Env -> string -> string -> Env * Outcome DataFrame.
Variable read_csv : Env -> string -> Env * Outcome DataFrame.
Variable df_empty : DataFrame -> bool.
Variable df_columns : DataFrame -> list string.
Variable df_rename : DataFrame -> list string -> DataFrame.

Local Abbreviation World := (World Env).
Local Abbreviation left_open := (left_open Env).
Local Abbreviation connect := (connect Env duckdb_connect).
Local Abbreviation execute := (execute Env DataFrame con_execute).
Local Abbreviation query := (query Env con_query).
Local Abbreviation close := (close Env con_close).
Local Abbreviation register_frame :=
  (register_frame Env DataFrame con_execute df_empty df_columns df_rename).
Local Abbreviation register_file :=
  (register_file Env DataFrame con_execute excel_file_sheet_names read_excel read_csv
     df_empty df_columns df_rename).
Local Abbreviation setup_multi_catalog_duckdb :=
  (setup_multi_catalog_duckdb Env DataFrame duckdb_connect con_execute
     excel_file_sheet_names read_excel read_csv df_empty df_columns df_rename).
Local Abbreviation run_query :=
  (run_query Env DataFrame duckdb_connect con_execute con_query con_close
     excel_file_sheet_names read_excel read_csv df_empty df_columns df_rename).
Local Abbreviation exe_sql_excel_query :=
  (exe_sql_excel_query Env DataFrame duckdb_connect con_execute con_query con_close
     excel_file_sheet_names read_excel read_csv df_empty df_columns df_rename).

Lemma left_open_refl (w : World) : left_open w w.
Proof. exists []. split; [by rewrite app_nil_r|]. by intros H%elem_of_nil. Qed.

Lemma left_open_trans (w1 w2 w3 : World) :
  left_open w1 w2 -> left_open w2 w3 -> left_open w1 w3.
Proof.
  intros (l1 & E1 & H1) (l2 & E2 & H2). exists (l1 ++ l2).
  split; [by rewrite E2, E1, app_assoc|]. rewrite elem_of_app. tauto.
Qed.

Lemma left_open_event (w w' : World) ev :
  trace w' = trace w ++ [ev] -> ev <> Closed -> left_open w w'.
Proof.
  intros E Hne. exists [ev]. split; [done|]. intros H%list_elem_of_singleton. by subst.
Qed.

Lemma outside_left_open {A} (call : Env -> Env * Outcome A) (w : World) :
  left_open w (outside Env call w).1.
Proof.
  unfold outside. destruct (call (env w)) as [e r]. cbn [fst].
  exists []. split; [by rewrite app_nil_r|]. by intros H%elem_of_nil.
Qed.

Lemma connect_left_open (w : World) : left_open w (connect w).1.
Proof.
  unfold ExcelExecution.connect. destruct (duckdb_connect (env w)) as [e [u|msg]].
  - by apply (left_open_event _ _ Connected).
  - exists []. split; [cbn; by rewrite app_nil_r|]. by intros H%elem_of_nil.
Qed.

Lemma execute_left_open (w : World) sql df : left_open w (execute w sql df).1.
Proof.
  unfold ExcelExecution.execute. destruct (con_execute (env w) sql df) as [e r].
  by apply (left_open_event _ _ (Executed sql)).
Qed.

Lemma query_trace (w : World) sql : trace (query w sql).1 = trace w ++ [Executed sql].
Proof. unfold ExcelExecution.query. by destruct (con_query (env w) sql) as [e r]. Qed.

Lemma register_frame_left_open (w : World) catalog table
    (call : Env -> Env * Outcome DataFrame) :
  left_open w (register_frame catalog table (outside Env call w)).
Proof.
  pose proof (outside_left_open call w) as H.
  unfold ExcelExecution.register_frame.
  destruct (outside Env call w) as [w1 [df|msg]]; cbn [fst] in H; [|done].
  destruct (df_empty df); [done|].
  exact (left_open_trans _ _ _ H (execute_left_open w1 _ _)).
Qed.

Lemma register_file_left_open (w : World) entry : left_open w (register_file w entry).
Proof.
  destruct entry as [file_key file_info]. unfold ExcelExecution.register_file.
  destruct (_ || _).
  - pose proof (outside_left_open
                  (fun e => excel_file_sheet_names e (file_path file_info)) w) as H.
    destruct (outside Env _ w) as [w1 [sheet_names|msg]]; cbn [fst] in H; [|done].
    clear -H. revert w1 H. induction sheet_names as [|s rest IH]; intros w1 H; [done|].
    cbn [fold_left]. apply IH.
    exact (left_open_trans _ _ _ H (register_frame_left_open w1 _ _ _)).
  - destruct (String.eqb _ "csv"); [|apply left_open_refl].
    apply register_frame_left_open.
Qed.

Lemma register_files_left_open files : forall w : World,
  left_open w (fold_left register_file files w).
Proof.
  induction files as [|f rest IH]; intros w; [apply left_open_refl|].
  cbn [fold_left].
  exact (left_open_trans _ _ _ (register_file_left_open w f) (IH _)).
Qed.

Lemma setup_left_open (w : World) files :
  left_open w (setup_multi_catalog_duckdb w files).1.
Proof.
  unfold ExcelExecution.setup_multi_catalog_duckdb.
  pose proof (connect_left_open w) as H1.
  destruct (connect w) as [w1 [u|msg]]; cbn [fst] in H1; [|done].
  pose proof (execute_left_open w1 "INSTALL httpfs" None) as H2.
  destruct (execute w1 "INSTALL httpfs" None) as [w2 [u2|msg]]; cbn [fst] in H2;
    [|exact (left_open_trans _ _ _ H1 H2)].
  pose proof (execute_left_open w2 "LOAD httpfs" None) as H3.
  destruct (execute w2 "LOAD httpfs" None) as [w3 [u3|msg]]; cbn [fst] in H3;
    [|exact (left_open_trans _ _ _ H1 (left_open_trans _ _ _ H2 H3))].
  cbn [fst].
  exact (left_open_trans _ _ _ H1
           (left_open_trans _ _ _ H2
              (left_open_trans _ _ _ H3 (register_files_left_open files w3)))).
Qed.

Lemma remove_backticks_clean s : has_char "`" (remove_backticks s) = false.
Proof.
  induction s as [|c r IH]; [done|]. cbn [remove_backticks].
  destruct (Ascii.eqb c "`") eqn:E; [exact IH|]. cbn [has_char]. by rewrite E, IH.
Qed.

(** The ways the body of [exe_sql_excel_query] can go. *)
Lemma run_query_cases (w : World) state :
  (exists msg, turned_away state = Some msg /\ run_query w state = (w, Raises msg))
  \/ (turned_away state = None
      /\ exists w1 msg, run_query w state = (w1, Raises msg) /\ left_open w w1)
  \/ (turned_away state = None
      /\ exists generated w1 w2 columns rows,
           generated_sql state = Some generated
           /\ run_query w state
              = (w2, Returns {| success := true; result_columns := columns;
                                data := map (zip_dict columns) rows; error := None |})
           /\ left_open w w1
           /\ trace w2
              = trace w1 ++ [Executed (remove_backticks generated); Closed]).
Proof.
  unfold ExcelExecution.run_query, turned_away.
  destruct (generated_sql state) as [generated|]; [|left; by eauto].
  destruct (truthy generated); cbn [negb]; [|left; by eauto].
  destruct (String.eqb generated "No SQL query generated"); [left; by eauto|].
  destruct (file_metadata state) as [|f fs] eqn:Ef; [left; by eauto|].
  right. pose proof (setup_left_open w (f :: fs)) as H1.
  destruct (setup_multi_catalog_duckdb w (f :: fs)) as [w1 [u|msg]]; cbn [fst] in H1;
    [|left; by eauto].
  pose proof (query_trace w1 (remove_backticks generated)) as H2.
  destruct (query w1 (remove_backticks generated)) as [w2 [[columns rows]|msg]];
    cbn [fst] in H2.
  - unfold ExcelExecution.close.
    destruct (con_close (env w2)) as [e [u3|msg]].
    + right. split; [done|]. eexists generated, w1, _, columns, rows.
      split; [done|]. split; [reflexivity|]. split; [done|].
      cbn [trace]. by rewrite H2, <- app_assoc.
    + left. split; [done|]. eexists _, msg. split; [reflexivity|].
      apply (left_open_trans _ _ _ H1). by apply (left_open_event _ _ _ H2).
  - left. split; [done|]. eexists w2, msg. split; [reflexivity|].
    apply (left_open_trans _ _ _ H1). by apply (left_open_event _ _ _ H2).
Qed.

(** X20.  [exe_sql_excel_query] never raises: it returns the state
    with an execution result and nothing else changed.  A missing or
    empty query, the marker of a failed generation, or empty file
    metadata are reported as a failure with their own message before
    DuckDB is touched.  A success carries no error, and the statement
    that produced it is the generated one without backticks.  The
    connection is closed exactly when success is reported: on every
    failure after a connection may have been opened, it is never
    closed.  A failure carries no columns and no data. *)
Theorem query_outcome_and_connection (w : World) state :
  exists r new,
    (exe_sql_excel_query w state).2 = with_result state r
    /\ trace (exe_sql_excel_query w state).1 = trace w ++ new
    /\ (success r = true <-> Closed ∈ new)
    /\ (success r = true ->
        error r = None
        /\ exists generated,
             generated_sql state = Some generated
             /\ Executed (remove_backticks generated) ∈ new
             /\ has_char "`" (remove_backticks generated) = false)
    /\ (success r = false ->
        result_columns r = [] /\ data r = [] /\ is_Some (error r))
    /\ (forall msg, turned_away state = Some msg ->
          (exe_sql_excel_query w state).1 = w /\ r = failed msg).
Proof.
  unfold ExcelExecution.exe_sql_excel_query.
  destruct (run_query_cases w state)
    as [(msg & Ht & ->)|[(Ht & w1 & msg & -> & new & Hn & Hc)|
        (Ht & generated & w1 & w2 & columns & rows & Hg & -> & (new & Hn & Hc) & Htr)]];
    cbn [fst snd].
  - exists (failed msg), []. split; [done|]. split; [by rewrite app_nil_r|].
    split; [split; [done|by intros H%elem_of_nil]|]. split; [done|].
    split; [by eauto|]. intros msg' E. rewrite Ht in E. by injection E as <-.
  - exists (failed msg), new. split; [done|]. split; [done|].
    split; [split; [done|by intros H%Hc]|]. split; [done|].
    split; [by eauto|]. intros msg' E. congruence.
  - eexists _, (new ++ [Executed (remove_backticks generated); Closed]).
    split; [reflexivity|]. split; [by rewrite Htr, Hn, app_assoc|].
    cbn [success error result_columns data].
    split; [split; [intros _|done]|].
    { rewrite elem_of_app, !elem_of_cons. tauto. }
    split.
    { intros _. split; [done|]. exists generated. split; [done|].
      split; [|apply remove_backticks_clean].
      rewrite elem_of_app, !elem_of_cons. tauto. }
    split; [done|]. intros msg' E. congruence.
Qed.

End ExecutionFacts.

(** X20, witness: the generated query runs without its backticks and
    the connection is closed; the marker of a failed generation is
    turned away with nothing touched. *)
Lemma query_outcome_and_connection_witness :
  ExcelExecution.trace (ExcelExecution.demo_exe ExcelExecution.demo_query_state).1
  = [ExcelExecution.Connected; ExcelExecution.Executed "INSTALL httpfs";
     ExcelExecution.Executed "LOAD httpfs";
     ExcelExecution.Executed "CREATE TABLE sales.2024_Q1 AS SELECT * FROM df";
     ExcelExecution.Executed "SELECT a.id, b.id FROM sales.table_2024_Q1 a, sales.t b";
     ExcelExecution.Closed]
  /\ exists r new,
       (ExcelExecution.demo_exe ExcelExecution.demo_query_state).2
       = ExcelExecution.with_result ExcelExecution.demo_query_state r
       /\ ExcelExecution.trace (ExcelExecution.demo_exe ExcelExecution.demo_query_state).1
          = [] ++ new
       /\ (ExcelMapping.success r = true <-> ExcelExecution.Closed ∈ new).
Proof.
  split; [vm_compute; reflexivity|].
  destruct (query_outcome_and_connection nat unit
              (fun e => (S e, NativeSqlTools.Returns tt))
              (fun e _ _ => (S e, NativeSqlTools.Returns tt))
              (fun e _ => (S e, NativeSqlTools.Returns (["id"; "id"], [["1"; "2"]])))
              (fun e => (S e, NativeSqlTools.Returns tt))
              (fun e _ => (S e, NativeSqlTools.Returns ["2024 Q1"]))
              (fun e _ _ => (S e, NativeSqlTools.Returns tt))
              (fun e _ => (S e, NativeSqlTools.Returns tt))
              (fun _ => false) (fun _ => ["order id"]) (fun df _ => df)
              {| ExcelExecution.env := 0; ExcelExecution.trace := [] |}
              ExcelExecution.demo_query_state) as (r & new & H1 & H2 & H3 & _).
  exists r, new. split; [exact H1|]. split; [exact H2|exact H3].
Defined.

(** * Further properties: the rows of the execution result *)

Section RowFacts.

Import PyStr PyDict NativeSqlTools ExcelMapping ExcelExecution.

Lemma dict_get_app {V} k (a b : list (string * V)) :
  dict_get k (a ++ b) = match dict_get k a with Some v => Some v | None => dict_get k b end.
Proof.
  unfold dict_get. induction a as [|[k' v'] a IH]; cbn [app List.find fst snd]; [done|].
  destruct (String.eqb k' k); [done|exact IH].
Qed.

Lemma dict_get_fold {V} k (l : list (string * V)) : forall d,
  dict_get k (fold_left (fun d e => dict_set e.1 e.2 d) l d)
  = match dict_get k (rev l) with Some v => Some v | None => dict_get k d end.
Proof.
  induction l as [|[k' v'] rest IH]; intros d; cbn [fold_left rev fst snd]; [done|].
  rewrite IH, dict_get_app. destruct (dict_get k (rev rest)); [done|].
  destruct (String.eqb_spec k' k) as [->|Hne].
  - rewrite dict_get_set_eq. unfold dict_get. cbn [List.find fst snd].
    by rewrite String.eqb_refl.
  - rewrite dict_get_set_ne by done. unfold dict_get at 2. cbn [List.find fst snd].
    destruct (String.eqb_spec k' k); [done|]. by destruct (dict_get k d).
Qed.

Lemma dict_set_fresh {V} k (v : V) d : k ∉ d.*1 -> dict_set k v d = d ++ [(k, v)].
Proof.
  induction d as [|[k' v'] rest IH]; cbn [dict_set app]; [done|].
  rewrite fmap_cons. cbn [fst]. intros [Hne Hr]%not_elem_of_cons.
  destruct (String.eqb_spec k' k); [by subst|]. by rewrite IH.
Qed.

Lemma fold_set_fresh {V} (l : list (string * V)) : forall d,
  NoDup (d.*1 ++ l.*1) -> fold_left (fun d e => dict_set e.1 e.2 d) l d = d ++ l.
Proof.
  induction l as [|[k v] rest IH]; intros d Hnd; cbn [fold_left fst snd].
  - by rewrite app_nil_r.
  - rewrite fmap_cons in Hnd. cbn [fst] in Hnd.
    assert (Hk : k ∉ d.*1).
    { apply NoDup_app in Hnd as (_ & Hdis & _). intros Hin. apply (Hdis k Hin).
      apply list_elem_of_here. }
    rewrite (dict_set_fresh k v d Hk), IH, <- app_assoc; [done|].
    rewrite fmap_app, <- app_assoc. exact Hnd.
Qed.

Lemma fold_set_NoDup {V} (l : list (string * V)) : forall d,
  NoDup d.*1 -> NoDup (fold_left (fun d e => dict_set e.1 e.2 d) l d).*1.
Proof.
  induction l as [|e rest IH]; intros d Hd; cbn [fold_left]; [done|].
  by apply IH, dict_set_NoDup.
Qed.

Lemma combine_keys {A B} (a : list A) : forall b : list B,
  length b = length a -> (combine a b).*1 = a.
Proof.
  induction a as [|x a IH]; intros [|y b] H; try done.
  cbn [combine]. rewrite fmap_cons. cbn [fst]. rewrite IH; [done|]. simpl in H. lia.
Qed.

(** X21.  A row of the execution result has one entry per column
    name: when the query returns two columns of the same name, the row
    keeps the value of the last one under that name, although the list
    of columns still names both.  When the names are distinct and the
    row has a value for each, the row is the columns paired with the
    values, in order. *)
Theorem rows_have_one_value_per_name columns row :
  NoDup (zip_dict columns row).*1
  /\ (forall name,
        dict_get name (zip_dict columns row) = dict_get name (rev (combine columns row)))
  /\ (NoDup columns -> length row = length columns ->
      zip_dict columns row = combine columns row).
Proof.
  unfold zip_dict. split; [apply fold_set_NoDup, NoDup_nil_2|]. split.
  - intros name. rewrite dict_get_fold. by destruct (dict_get name (rev _)).
  - intros Hnd Hlen. rewrite fold_set_fresh; [done|].
    cbn [fmap list_fmap app]. by rewrite combine_keys.
Qed.

End RowFacts.

(** X21, witness: the row of a query that returns two columns called
    [id]. *)
Lemma rows_have_one_value_per_name_witness :
  NoDup ["id"; "name"] /\ length ["7"; "Ada"] = length ["id"; "name"]
  /\ ExcelExecution.zip_dict ["id"; "name"] ["7"; "Ada"] = [("id", "7"); ("name", "Ada")]
  /\ ExcelExecution.zip_dict ["id"; "id"] ["1"; "2"] = [("id", "2")].
Proof.
  assert (H : NoDup ["id"; "name"]).
  { apply NoDup_cons. split; [|apply NoDup_singleton].
    intros E%list_elem_of_singleton. discriminate E. }
  split; [exact H|]. split; [reflexivity|]. split; [|reflexivity].
  exact (proj2 (proj2 (rows_have_one_value_per_name ["id"; "name"] ["7"; "Ada"])) H eq_refl).
Defined.
